(** * SeaBIOS int 0x15 "system" services (src/system.c)

    A shallow embedding of the A20 gate control, the protected-mode block
    move (int 15h, ah=87h), the extended-memory size queries (ah=88h and
    ax=e801h), the e820 memory-map enumeration (ax=e820h) and the dispatch
    of the entry point, with the properties the specification states about
    them, and of the interrupt routing of the PIIX bridge
    (src/dev-i440fx.c).

    The block move runs on the CPU's segmentation: segment registers carry
    the limit and the access rights of the descriptor they were loaded
    from, every load of a selector and every access to memory through a
    segment is checked as the CPU checks it, and a refused one ends the
    call in a fault.  The model has no interrupts arriving during a
    call. *)

From Stdlib Require Import ZArith List Bool Lia.
Import ListNotations.

Local Open Scope Z_scope.

(** ** Fixed-width integers

    C's [u8], [u16], [u32] and [u64] are integers of [Z] reduced modulo the
    width of the type at every assignment. *)

Definition u8 (x : Z) : Z := x mod 2 ^ 8.
Definition u16 (x : Z) : Z := x mod 2 ^ 16.
Definition u32 (x : Z) : Z := x mod 2 ^ 32.
Definition u64 (x : Z) : Z := x mod 2 ^ 64.

(** The [n] low bytes of [v], least significant first (x86 is little
    endian). *)
Fixpoint le_bytes (n : nat) (v : Z) : list Z :=
  match n with
  | O => []
  | S n' => u8 v :: le_bytes n' (Z.shiftr v 8)
  end.

(** ** Constants of headers that are not part of the sources

    [ioport.h], [biosvar.h], [config.h] and [util.h] define the macros
    below.  The development is parametric in them; [seabios_platform] gives
    the values of the SeaBIOS tree and is used for the concrete examples. *)

Class Platform : Type := {
  PORT_A20 : Z;            (* ioport.h: PS/2 system control port A *)
  A20_ENABLE_BIT : Z;      (* ioport.h: mask of the A20 enable bit *)
  RET_EUNSUPPORTED : Z;    (* biosvar.h: "unsupported function" code *)
  SEG_BIOS : Z;            (* config.h: real-mode segment of the BIOS *)
  CR0_PE : Z;              (* util.h: protection-enable bit of %cr0 *)
  CONFIG_MAX_E820 : Z;     (* config.h: capacity of e820_list *)
  GDT_CODE : Z;            (* util.h: access bits of a code descriptor *)
  GDT_DATA : Z;            (* util.h: access bits of a data descriptor *)
  GDT_LIMIT : Z -> Z;      (* util.h: limit field of a descriptor *)
  GDT_BASE : Z -> Z        (* util.h: base field of a descriptor *)
}.

Definition seabios_platform : Platform := {|
  PORT_A20 := 0x92;
  A20_ENABLE_BIT := 0x02;
  RET_EUNSUPPORTED := 0x86;
  SEG_BIOS := 0xf000;
  CR0_PE := 1;
  CONFIG_MAX_E820 := 32;
  GDT_CODE := Z.shiftl 0x9b 40;
  GDT_DATA := Z.shiftl 0x93 40;
  GDT_LIMIT := fun v =>
    Z.lor (Z.shiftl (Z.land v 0x000f0000) 32) (Z.land v 0x0000ffff);
  GDT_BASE := fun v =>
    Z.lor (Z.shiftl (Z.land v 0xff000000) 32)
          (Z.shiftl (Z.land v 0x00ffffff) 16)
|}.

(** ** The caller's register frame

    Modelled from the spec: [struct bregs] (bregs.h) is not part of the
    sources.  It is the "small structured argument/result register set" of
    the calling convention: the 32-bit general registers, whose low halves
    and bytes are the 16-bit and 8-bit registers, the segment registers and
    the flags, whose bit 0 is the carry flag that reports failure. *)

Record bregs : Type := mkBregs {
  eax : Z; ebx : Z; ecx : Z; edx : Z; esi : Z; edi : Z;
  es : Z; ds : Z;
  flags : Z
}.

Definition ax (r : bregs) : Z := u16 (eax r).
Definition bx (r : bregs) : Z := u16 (ebx r).
Definition cx (r : bregs) : Z := u16 (ecx r).
Definition dx (r : bregs) : Z := u16 (edx r).
Definition si (r : bregs) : Z := u16 (esi r).
Definition di (r : bregs) : Z := u16 (edi r).
Definition al (r : bregs) : Z := u8 (eax r).
Definition ah (r : bregs) : Z := u8 (Z.shiftr (eax r) 8).

(** Replace the [w] low bits of [old] by those of [v]. *)
Definition set_low (w : Z) (old v : Z) : Z :=
  Z.lor (Z.shiftl (Z.shiftr old w) w) (v mod 2 ^ w).

Definition set_eax (v : Z) (r : bregs) : bregs :=
  mkBregs (u32 v) (ebx r) (ecx r) (edx r) (esi r) (edi r) (es r) (ds r) (flags r).
Definition set_ebx (v : Z) (r : bregs) : bregs :=
  mkBregs (eax r) (u32 v) (ecx r) (edx r) (esi r) (edi r) (es r) (ds r) (flags r).
Definition set_ecx (v : Z) (r : bregs) : bregs :=
  mkBregs (eax r) (ebx r) (u32 v) (edx r) (esi r) (edi r) (es r) (ds r) (flags r).
Definition set_edx (v : Z) (r : bregs) : bregs :=
  mkBregs (eax r) (ebx r) (ecx r) (u32 v) (esi r) (edi r) (es r) (ds r) (flags r).
Definition set_flags (v : Z) (r : bregs) : bregs :=
  mkBregs (eax r) (ebx r) (ecx r) (edx r) (esi r) (edi r) (es r) (ds r) v.

Definition set_ax (v : Z) (r : bregs) : bregs := set_eax (set_low 16 (eax r) v) r.
Definition set_bx (v : Z) (r : bregs) : bregs := set_ebx (set_low 16 (ebx r) v) r.
Definition set_cx (v : Z) (r : bregs) : bregs := set_ecx (set_low 16 (ecx r) v) r.
Definition set_dx (v : Z) (r : bregs) : bregs := set_edx (set_low 16 (edx r) v) r.
Definition set_ah (v : Z) (r : bregs) : bregs :=
  set_eax (Z.lor (Z.shiftl (Z.shiftr (eax r) 16) 16)
                 (Z.lor (Z.shiftl (u8 v) 8) (u8 (eax r)))) r.

Definition F_CF : Z := 1.

Definition carry (r : bregs) : bool := Z.testbit (flags r) 0.

Definition set_cf (cond : bool) (r : bregs) : bregs :=
  if cond then set_flags (Z.lor (flags r) F_CF) r
  else set_flags (Z.land (flags r) (Z.lnot F_CF)) r.

(** Modelled from the spec: the status macros of bregs.h/biosvar.h are not
    part of the sources.  Success clears the carry flag, failure sets it;
    the [code] variants also store the status code in [ah]. *)
Definition regs_success (r : bregs) : bregs := set_cf false r.
Definition regs_code_success (r : bregs) : bregs := set_cf false (set_ah 0 r).
Definition regs_code_fail (code : Z) (r : bregs) : bregs :=
  set_cf true (set_ah code r).

Definition set_al (v : Z) (r : bregs) : bregs := set_eax (set_low 8 (eax r) v) r.


(** ** The machine

    The handlers read and write I/O ports, physical memory, the caller's
    register frame, the CPU registers named by the inline assembly and three
    global variables.  All of it is threaded explicitly. *)

(** One entry of the e820 map.  Modelled from the spec: [struct e820entry]
    (memmap.h) is not part of the sources; an entry is a 64-bit base, a
    64-bit length and a type, which the i386 ABI lays out in 20 bytes. *)
Record e820entry : Type := mkE820 {
  e820_start : Z;
  e820_size : Z;
  e820_type : Z
}.

Definition sizeof_e820entry : Z := 8 + 8 + 4.

Definition e820_bytes (e : e820entry) : list Z :=
  le_bytes 8 (e820_start e) ++ le_bytes 8 (e820_size e)
  ++ le_bytes 4 (e820_type e).

(** A memory store, kept in a log: address of the first byte, width in
    bytes, value. *)
Record write : Type := mkWrite {
  wr_addr : Z;
  wr_width : nat;
  wr_val : Z
}.

(** A segment register: the visible selector and the hidden part the CPU
    checks every access against, that is the base, the limit (the offset
    of the last byte) and the access rights of the descriptor the register
    was last loaded from in protected mode.  The access rights are the
    descriptor's bits 40..47 (accessed, read/write, expand-down or
    conforming, code, S, DPL, present) and 52..55 (AVL, L, D/B, G), at
    bits 0..7 and 12..15. *)
Record segreg : Type := mkSeg {
  selector : Z;
  seg_base : Z;
  seg_limit : Z;
  seg_access : Z
}.

(** The two interrupt-table images the assembly names. *)
Inductive idt_info : Type :=
| pmode_IDT_info
| rmode_IDT_info.

Record cpu_state : Type := mkCpu {
  cr0 : Z;
  gdtr_limit : Z;
  gdtr_base : Z;
  idtr : idt_info;
  seg_cs : segreg;
  seg_ds : segreg;
  seg_es : segreg;
  seg_ss : segreg;
  cpu_eax : Z;
  cpu_cx : Z;
  cpu_si : Z;
  cpu_di : Z;
  df : bool                (* direction flag *)
}.

(** A write to an I/O port, kept in a log: the port, the byte and the
    number of memory stores made before it. *)
Record out : Type := mkOut {
  out_port : Z;
  out_val : Z;
  out_after : nat
}.

(** The caller's frame and the three globals are objects in memory too;
    they are kept as fields next to [mem], so the embedding describes the
    calls whose stores (descriptor table, destination of a block move,
    e820 buffer) do not land on them. *)
Record machine : Type := mkMachine {
  io : Z -> Z;             (* I/O port space, one byte per port *)
  mem : Z -> Z;            (* physical memory, one byte per address *)
  writes : list write;     (* the stores performed so far, oldest first *)
  regs : bregs;            (* the frame [regs] points to *)
  cpu : cpu_state;
  RamSize : Z;
  e820_list : list e820entry;
  e820_count : Z;
  outs : list out          (* the port writes performed so far *)
}.

Definition set_io (f : Z -> Z) (s : machine) : machine :=
  mkMachine f (mem s) (writes s) (regs s) (cpu s)
            (RamSize s) (e820_list s) (e820_count s) (outs s).
Definition set_mem (m : Z -> Z) (l : list write) (s : machine) : machine :=
  mkMachine (io s) m l (regs s) (cpu s)
            (RamSize s) (e820_list s) (e820_count s) (outs s).
Definition set_regs (r : bregs) (s : machine) : machine :=
  mkMachine (io s) (mem s) (writes s) r (cpu s)
            (RamSize s) (e820_list s) (e820_count s) (outs s).
Definition set_cpu (c : cpu_state) (s : machine) : machine :=
  mkMachine (io s) (mem s) (writes s) (regs s) c
            (RamSize s) (e820_list s) (e820_count s) (outs s).
Definition set_outs (l : list out) (s : machine) : machine :=
  mkMachine (io s) (mem s) (writes s) (regs s) (cpu s)
            (RamSize s) (e820_list s) (e820_count s) l.

Definition with_cr0 (v : Z) (c : cpu_state) : cpu_state :=
  mkCpu v (gdtr_limit c) (gdtr_base c) (idtr c) (seg_cs c) (seg_ds c)
        (seg_es c) (seg_ss c) (cpu_eax c) (cpu_cx c) (cpu_si c) (cpu_di c) (df c).
Definition with_gdtr (l b : Z) (c : cpu_state) : cpu_state :=
  mkCpu (cr0 c) l b (idtr c) (seg_cs c) (seg_ds c)
        (seg_es c) (seg_ss c) (cpu_eax c) (cpu_cx c) (cpu_si c) (cpu_di c) (df c).
Definition with_idtr (i : idt_info) (c : cpu_state) : cpu_state :=
  mkCpu (cr0 c) (gdtr_limit c) (gdtr_base c) i (seg_cs c) (seg_ds c)
        (seg_es c) (seg_ss c) (cpu_eax c) (cpu_cx c) (cpu_si c) (cpu_di c) (df c).
Definition with_cs (r : segreg) (c : cpu_state) : cpu_state :=
  mkCpu (cr0 c) (gdtr_limit c) (gdtr_base c) (idtr c) r (seg_ds c)
        (seg_es c) (seg_ss c) (cpu_eax c) (cpu_cx c) (cpu_si c) (cpu_di c) (df c).
Definition with_ds (r : segreg) (c : cpu_state) : cpu_state :=
  mkCpu (cr0 c) (gdtr_limit c) (gdtr_base c) (idtr c) (seg_cs c) r
        (seg_es c) (seg_ss c) (cpu_eax c) (cpu_cx c) (cpu_si c) (cpu_di c) (df c).
Definition with_es (r : segreg) (c : cpu_state) : cpu_state :=
  mkCpu (cr0 c) (gdtr_limit c) (gdtr_base c) (idtr c) (seg_cs c) (seg_ds c)
        r (seg_ss c) (cpu_eax c) (cpu_cx c) (cpu_si c) (cpu_di c) (df c).
Definition with_eax (v : Z) (c : cpu_state) : cpu_state :=
  mkCpu (cr0 c) (gdtr_limit c) (gdtr_base c) (idtr c) (seg_cs c) (seg_ds c)
        (seg_es c) (seg_ss c) (u32 v) (cpu_cx c) (cpu_si c) (cpu_di c) (df c).
Definition with_cx (v : Z) (c : cpu_state) : cpu_state :=
  mkCpu (cr0 c) (gdtr_limit c) (gdtr_base c) (idtr c) (seg_cs c) (seg_ds c)
        (seg_es c) (seg_ss c) (cpu_eax c) (u16 v) (cpu_si c) (cpu_di c) (df c).
Definition with_si (v : Z) (c : cpu_state) : cpu_state :=
  mkCpu (cr0 c) (gdtr_limit c) (gdtr_base c) (idtr c) (seg_cs c) (seg_ds c)
        (seg_es c) (seg_ss c) (cpu_eax c) (cpu_cx c) (u16 v) (cpu_di c) (df c).
Definition with_di (v : Z) (c : cpu_state) : cpu_state :=
  mkCpu (cr0 c) (gdtr_limit c) (gdtr_base c) (idtr c) (seg_cs c) (seg_ds c)
        (seg_es c) (seg_ss c) (cpu_eax c) (cpu_cx c) (cpu_si c) (u16 v) (df c).

(** *** Ports *)

Definition inb (port : Z) (s : machine) : Z := u8 (io s port).

Definition outb (val port : Z) (s : machine) : machine :=
  set_outs (outs s ++ [mkOut port (u8 val) (length (writes s))])
           (set_io (fun p => if p =? port then u8 val else io s p) s).

(** *** Memory *)

Definition upd (m : Z -> Z) (a b : Z) : Z -> Z :=
  fun x => if x =? a then b else m x.

Fixpoint store_bytes (a : Z) (bs : list Z) (m : Z -> Z) : Z -> Z :=
  match bs with
  | [] => m
  | b :: bs' => store_bytes (a + 1) bs' (upd m a b)
  end.

Fixpoint load_bytes (n : nat) (a : Z) (m : Z -> Z) : list Z :=
  match n with
  | O => []
  | S n' => u8 (m a) :: load_bytes n' (a + 1) m
  end.

Fixpoint le_value (bs : list Z) : Z :=
  match bs with
  | [] => 0
  | b :: bs' => b + 2 ^ 8 * le_value bs'
  end.

(** Little-endian load and store of [n] bytes at a physical address. *)
Definition load (n : nat) (a : Z) (s : machine) : Z :=
  le_value (load_bytes n a (mem s)).

Definition store (n : nat) (a v : Z) (s : machine) : machine :=
  set_mem (store_bytes a (le_bytes n v) (mem s))
          (writes s ++ [mkWrite a n (v mod 2 ^ (8 * Z.of_nat n))]) s.

(** *** Segmentation *)

(** The linear address of offset [off] in a segment of base [base]. *)
Definition lin (base off : Z) : Z := u32 (base + off).

(** The fields of a segment descriptor.  The base is in bits 16..39 and
    56..63.  The limit is in bits 0..15 and 48..51, in units of 4 KiB when
    the granularity bit 55 is set.  The access rights are kept as the
    segment register holds them. *)
Definition descriptor_base (d : Z) : Z :=
  Z.lor (Z.land (Z.shiftr d 16) 0xffffff)
        (Z.shiftl (Z.land (Z.shiftr d 56) 0xff) 24).

Definition descriptor_limit (d : Z) : Z :=
  let l := Z.lor (Z.land d 0xffff)
                 (Z.shiftl (Z.land (Z.shiftr d 48) 0xf) 16) in
  if Z.testbit d 55 then Z.lor (Z.shiftl l 12) 0xfff else l.

Definition descriptor_access (d : Z) : Z := Z.land (Z.shiftr d 40) 0xf0ff.

Definition descriptor_dpl (d : Z) : Z := Z.land (Z.shiftr d 45) 3.

(** What the hidden part of a segment register allows.  A segment can be
    read when it is present and is data or readable code, written when it
    is present, writable data.  [n] bytes at offset [off] are inside the
    limit when the last of them is not above it; an expand-down data
    segment reverses the test, its offsets ranging from above the limit
    to 0xffff, or 0xffffffff when its B bit is set. *)
Definition seg_present (r : segreg) : bool := Z.testbit (seg_access r) 7.

Definition seg_code (r : segreg) : bool := Z.testbit (seg_access r) 3.

Definition seg_readable (r : segreg) : bool :=
  seg_present r && (negb (seg_code r) || Z.testbit (seg_access r) 1).

Definition seg_writable (r : segreg) : bool :=
  seg_present r && negb (seg_code r) && Z.testbit (seg_access r) 1.

Definition seg_expand_down (r : segreg) : bool :=
  negb (seg_code r) && Z.testbit (seg_access r) 2.

Definition seg_in_limit (r : segreg) (off : Z) (n : nat) : bool :=
  if seg_expand_down r
  then (seg_limit r <? off)
       && (off + Z.of_nat n - 1
           <=? (if Z.testbit (seg_access r) 14 then 0xffffffff else 0xffff))
  else off + Z.of_nat n - 1 <=? seg_limit r.

Definition seg_read_ok (r : segreg) (off : Z) (n : nat) : bool :=
  seg_readable r && seg_in_limit r off n.

Definition seg_write_ok (r : segreg) (off : Z) (n : nat) : bool :=
  seg_writable r && seg_in_limit r off n.

(** What the CPU asks of a descriptor loaded into %ds or %es at privilege
    level 0 through selector [sel]: a data segment or a readable code
    segment (bit 44, bits 43 and 41), of a privilege level not below the
    one the selector requests unless the segment is conforming code (#GP
    otherwise), that is present (#NP otherwise). *)
Definition data_descriptor_ok (sel d : Z) : bool :=
  Z.testbit d 44
  && (negb (Z.testbit d 43) || Z.testbit d 41)
  && ((Z.testbit d 43 && Z.testbit d 42)
      || (Z.land sel 3 <=? descriptor_dpl d))
  && Z.testbit d 47.

(** What a far jump at privilege level 0 asks of the descriptor of its
    target: a present code segment of privilege level 0, requested at
    level 0 unless the segment is conforming.  The code that follows the
    jump is 16-bit code that may lie anywhere in the 64 KiB of the BIOS
    segment: the handler goes on as written only if the segment is a
    16-bit one (bit 54 clear) whose limit covers these 64 KiB. *)
Definition code_descriptor_ok (sel d : Z) : bool :=
  Z.testbit d 44 && Z.testbit d 43 && Z.testbit d 47
  && (descriptor_dpl d =? 0)
  && (Z.testbit d 42 || (Z.land sel 3 =? 0))
  && negb (Z.testbit d 54)
  && (0xffff <=? descriptor_limit d).

(** *** Faults

    A segment load or a memory access the CPU refuses raises an exception
    (#GP or #NP).  [handle_1587] installs an interrupt table without
    handlers before it enters protected mode ("should have exception
    handlers"), so a handler that faults never returns to its caller:
    [Faulted] carries the machine as it is when the exception is
    raised. *)
Inductive outcome : Type :=
| Returned (s : machine)
| Faulted (s : machine).

Definition and_then (o : outcome) (k : machine -> outcome) : outcome :=
  match o with
  | Returned s => k s
  | Faulted s => Faulted s
  end.

Notation "x <- e ;; k" := (and_then e (fun x => k))
  (at level 61, e at next level, right associativity).

(** The machine an outcome ends in. *)
Definition state_of (o : outcome) : machine :=
  match o with
  | Returned s => s
  | Faulted s => s
  end.

Section Handlers.

Context {P : Platform}.

Definition protected (c : cpu_state) : bool :=
  negb (Z.land (cr0 c) CR0_PE =? 0).

(** The descriptor a selector names in the table [gdtr] points to, and
    its address.  There is none when the selector names the local table,
    which the BIOS never sets up, or when the eight bytes of the
    descriptor are not inside the limit of the global table. *)
Definition descriptor_address (sel : Z) (s : machine) : Z :=
  lin (gdtr_base (cpu s)) (Z.land sel (Z.lnot 7)).

Definition fetch_descriptor (sel : Z) (s : machine) : option Z :=
  if Z.testbit sel 2 then None
  else if gdtr_limit (cpu s) <? Z.land sel (Z.lnot 7) + 7 then None
  else Some (load 8 (descriptor_address sel s) s).

(** The descriptor [d] at address [a] has its accessed bit set in the
    table when it is loaded, unless the bit is set already. *)
Definition mark_accessed (a d : Z) (s : machine) : machine :=
  if Z.testbit d 40 then s
  else store 1 (a + 5) (Z.lor (Z.land (Z.shiftr d 40) 0xff) 1) s.

(** The segment register loaded from descriptor [d]. *)
Definition cached (sel d : Z) : segreg :=
  mkSeg sel (descriptor_base d) (descriptor_limit d)
        (descriptor_access (Z.lor d (Z.shiftl 1 40))).

(** In real mode a load changes the selector and the base, which is the
    selector times 16; the limit and the access rights stay as they are. *)
Definition load_segment_real (sel : Z) (old : segreg) : segreg :=
  mkSeg sel (sel * 16) (seg_limit old) (seg_access old).

(** Loading a selector into %ds or %es, at privilege level 0 (the BIOS
    runs at no other).  In protected mode a null selector is accepted and
    gives a segment no access may use; any other selector must name a
    descriptor the CPU accepts.  [None] is the exception. *)
Definition load_segment (sel : Z) (old : segreg) (s : machine)
  : option (segreg * machine) :=
  if protected (cpu s) then
    if Z.land sel (Z.lnot 3) =? 0 then Some (mkSeg sel 0 0 0, s)
    else
      match fetch_descriptor sel s with
      | None => None
      | Some d =>
          if data_descriptor_ok sel d
          then Some (cached sel d, mark_accessed (descriptor_address sel s) d s)
          else None
      end
  else Some (load_segment_real sel old, s).

(** Loading %cs by a far jump, at privilege level 0. *)
Definition load_code_segment (sel : Z) (old : segreg) (s : machine)
  : option (segreg * machine) :=
  if protected (cpu s) then
    if Z.land sel (Z.lnot 3) =? 0 then None
    else
      match fetch_descriptor sel s with
      | None => None
      | Some d =>
          if code_descriptor_ok sel d
          then Some (cached sel d, mark_accessed (descriptor_address sel s) d s)
          else None
      end
  else Some (load_segment_real sel old, s).

Definition mov_to_ds (sel : Z) (s : machine) : outcome :=
  match load_segment sel (seg_ds (cpu s)) s with
  | None => Faulted s
  | Some (r, s') => Returned (set_cpu (with_ds r (cpu s')) s')
  end.

Definition mov_to_es (sel : Z) (s : machine) : outcome :=
  match load_segment sel (seg_es (cpu s)) s with
  | None => Faulted s
  | Some (r, s') => Returned (set_cpu (with_es r (cpu s')) s')
  end.

(** Modelled from the spec: the far-pointer macros of farptr.h are not part
    of the sources.  [MAKE_FLATPTR] is the physical address of seg:off,
    [GET_SEG] reads a segment register and [SET_FARVAR] stores through %es
    after loading it with the segment; the offset is a 32-bit one, checked
    against the limit of %es as every access is. *)
Definition MAKE_FLATPTR (seg off : Z) : Z := Z.shiftl seg 4 + off.

Definition GET_SEG_SS (s : machine) : Z := selector (seg_ss (cpu s)).

Definition SET_FARVAR (n : nat) (seg off v : Z) (s : machine) : outcome :=
  s <- mov_to_es seg s ;;
  if seg_write_ok (seg_es (cpu s)) off n
  then Returned (store n (lin (seg_base (seg_es (cpu s))) off) v s)
  else Faulted s.

(** ** A20 gate: [set_a20] *)

Definition set_a20 (cond : Z) (s : machine) : machine * Z :=
  (* get current setting first *)
  let oldval := inb PORT_A20 s in
  let newval :=
    if negb (cond =? 0)
    then u8 (Z.lor oldval A20_ENABLE_BIT)
    else u8 (Z.land oldval (Z.lnot A20_ENABLE_BIT)) in
  let s := outb newval PORT_A20 s in
  (s, Z.b2z (negb (Z.land oldval A20_ENABLE_BIT =? 0))).

Definition set_code_success (s : machine) : machine :=
  set_regs (regs_code_success (regs s)) s.
Definition set_success (s : machine) : machine :=
  set_regs (regs_success (regs s)) s.
Definition set_code_fail (code : Z) (s : machine) : machine :=
  set_regs (regs_code_fail code (regs s)) s.

(** ** Block move: [handle_1587] *)

(** Lines 104-119: fill in the GDT, CS and SS descriptors of the table at
    es:si. *)
Definition handle_1587_setup (s : machine) : outcome :=
  (* Initialize GDT descriptor *)
  let si := si (regs s) in
  let gdt_far := si in
  let gdt_seg := u16 (es (regs s)) in
  let loc := u32 (MAKE_FLATPTR gdt_seg gdt_far) in
  s <- SET_FARVAR 8 gdt_seg (gdt_far + 8 * 1)
         (Z.lor (Z.lor GDT_DATA (GDT_LIMIT (6 * 8 - 1))) (GDT_BASE loc)) s ;;
  (* Initialize CS descriptor *)
  s <- SET_FARVAR 8 gdt_seg (gdt_far + 8 * 4)
         (Z.lor (Z.lor GDT_CODE (GDT_LIMIT 0x0ffff)) (GDT_BASE 0xf0000)) s ;;
  (* Initialize SS descriptor *)
  let loc := u32 (MAKE_FLATPTR (GET_SEG_SS s) 0) in
  SET_FARVAR 8 gdt_seg (gdt_far + 8 * 5)
    (Z.lor (Z.lor GDT_DATA (GDT_LIMIT 0x0ffff)) (GDT_BASE loc)) s.

(** *** The instructions of the inline assembly *)

(** [lgdtw %es:(1<<3)(%si)]: a 16-bit limit and a 24-bit base, six bytes
    read through %es at a 16-bit offset. *)
Definition lgdtw_es_si (s : machine) : outcome :=
  let c := cpu s in
  let ea := u16 (cpu_si c + Z.shiftl 1 3) in
  if seg_read_ok (seg_es c) ea 6 then
    let limit := load 2 (lin (seg_base (seg_es c)) ea) s in
    let base := load 3 (lin (seg_base (seg_es c)) (ea + 2)) s in
    Returned (set_cpu (with_gdtr limit base c) s)
  else Faulted s.

(** [lidtw %cs:image], read through %cs.  The two images are data of the
    BIOS segment, which is not part of the model's memory. *)
Definition lidtw (i : idt_info) (s : machine) : outcome :=
  if seg_readable (seg_cs (cpu s))
  then Returned (set_cpu (with_idtr i (cpu s)) s)
  else Faulted s.

(** [movl %cr0, %eax; orl $CR0_PE, %eax; movl %eax, %cr0] *)
Definition enable_protected_mode (s : machine) : machine :=
  let s := set_cpu (with_eax (cr0 (cpu s)) (cpu s)) s in
  let s := set_cpu (with_eax (Z.lor (cpu_eax (cpu s)) CR0_PE) (cpu s)) s in
  set_cpu (with_cr0 (cpu_eax (cpu s)) (cpu s)) s.

(** [movl %cr0, %eax; andl $~CR0_PE, %eax; movl %eax, %cr0] *)
Definition disable_protected_mode (s : machine) : machine :=
  let s := set_cpu (with_eax (cr0 (cpu s)) (cpu s)) s in
  let s := set_cpu (with_eax (Z.land (cpu_eax (cpu s)) (Z.lnot CR0_PE))
                             (cpu s)) s in
  set_cpu (with_cr0 (cpu_eax (cpu s)) (cpu s)) s.

Definition ljmpw (sel : Z) (s : machine) : outcome :=
  match load_code_segment sel (seg_cs (cpu s)) s with
  | None => Faulted s
  | Some (r, s') => Returned (set_cpu (with_cs r (cpu s')) s')
  end.

(** [movw v, %ax]: the high half of %eax is kept. *)
Definition movw_ax (v : Z) (s : machine) : machine :=
  set_cpu (with_eax (set_low 16 (cpu_eax (cpu s)) v) (cpu s)) s.

Definition movw_ax_ds (s : machine) : outcome :=
  mov_to_ds (u16 (cpu_eax (cpu s))) s.

Definition movw_ax_es (s : machine) : outcome :=
  mov_to_es (u16 (cpu_eax (cpu s))) s.

Definition xorw_si_si (s : machine) : machine :=
  set_cpu (with_si (Z.lxor (cpu_si (cpu s)) (cpu_si (cpu s))) (cpu s)) s.

Definition xorw_di_di (s : machine) : machine :=
  set_cpu (with_di (Z.lxor (cpu_di (cpu s)) (cpu_di (cpu s))) (cpu s)) s.

(** [movsw]: move the word at ds:si to es:di, then step both 16-bit index
    registers by two, upwards when the direction flag is clear.  The word
    must be readable at %si in %ds and writable at %di in %es. *)
Definition movsw (s : machine) : outcome :=
  let c := cpu s in
  if seg_read_ok (seg_ds c) (cpu_si c) 2
     && seg_write_ok (seg_es c) (cpu_di c) 2 then
    let w := load 2 (lin (seg_base (seg_ds c)) (cpu_si c)) s in
    let s := store 2 (lin (seg_base (seg_es c)) (cpu_di c)) w s in
    let step := if df c then -2 else 2 in
    Returned (set_cpu (with_di (cpu_di c + step)
                               (with_si (cpu_si c + step) c)) s)
  else Faulted s.

(** [rep movsw]: while %cx is not zero, [movsw] and decrement %cx.  The
    loop runs at most %cx times, which bounds the recursion. *)
Fixpoint rep_movsw_loop (fuel : nat) (s : machine) : outcome :=
  match fuel with
  | O => Returned s
  | S fuel' =>
      if cpu_cx (cpu s) =? 0 then Returned s
      else
        s <- movsw s ;;
        let s := set_cpu (with_cx (cpu_cx (cpu s) - 1) (cpu s)) s in
        rep_movsw_loop fuel' s
  end.

Definition rep_movsw (s : machine) : outcome :=
  rep_movsw_loop (Z.to_nat (cpu_cx (cpu s))) s.

(** Lines 122-140: load the descriptor tables, enter protected mode and
    load %ds and %es with the source and destination selectors. *)
Definition handle_1587_enter (count si : Z) (s : machine) : outcome :=
  (* "+c"(count), "+S"(si) *)
  let s := set_cpu (with_si si (with_cx count (cpu s))) s in
  (* Load new descriptor tables *)
  s <- lgdtw_es_si s ;;
  s <- lidtw pmode_IDT_info s ;;
  (* Enable protected mode *)
  let s := enable_protected_mode s in
  (* far jump to flush CPU queue after transition to protected mode *)
  s <- ljmpw (Z.shiftl 4 3) s ;;
  (* GDT points to valid descriptor table, now load DS, ES *)
  let s := movw_ax (Z.shiftl 2 3) s in
  s <- movw_ax_ds s ;;
  let s := movw_ax (Z.shiftl 3 3) s in
  movw_ax_es s.

(** Lines 142-145: move CX words from DS:SI to ES:DI. *)
Definition handle_1587_copy (s : machine) : outcome :=
  let s := xorw_si_si s in
  let s := xorw_di_di s in
  rep_movsw s.

(** Lines 147-161: leave protected mode and restore the real-mode state. *)
Definition handle_1587_leave (s : machine) : outcome :=
  (* Disable protected mode *)
  let s := disable_protected_mode s in
  (* far jump to flush CPU queue after transition to real mode *)
  s <- ljmpw SEG_BIOS s ;;
  (* restore IDT to normal real-mode defaults *)
  s <- lidtw rmode_IDT_info s ;;
  (* Restore %ds (from %ss) *)
  let s := movw_ax (selector (seg_ss (cpu s))) s in
  movw_ax_ds s.

Definition handle_1587 (s : machine) : outcome :=
  let (s, prev_a20_enable) := set_a20 1 s in (* enable A20 line *)
  s <- handle_1587_setup s ;;
  s <- handle_1587_enter (cx (regs s)) (si (regs s)) s ;;
  s <- handle_1587_copy s ;;
  s <- handle_1587_leave s ;;
  let (s, _) := set_a20 prev_a20_enable s in
  Returned (set_code_success s).

(** ** Extended memory size: [handle_1588] and [handle_15e801] *)

(** Get the amount of extended memory (above 1M). *)
Definition handle_1588 (s : machine) : machine :=
  let rs := u32 (RamSize s) in
  (* According to Ralf Brown's interrupt the limit should be 15M,
     but real machines mostly return max. 63M. *)
  let s :=
    if rs >? 64 * 1024 * 1024
    then set_regs (set_ax (63 * 1024) (regs s)) s
    else set_regs (set_ax (u32 (rs - 1 * 1024 * 1024) / 1024) (regs s)) s in
  set_success s.

Definition handle_15e801 (s : machine) : machine :=
  let rs := u32 (RamSize s) in
  (* Get the amount of extended memory (above 1M) *)
  let s :=
    if rs >? 16 * 1024 * 1024 then
      (* limit to 15M *)
      let s := set_regs (set_cx (15 * 1024) (regs s)) s in
      (* Get the amount of extended memory above 16M in 64k blocks *)
      set_regs (set_dx (u32 (rs - 16 * 1024 * 1024) / (64 * 1024)) (regs s)) s
    else
      let s := set_regs (set_cx (u32 (rs - 1 * 1024 * 1024) / 1024) (regs s)) s in
      set_regs (set_dx 0 (regs s)) s in
  (* Set configured memory equal to extended memory *)
  let s := set_regs (set_ax (cx (regs s)) (regs s)) s in
  let s := set_regs (set_bx (dx (regs s)) (regs s)) s in
  set_success s.

(** ** Memory map: [handle_15e820] *)

(** Modelled from the spec: [memcpy_far] (util.h) is not part of the
    sources; it is the "memory-copy primitive across segment boundaries".
    It stores the bytes of the source, in order, at d_seg:d_far, the offset
    being a 16-bit register. *)
Fixpoint memcpy_far (d_seg d_far : Z) (bytes : list Z) (s : machine)
  : machine :=
  match bytes with
  | [] => s
  | b :: bytes' =>
      memcpy_far d_seg (d_far + 1) bytes'
                 (store 1 (u32 (MAKE_FLATPTR d_seg (u16 d_far))) b s)
  end.

(** The result is [None] when the C code would read outside the array
    [e820_list], which C leaves undefined. *)
Definition handle_15e820 (s : machine) : option machine :=
  let count := e820_count s in
  if negb (u32 (edx (regs s)) =? 0x534D4150)
     || (bx (regs s) >=? count)
     || (u32 (ecx (regs s)) <? sizeof_e820entry)
  then Some (set_code_fail RET_EUNSUPPORTED s)
  else
    match nth_error (e820_list s) (Z.to_nat (bx (regs s))) with
    | None => None
    | Some entry =>
        let s := memcpy_far (u16 (es (regs s))) (di (regs s) + 0)
                            (e820_bytes entry) s in
        let s :=
          if bx (regs s) =? count - 1
          then set_regs (set_ebx 0 (regs s)) s
          else set_regs (set_ebx (ebx (regs s) + 1) (regs s)) s in
        let s := set_regs (set_eax 0x534D4150 (regs s)) s in
        let s := set_regs (set_ecx sizeof_e820entry (regs s)) s in
        Some (set_success s)
    end.

(** ** A20 services: [handle_1524] *)

Definition handle_152400 (s : machine) : machine :=
  let (s, _) := set_a20 0 s in
  set_code_success s.

Definition handle_152401 (s : machine) : machine :=
  let (s, _) := set_a20 1 s in
  set_code_success s.

Definition handle_152402 (s : machine) : machine :=
  let s :=
    set_regs (set_al (Z.b2z (negb (Z.land (inb PORT_A20 s) A20_ENABLE_BIT =? 0)))
                     (regs s)) s in
  set_code_success s.

Definition handle_152403 (s : machine) : machine :=
  let s := set_regs (set_bx 3 (regs s)) s in
  set_code_success s.

Definition handle_1524XX (s : machine) : machine :=
  set_code_fail RET_EUNSUPPORTED s.

Definition handle_1524 (s : machine) : machine :=
  match al (regs s) with
  | 0x00 => handle_152400 s
  | 0x01 => handle_152401 s
  | 0x02 => handle_152402 s
  | 0x03 => handle_152403 s
  | _ => handle_1524XX s
  end.

(** ** The small handlers *)









End Handlers.

(** ** The entry point: [handle_15]

    The handlers of other files ([handle_1553], [handle_155f],
    [handle_1583], [handle_1586], [handle_15c2]), the address of
    [BIOS_CONFIG_TABLE] and [get_ebda_seg] are not part of the sources;
    the entry point is parametric in them. *)

Section EntryPoint.

Context {P : Platform}.

Variable BIOS_CONFIG_TABLE : Z.
Variable get_ebda_seg : machine -> Z.
Variables handle_1553 handle_155f handle_1583 handle_1586 handle_15c2
  : machine -> machine.




End EntryPoint.

(** ** PIIX3/PIIX4 PCI to ISA bridge (src/dev-i440fx.c) *)

(** A write to PCI configuration space: device, register, width in bytes,
    value.  Modelled from the spec: the accessors of pci.h are not part of
    the sources; they are "simple register pokes", kept here in a log. *)
Record pci_write : Type := mkPciWrite {
  pci_bdf : Z;
  pci_reg : Z;
  pci_width : nat;
  pci_val : Z
}.

Definition pci_config_writeb (bdf addr val : Z) (log : list pci_write)
  : list pci_write :=
  log ++ [mkPciWrite (u16 bdf) addr 1 (u8 val)].

Section Piix.

(** [pci_irqs] is a table of another file (pciinit.c), of four [u8]. *)
Variable pci_irqs : Z -> Z.

(** [elcr[irq >> 3] |= (1 << (irq & 7))] on the two-element array [elcr];
    [None] when the index is outside the array. *)
Definition elcr_or (elcr : Z * Z) (irq : Z) : option (Z * Z) :=
  match Z.shiftr irq 3 with
  | 0 => Some (u8 (Z.lor (fst elcr) (Z.shiftl 1 (Z.land irq 7))), snd elcr)
  | 1 => Some (fst elcr, u8 (Z.lor (snd elcr) (Z.shiftl 1 (Z.land irq 7))))
  | _ => None
  end.

(** The body of the loop [for (i = 0; i < 4; i++)], [n] iterations from
    index [i].  The [dprintf] after the loop only logs and is left out. *)
Fixpoint piix_isa_bridge_loop (n : nat) (i : Z) (bdf : Z) (elcr : Z * Z)
  (log : list pci_write) : option ((Z * Z) * list pci_write) :=
  match n with
  | O => Some (elcr, log)
  | S n' =>
      let irq := u8 (pci_irqs i) in
      (* set to trigger level *)
      match elcr_or elcr irq with
      | None => None
      | Some elcr =>
          (* activate irq remapping in PIIX *)
          let log := pci_config_writeb bdf (0x60 + i) irq log in
          piix_isa_bridge_loop n' (i + 1) bdf elcr log
      end
  end.

Definition piix_isa_bridge_init (bdf : Z) (s : machine)
  (log : list pci_write) : option (machine * list pci_write) :=
  let elcr := (0x00, 0x00) in
  match piix_isa_bridge_loop 4 0 bdf elcr log with
  | None => None
  | Some (elcr, log) =>
      let s := outb (fst elcr) 0x4d0 s in
      let s := outb (snd elcr) 0x4d1 s in
      Some (s, log)
  end.

End Piix.

(** ** Reference definitions

    The copy as the specification words it: [n] words, word by word, the
    k-th from offset [off k] of the source region to offset [off k] of the
    destination region.  With [ascending_offset] the offsets are 0, 2, 4,
    ...; [wrapped_offset] keeps them in the 16 bits of %si and %di. *)

Fixpoint copy_words (off : Z -> Z) (n : nat) (sbase dbase k : Z)
  (s : machine) : machine :=
  match n with
  | O => s
  | S n' =>
      copy_words off n' sbase dbase (k + 1)
        (store 2 (lin dbase (off k)) (load 2 (lin sbase (off k)) s) s)
  end.

Definition ascending_offset (k : Z) : Z := 2 * k.

Definition wrapped_offset (k : Z) : Z := u16 (2 * k).

(** The stores [s'] has logged after those of [s]. *)
Definition new_writes (s s' : machine) : list write :=
  skipn (length (writes s)) (writes s').

(** Between [s] and [t] no port is written, and the log of stores has
    only grown. *)
Definition same_ports (s t : machine) : Prop :=
  io t = io s /\ outs t = outs s /\ exists l, writes t = writes s ++ l.

(** What the block move relies on in the macros of util.h: the
    protection-enable bit is a bit of the 32-bit %cr0; the descriptor the
    BIOS builds for the table reads, as [lgdtw] reads it, as a limit of 47
    and the address of the table; the descriptor it builds for its code
    is one the far jump accepts, of a segment that can be read. *)
Definition descriptor_macros_ok {P : Platform} : Prop :=
  0 < CR0_PE < 2 ^ 32
  /\ (forall loc, 0 <= loc < 2 ^ 24 ->
        let d := Z.lor (Z.lor GDT_DATA (GDT_LIMIT (6 * 8 - 1)))
                       (GDT_BASE loc) in
        d mod 2 ^ 16 = 6 * 8 - 1 /\ Z.shiftr d 16 mod 2 ^ 24 = loc)
  /\ (let d := u64 (Z.lor (Z.lor GDT_CODE (GDT_LIMIT 0x0ffff))
                            (GDT_BASE 0xf0000)) in
      code_descriptor_ok (Z.shiftl 4 3) d = true /\ Z.testbit d 41 = true).

(** The address of the descriptor table of a block move, and the source
    and destination descriptors the caller put at its offsets 0x10 and
    0x18. *)
Definition table_address (s : machine) : Z :=
  MAKE_FLATPTR (u16 (es (regs s))) (si (regs s)).

Definition source_of (s : machine) : Z := load 8 (table_address s + 0x10) s.

Definition destination_of (s : machine) : Z :=
  load 8 (table_address s + 0x18) s.


(** The words of a copy of [n] words, from the k-th on, are all inside
    the limits of the source segment [rs], which can be read, and of the
    destination segment [rd], which can be written. *)
Fixpoint copy_in_limits (n : nat) (k : Z) (rs rd : segreg) : bool :=
  match n with
  | O => true
  | S n' =>
      seg_read_ok rs (wrapped_offset k) 2
      && seg_write_ok rd (wrapped_offset k) 2
      && copy_in_limits n' (k + 1) rs rd
  end.

(** Two CPU states that differ in %eax, %cx, %si and %di at most. *)
Definition same_segments (c c' : cpu_state) : Prop :=
  cr0 c' = cr0 c /\ gdtr_limit c' = gdtr_limit c
  /\ gdtr_base c' = gdtr_base c /\ idtr c' = idtr c
  /\ seg_cs c' = seg_cs c /\ seg_ds c' = seg_ds c
  /\ seg_es c' = seg_es c /\ seg_ss c' = seg_ss c /\ df c' = df c.

(** What the CPU checks in the course of a block move called in real
    mode: the three stores into the table and the read of [lgdtw] against
    the limit %es has kept, the read of the interrupt table images through
    %cs, the source and destination descriptors when %ds and %es are
    loaded, and every word of the copy against the limits of the two. *)
Definition block_move_ok (s : machine) : bool :=
  let far := si (regs s) in
  let r := load_segment_real (u16 (es (regs s))) (seg_es (cpu s)) in
  seg_write_ok r (far + 8 * 1) 8
  && seg_write_ok r (far + 8 * 4) 8
  && seg_write_ok r (far + 8 * 5) 8
  && seg_read_ok r (far + 8) 6
  && seg_readable (seg_cs (cpu s))
  && data_descriptor_ok (Z.shiftl 2 3) (source_of s)
  && data_descriptor_ok (Z.shiftl 3 3) (destination_of s)
  && copy_in_limits (Z.to_nat (cx (regs s))) 0
       (cached (Z.shiftl 2 3) (source_of s))
       (cached (Z.shiftl 3 3) (destination_of s)).



(** The hidden part of a data segment register as real mode has it: 64 KiB
    of present, writable data. *)
Definition real_mode_data (r : segreg) : bool :=
  (seg_limit r =? 0xffff) && seg_writable r && negb (seg_expand_down r).

(** The last [n] stores [s] has logged. *)
Definition last_writes (n : nat) (s : machine) : list write :=
  skipn (length (writes s) - n) (writes s).

(** The e820 globals are well formed when the count of valid entries does
    not exceed the [CONFIG_MAX_E820] elements of the array. *)
Definition e820_wf {P : Platform} (s : machine) : Prop :=
  Z.of_nat (length (e820_list s)) = CONFIG_MAX_E820
  /\ 0 <= e820_count s <= CONFIG_MAX_E820.

(** The address of byte [i] of the buffer at seg:off. *)
Definition far_byte (seg off i : Z) : Z :=
  u32 (MAKE_FLATPTR seg (u16 (off + i))).

(** [n] calls of [handle_15e820] in a row, each on the registers the
    previous one returned, as a caller walking the map makes them. *)
Fixpoint e820_calls {P : Platform} (n : nat) (s : machine) : option machine :=
  match n with
  | O => Some s
  | S n' =>
      match e820_calls n' s with
      | Some t => handle_15e820 t
      | None => None
      end
  end.

(** ** Example states

    Concrete machines on the SeaBIOS platform, in real mode with the
    direction flag clear and segments of 64 KiB, used to instantiate the
    theorems below. *)

Definition example_regs : bregs := mkBregs 0 0 0 0 0 0 0 0 0.

Definition example_cpu : cpu_state :=
  mkCpu 0x10 0 0 rmode_IDT_info
        (mkSeg 0xf000 0xf0000 0xffff 0x9b) (mkSeg 0x40 0x400 0xffff 0x93)
        (mkSeg 0 0 0xffff 0x93) (mkSeg 0x30 0x300 0xffff 0x93)
        0 0 0 0 false.

Definition example_machine : machine :=
  mkMachine (fun _ => 0) (fun _ => 0) [] example_regs example_cpu
            (128 * 1024 * 1024) [] 0 [].

(** Port 0x92 holds [v]. *)
Definition gate_example (v : Z) : machine :=
  set_io (fun p => if p =? 0x92 then v else 0) example_machine.

(** [RamSize] is [r]. *)
Definition ram_example (r : Z) : machine :=
  mkMachine (fun _ => 0) (fun _ => 0) [] example_regs example_cpu r [] 0 [].

(** A block move of [count] words.  The descriptor table is at 0000:0500,
    its source descriptor is [src] and its destination descriptor [dst];
    the eight bytes at 0x100000 are 0xa0 .. 0xa7. *)
Definition block_move_memory (src dst : Z) : Z -> Z :=
  fun a =>
    if (0x510 <=? a) && (a <? 0x518)
    then nth (Z.to_nat (a - 0x510)) (le_bytes 8 src) 0
    else if (0x518 <=? a) && (a <? 0x520)
    then nth (Z.to_nat (a - 0x518)) (le_bytes 8 dst) 0
    else if (0x100000 <=? a) && (a <? 0x100008) then a - 0x100000 + 0xa0
    else 0.

Definition block_move_request (src dst count : Z) : machine :=
  mkMachine (fun _ => 0) (block_move_memory src dst) []
            (mkBregs 0x8700 0 count 0 0x500 0 0 0 0)
            example_cpu (128 * 1024 * 1024) [] 0 [].

(** Present, writable data segments of 64 KiB (access byte 0x93, limit
    0xffff) at 0x100000 and at 0x110000. *)
Definition source_descriptor : Z := 0x00009310_0000ffff.
Definition destination_descriptor : Z := 0x00009311_0000ffff.

Definition block_move_example (count : Z) : machine :=
  block_move_request source_descriptor destination_descriptor count.

(** The same request with the access byte of the source left at zero: the
    descriptor is not present. *)
Definition absent_source_example (count : Z) : machine :=
  block_move_request 0x00000010_0000ffff destination_descriptor count.

(** A map of two entries in an array of 32, queried with cursor [cursor]
    and entry size [size], the buffer being at 0000:7000. *)
Definition e820_example_list : list e820entry :=
  [mkE820 0 0x9fc00 1; mkE820 0x100000 0x7f00000 1]
  ++ repeat (mkE820 0 0 0) 30.

Definition e820_example (signature cursor size : Z) : machine :=
  mkMachine (fun _ => 0) (fun _ => 0) []
            (mkBregs 0xe820 cursor size signature 0 0x7000 0 0 0)
            example_cpu (128 * 1024 * 1024) e820_example_list 2 [].

(** The interrupt routing table of SeaBIOS (pciinit.c). *)
Definition example_pci_irqs (i : Z) : Z :=
  nth (Z.to_nat i) [10; 10; 11; 11] 0.

(** * Properties *)

(** ** Bytes and single-bit masks *)

Lemma u8_range x : 0 <= u8 x < 256.
Proof. unfold u8. change (2 ^ 8) with 256. apply Z.mod_pos_bound. lia. Qed.

Lemma u8_idem x : u8 (u8 x) = u8 x.
Proof. unfold u8. apply Z.mod_mod. discriminate. Qed.

Lemma u8_small x : 0 <= x < 256 -> u8 x = x.
Proof. intros H. unfold u8. apply Z.mod_small. exact H. Qed.

Lemma u8_testbit x j :
  Z.testbit (u8 x) j = (j <? 8) && Z.testbit x j.
Proof.
  unfold u8. destruct (Z.ltb_spec j 8) as [Hlt | Hge]; cbn [andb].
  - apply Z.mod_pow2_bits_low. exact Hlt.
  - apply Z.mod_pow2_bits_high. lia.
Qed.

Lemma bit_mask_testbit i j : 0 <= i -> Z.testbit (2 ^ i) j = (i =? j).
Proof. intros Hi. apply Z.pow2_bits_eqb. exact Hi. Qed.

Lemma land_bit_nonzero x i :
  0 <= i -> negb (Z.land x (2 ^ i) =? 0) = Z.testbit x i.
Proof.
  intros Hi. 
  destruct (Z.testbit x i) eqn:Hb.
  - apply negb_true_iff, Z.eqb_neq. intros Hz.
    assert (Ht : Z.testbit (Z.land x (2 ^ i)) i = true).
    { rewrite Z.land_spec, Hb, bit_mask_testbit, Z.eqb_refl by exact Hi. reflexivity. }
    rewrite Hz, Z.bits_0 in Ht. discriminate.
  - apply negb_false_iff, Z.eqb_eq. apply Z.bits_inj'. intros n Hn.
    rewrite Z.land_spec, Z.bits_0, bit_mask_testbit by exact Hi.
    destruct (Z.eqb_spec i n) as [-> | _].
    + rewrite Hb. reflexivity.
    + apply andb_false_r.
Qed.

Lemma set_bit_testbit x i j :
  0 <= i < 8 ->
  Z.testbit (u8 (Z.lor (u8 x) (2 ^ i))) j
  = if j =? i then true else Z.testbit (u8 x) j.
Proof.
  intros Hi. rewrite !u8_testbit, Z.lor_spec, u8_testbit, bit_mask_testbit by lia.
  rewrite (Z.eqb_sym i j).
  destruct (Z.eqb_spec j i) as [-> | Hne].
  - destruct (Z.ltb_spec i 8); [|lia]. simpl. apply orb_true_r.
  - rewrite orb_false_r. destruct (j <? 8); reflexivity.
Qed.

Lemma clear_bit_testbit x i j :
  0 <= i < 8 ->
  Z.testbit (u8 (Z.land (u8 x) (Z.lnot (2 ^ i)))) j
  = if j =? i then false else Z.testbit (u8 x) j.
Proof.
  intros Hi. destruct (Z.ltb_spec j 0) as [Hneg | Hpos].
  - rewrite !(Z.testbit_neg_r _ j) by exact Hneg.
    destruct (j =? i); reflexivity.
  - rewrite !u8_testbit, Z.land_spec, u8_testbit, Z.lnot_spec, bit_mask_testbit by lia.
    rewrite (Z.eqb_sym i j).
    destruct (Z.eqb_spec j i) as [-> | Hne]; simpl.
    + rewrite andb_false_r. apply andb_false_r.
    + rewrite andb_true_r. destruct (j <? 8); reflexivity.
Qed.

(** ** The A20 gate *)

Section Gate.

Context {P : Platform}.

(** The value [set_a20] leaves in the port. *)
Lemma set_a20_port cond s :
  inb PORT_A20 (fst (set_a20 cond s))
  = if negb (cond =? 0)
    then u8 (Z.lor (inb PORT_A20 s) A20_ENABLE_BIT)
    else u8 (Z.land (inb PORT_A20 s) (Z.lnot A20_ENABLE_BIT)).
Proof.
  unfold set_a20, inb, outb; cbn [fst io set_io set_outs].
  rewrite Z.eqb_refl, u8_idem.
  destruct (negb (cond =? 0)); apply u8_idem.
Qed.

(** The port holds a byte after the call. *)
Lemma set_a20_written cond s :
  io (fst (set_a20 cond s)) PORT_A20 = inb PORT_A20 (fst (set_a20 cond s)).
Proof.
  unfold inb, set_a20, outb; cbn [fst io set_io set_outs].
  rewrite Z.eqb_refl, u8_idem. reflexivity.
Qed.

Lemma set_a20_other_ports cond s p :
  p <> PORT_A20 -> io (fst (set_a20 cond s)) p = io s p.
Proof.
  intros Hp. unfold set_a20, outb; cbn [fst io set_io set_outs].
  destruct (Z.eqb_spec p PORT_A20); [contradiction | reflexivity].
Qed.

Lemma set_a20_frame cond s :
  let s' := fst (set_a20 cond s) in
  mem s' = mem s /\ writes s' = writes s /\ regs s' = regs s
  /\ cpu s' = cpu s /\ RamSize s' = RamSize s
  /\ e820_list s' = e820_list s /\ e820_count s' = e820_count s.
Proof. cbv zeta. unfold set_a20, outb, set_io, set_outs; cbn. repeat split. Qed.

Lemma set_a20_result cond s i :
  0 <= i -> A20_ENABLE_BIT = 2 ^ i ->
  snd (set_a20 cond s) = Z.b2z (Z.testbit (inb PORT_A20 s) i).
Proof.
  intros Hi Hm. unfold set_a20; cbn [snd]. rewrite Hm, land_bit_nonzero by exact Hi.
  reflexivity.
Qed.

Lemma set_a20_bits cond s i j :
  0 <= i < 8 -> A20_ENABLE_BIT = 2 ^ i ->
  Z.testbit (inb PORT_A20 (fst (set_a20 cond s))) j
  = if j =? i then negb (cond =? 0) else Z.testbit (inb PORT_A20 s) j.
Proof.
  intros Hi Hm. rewrite set_a20_port, Hm. unfold inb.
  destruct (negb (cond =? 0)).
  - rewrite set_bit_testbit by exact Hi. reflexivity.
  - rewrite clear_bit_testbit by exact Hi. reflexivity.
Qed.

(** Two bytes with the same bits are equal. *)
Lemma inb_ext s1 s2 p q :
  (forall j, Z.testbit (inb p s1) j = Z.testbit (inb q s2) j) ->
  inb p s1 = inb q s2.
Proof. intros H. apply Z.bits_inj. exact H. Qed.

(** C8: [set_a20] writes back the old port value with only the A20 bit set
    (flag non-zero) or cleared (flag zero), every other bit and every other
    port being preserved, returns 1 exactly when the A20 bit was set
    before, and a second call with the same flag leaves the port as the
    first call left it. *)
Theorem set_a20_spec (s : machine) (cond i : Z) :
  0 <= i < 8 ->
  A20_ENABLE_BIT = 2 ^ i ->
  let s' := fst (set_a20 cond s) in
  Z.testbit (inb PORT_A20 s') i = negb (cond =? 0)
  /\ (forall j, j <> i ->
        Z.testbit (inb PORT_A20 s') j = Z.testbit (inb PORT_A20 s) j)
  /\ io s' PORT_A20 = inb PORT_A20 s'
  /\ (forall p, p <> PORT_A20 -> io s' p = io s p)
  /\ snd (set_a20 cond s) = Z.b2z (Z.testbit (inb PORT_A20 s) i)
  /\ (snd (set_a20 cond s) = 1 <-> Z.testbit (inb PORT_A20 s) i = true)
  /\ (forall p, io (fst (set_a20 cond s')) p = io s' p).
Proof.
  intros Hi Hm s'. subst s'.
  split; [|split; [|split; [|split; [|split; [|split]]]]].
  - rewrite set_a20_bits with (i := i) by assumption.
    rewrite Z.eqb_refl. reflexivity.
  - intros j Hj. rewrite set_a20_bits with (i := i) by assumption.
    destruct (Z.eqb_spec j i); [contradiction | reflexivity].
  - apply set_a20_written.
  - intros p Hp. apply set_a20_other_ports. exact Hp.
  - apply set_a20_result; [lia | exact Hm].
  - rewrite set_a20_result with (i := i) by (lia || exact Hm).
    destruct (Z.testbit (inb PORT_A20 s) i); cbn; split; intros H;
      (reflexivity || discriminate).
  - intros p. destruct (Z.eq_dec p PORT_A20) as [-> | Hp].
    + assert (Hsame : inb PORT_A20 (fst (set_a20 cond (fst (set_a20 cond s))))
                      = inb PORT_A20 (fst (set_a20 cond s))).
      { apply inb_ext. intros j.
        rewrite !set_a20_bits with (i := i) by assumption.
        destruct (j =? i); reflexivity. }
      rewrite !set_a20_written. exact Hsame.
    + apply set_a20_other_ports. exact Hp.
Qed.


(** C9: after [set_a20 1] followed by [set_a20 0] the A20 bit is clear and
    every other bit of the port is as it was, so the original bit is
    restored exactly when it was clear before the first call; the second
    call reports 1, the bit having been set by the first. *)
Theorem set_a20_enable_disable (s : machine) (i : Z) :
  0 <= i < 8 ->
  A20_ENABLE_BIT = 2 ^ i ->
  let s1 := fst (set_a20 1 s) in
  let s2 := fst (set_a20 0 s1) in
  snd (set_a20 0 s1) = 1
  /\ Z.testbit (inb PORT_A20 s2) i = false
  /\ (forall j, j <> i ->
        Z.testbit (inb PORT_A20 s2) j = Z.testbit (inb PORT_A20 s) j)
  /\ (inb PORT_A20 s2 = inb PORT_A20 s
      <-> Z.testbit (inb PORT_A20 s) i = false).
Proof.
  intros Hi Hm s1 s2. subst s1 s2.
  assert (Hbits : forall j,
    Z.testbit (inb PORT_A20 (fst (set_a20 0 (fst (set_a20 1 s))))) j
    = if j =? i then false else Z.testbit (inb PORT_A20 s) j).
  { intros j. rewrite !set_a20_bits with (i := i) by assumption.
    destruct (j =? i); reflexivity. }
  split; [|split; [|split]].
  - rewrite set_a20_result with (i := i) by (lia || exact Hm).
    rewrite set_a20_bits with (i := i) by assumption.
    rewrite Z.eqb_refl. reflexivity.
  - rewrite Hbits, Z.eqb_refl. reflexivity.
  - intros j Hj. rewrite Hbits.
    destruct (Z.eqb_spec j i); [contradiction | reflexivity].
  - split.
    + intros Heq. rewrite <- Heq, Hbits, Z.eqb_refl. reflexivity.
    + intros Hclear. apply inb_ext. intros j. rewrite Hbits.
      destruct (Z.eqb_spec j i) as [-> | _];
        [symmetry; exact Hclear | reflexivity].
Qed.

Lemma set_code_success_io s : io (set_code_success s) = io s.
Proof. reflexivity. Qed.

Lemma inb_io s t p : io s = io t -> inb p s = inb p t.
Proof. intros H. unfold inb. rewrite H. reflexivity. Qed.

End Gate.

(** ** Registers, stores and the reference copy *)

Section Registers.

Context {P : Platform}.

Lemma set_cpu_set_cpu c c' s : set_cpu c (set_cpu c' s) = set_cpu c s.
Proof. reflexivity. Qed.

Lemma set_cpu_cpu s : set_cpu (cpu s) s = s.
Proof. destruct s; reflexivity. Qed.

Lemma store_set_cpu n a v c s :
  store n a v (set_cpu c s) = set_cpu c (store n a v s).
Proof. reflexivity. Qed.

Lemma load_set_cpu n a c s : load n a (set_cpu c s) = load n a s.
Proof. reflexivity. Qed.

Lemma copy_words_set_cpu off n sbase dbase k c s :
  copy_words off n sbase dbase k (set_cpu c s)
  = set_cpu c (copy_words off n sbase dbase k s).
Proof.
  revert k s. induction n as [| n IH]; intros k s; cbn [copy_words].
  - reflexivity.
  - rewrite load_set_cpu, store_set_cpu. apply IH.
Qed.

(** Only the offsets of the words actually moved matter. *)
Lemma copy_words_ext off1 off2 n sbase dbase k s :
  (forall j, k <= j < k + Z.of_nat n -> off1 j = off2 j) ->
  copy_words off1 n sbase dbase k s = copy_words off2 n sbase dbase k s.
Proof.
  revert k s. induction n as [| n IH]; intros k s Hoff; cbn [copy_words].
  - reflexivity.
  - rewrite (Hoff k) by lia. apply IH. intros j Hj. apply Hoff. lia.
Qed.

(** The log of a copy: one two-byte store per word, in the order of the
    words. *)
Lemma copy_words_writes off n sbase dbase k s :
  exists l,
    writes (copy_words off n sbase dbase k s) = writes s ++ l
    /\ map wr_addr l
       = map (fun j => lin dbase (off (k + Z.of_nat j))) (seq 0 n)
    /\ Forall (fun w => wr_width w = 2%nat) l.
Proof.
  revert k s. induction n as [| n IH]; intros k s; cbn [copy_words].
  - exists []. rewrite app_nil_r. repeat split. constructor.
  - destruct (IH (k + 1) (store 2 (lin dbase (off k))
                                (load 2 (lin sbase (off k)) s) s))
      as (l & Hw & Ha & Hf).
    eexists (_ :: l). split; [| split].
    + rewrite Hw. unfold store at 1. cbn [writes set_mem].
      rewrite <- app_assoc. reflexivity.
    + cbn [map seq wr_addr]. rewrite Z.add_0_r. f_equal.
      rewrite Ha, <- seq_shift, map_map. apply map_ext. intros j.
      do 2 f_equal. lia.
    + constructor; [reflexivity | exact Hf].
Qed.

Lemma skipn_length_app {A} (l1 l2 : list A) :
  skipn (length l1) (l1 ++ l2) = l2.
Proof. induction l1 as [| x l1 IH]; [reflexivity | exact IH]. Qed.

Lemma u16_step k : u16 (u16 (2 * k) + 2) = u16 (2 * (k + 1)).
Proof.
  unfold u16. rewrite Z.add_mod_idemp_l by discriminate.
  f_equal. lia.
Qed.

Lemma u16_idem x : u16 (u16 x) = u16 x.
Proof. unfold u16. apply Z.mod_mod. discriminate. Qed.

Lemma u16_range x : 0 <= u16 x < 2 ^ 16.
Proof. unfold u16. apply Z.mod_pos_bound. reflexivity. Qed.

Lemma set_code_success_mem s : mem (set_code_success s) = mem s.
Proof. reflexivity. Qed.

Lemma set_a20_mem cond s : mem (fst (set_a20 cond s)) = mem s.
Proof. reflexivity. Qed.

Lemma carry_set_cf b r : carry (set_cf b r) = b.
Proof.
  unfold carry, set_cf, F_CF. destruct b; cbn [flags set_flags].
  - rewrite Z.lor_spec. apply orb_true_r.
  - rewrite Z.land_spec. apply andb_false_r.
Qed.

Lemma testbit_mod_pow2 x k n :
  0 <= k -> Z.testbit (x mod 2 ^ k) n = (n <? k) && Z.testbit x n.
Proof.
  intros Hk. destruct (Z.ltb_spec n k) as [Hlt | Hge]; cbn [andb].
  - apply Z.mod_pow2_bits_low. exact Hlt.
  - apply Z.mod_pow2_bits_high. lia.
Qed.

(** The low [w] bits of a 32-bit register after its low part is written. *)
Lemma low_set_low w old v :
  0 <= w <= 32 -> u32 (set_low w old v) mod 2 ^ w = v mod 2 ^ w.
Proof.
  intros Hw. unfold u32, set_low. apply Z.bits_inj'. intros n Hn.
  rewrite !testbit_mod_pow2 by lia.
  destruct (Z.ltb_spec n w) as [Hlt | Hge]; cbn [andb]; [| reflexivity].
  destruct (Z.ltb_spec n 32) as [_ | Hge]; [| lia]. cbn [andb].
  rewrite Z.lor_spec, Z.shiftl_spec, testbit_mod_pow2 by lia.
  rewrite (Z.testbit_neg_r _ (n - w)) by lia.
  destruct (Z.ltb_spec n w); [reflexivity | lia].
Qed.

Lemma ax_set_ax v r : ax (set_ax v r) = u16 v.
Proof. apply (low_set_low 16). lia. Qed.

Lemma bx_set_bx v r : bx (set_bx v r) = u16 v.
Proof. apply (low_set_low 16). lia. Qed.

Lemma cx_set_cx v r : cx (set_cx v r) = u16 v.
Proof. apply (low_set_low 16). lia. Qed.

Lemma dx_set_dx v r : dx (set_dx v r) = u16 v.
Proof. apply (low_set_low 16). lia. Qed.

Lemma ah_set_ah v r : ah (set_ah v r) = u8 v.
Proof.
  unfold ah, set_ah, set_eax; cbn [eax]. unfold u32, u8.
  apply Z.bits_inj'. intros n Hn.
  rewrite !testbit_mod_pow2 by lia.
  destruct (Z.ltb_spec n 8) as [Hlt | Hge]; cbn [andb]; [| reflexivity].
  rewrite Z.shiftr_spec, testbit_mod_pow2 by lia.
  destruct (Z.ltb_spec (n + 8) 32) as [_ | Hge]; [| lia]. cbn [andb].
  rewrite !Z.lor_spec, !Z.shiftl_spec, !testbit_mod_pow2 by lia.
  rewrite (Z.testbit_neg_r _ (n + 8 - 16)) by lia.
  replace (n + 8 - 8) with n by lia.
  destruct (Z.ltb_spec n 8) as [_ | Hge]; [| lia].
  destruct (Z.ltb_spec (n + 8) 8) as [Hlt' | _]; [lia |].
  cbn [andb orb]. apply orb_false_r.
Qed.

Lemma nth_map_seq {A} (f : nat -> A) n j d :
  (j < n)%nat -> nth j (map f (seq 0 n)) d = f j.
Proof.
  intros Hj. rewrite nth_indep with (d' := f 0%nat)
    by (rewrite length_map, length_seq; exact Hj).
  rewrite map_nth, seq_nth by exact Hj. reflexivity.
Qed.

End Registers.

(** ** Extended memory size *)

Section Sizes.

Context {P : Platform}.

Lemma u32_small x : 0 <= x < 2 ^ 32 -> u32 x = x.
Proof. intros H. unfold u32. apply Z.mod_small. exact H. Qed.

Lemma u16_small x : 0 <= x < 2 ^ 16 -> u16 x = x.
Proof. intros H. unfold u16. apply Z.mod_small. exact H. Qed.

(** What [handle_1588] returns, in C's arithmetic: the subtraction is
    32-bit, the quotient is cut to the 16 bits of %ax. *)
Lemma handle_1588_ax s :
  ax (regs (handle_1588 s))
  = (if u32 (RamSize s) >? 64 * 1024 * 1024
     then u16 (63 * 1024)
     else u16 (u32 (u32 (RamSize s) - 1 * 1024 * 1024) / 1024))
  /\ carry (regs (handle_1588 s)) = false.
Proof.
  unfold handle_1588. cbv zeta.
  destruct (u32 (RamSize s) >? 64 * 1024 * 1024);
    unfold set_success; cbn [regs set_regs]; unfold regs_success;
    (split; [| apply carry_set_cf]).
  - generalize (regs s). intros r.
    transitivity (ax (set_ax (63 * 1024) r)); [reflexivity | apply ax_set_ax].
  - generalize (regs s). intros r. generalize (u32 (RamSize s)). intros rs.
    transitivity (ax (set_ax (u32 (rs - 1 * 1024 * 1024) / 1024) r));
      [reflexivity | apply ax_set_ax].
Qed.

(** The same for the four results of [handle_15e801]. *)
Lemma handle_15e801_regs s :
  let r := regs (handle_15e801 s) in
  cx r = (if u32 (RamSize s) >? 16 * 1024 * 1024
          then u16 (15 * 1024)
          else u16 (u32 (u32 (RamSize s) - 1 * 1024 * 1024) / 1024))
  /\ dx r = (if u32 (RamSize s) >? 16 * 1024 * 1024
             then u16 (u32 (u32 (RamSize s) - 16 * 1024 * 1024) / (64 * 1024))
             else 0)
  /\ ax r = cx r
  /\ bx r = dx r
  /\ carry r = false.
Proof.
  cbv zeta. unfold handle_15e801. cbv zeta.
  generalize (u32 (RamSize s)). intros rs.
  assert (Hgen : forall c d r0,
    let r1 := set_dx d (set_cx c r0) in
    let r := regs_success (set_bx (dx (set_ax (cx r1) r1)) (set_ax (cx r1) r1)) in
    cx r = u16 c /\ dx r = u16 d /\ ax r = cx r /\ bx r = dx r
    /\ carry r = false).
  { intros c d r0 r1 r.
    assert (Hcx1 : cx r1 = u16 c).
    { transitivity (cx (set_cx c r0)); [reflexivity | apply cx_set_cx]. }
    assert (Hdx1 : dx r1 = u16 d) by apply dx_set_dx.
    assert (Hcx : cx r = u16 c) by exact Hcx1.
    assert (Hdx : dx r = u16 d) by exact Hdx1.
    assert (Hax : ax r = u16 (cx r1)).
    { transitivity (ax (set_ax (cx r1) r1)); [reflexivity | apply ax_set_ax]. }
    assert (Hbx : bx r = u16 (dx (set_ax (cx r1) r1))) by apply bx_set_bx.
    split; [exact Hcx | split; [exact Hdx | split; [| split]]].
    - rewrite Hax, Hcx, Hcx1. apply u16_idem.
    - rewrite Hbx, Hdx. change (dx (set_ax (cx r1) r1)) with (dx r1).
      rewrite Hdx1. apply u16_idem.
    - apply carry_set_cf. }
  destruct (rs >? 16 * 1024 * 1024).
  - apply (Hgen (15 * 1024) (u32 (rs - 16 * 1024 * 1024) / (64 * 1024)) (regs s)).
  - apply (Hgen (u32 (rs - 1 * 1024 * 1024) / 1024) 0 (regs s)).
Qed.

(** C6: for a memory size [R] of at least 1 MiB (and below 4 GiB, the
    range of the 32-bit variable), [handle_1588] returns [63 * 1024] when
    [R] exceeds 64 MiB and [(R - 1 MiB) / 1024] otherwise, so 1024 for
    2 MiB, 63*1024 for 100 MiB and 0 for 1 MiB; over that range the result
    never decreases when [R] grows. *)
Theorem handle_1588_spec (s t : machine) :
  1024 * 1024 <= RamSize s ->
  RamSize s <= RamSize t ->
  RamSize t < 2 ^ 32 ->
  ax (regs (handle_1588 s))
  = (if RamSize s >? 64 * 1024 * 1024 then 63 * 1024
     else (RamSize s - 1024 * 1024) / 1024)
  /\ ax (regs (handle_1588 s)) <= ax (regs (handle_1588 t))
  /\ (RamSize s = 2 * 1024 * 1024 -> ax (regs (handle_1588 s)) = 1024)
  /\ (RamSize s = 100 * 1024 * 1024 -> ax (regs (handle_1588 s)) = 63 * 1024)
  /\ (RamSize s = 1024 * 1024 -> ax (regs (handle_1588 s)) = 0).
Proof.
  intros Hlo Hle Hhi.
  assert (Hval : forall m, 1024 * 1024 <= RamSize m < 2 ^ 32 ->
    ax (regs (handle_1588 m))
    = if RamSize m >? 64 * 1024 * 1024 then 63 * 1024
      else (RamSize m - 1024 * 1024) / 1024).
  { intros m Hm. destruct (handle_1588_ax m) as [Hax _]. rewrite Hax.
    rewrite (u32_small (RamSize m)) by lia.
    destruct (Z.gtb_spec (RamSize m) (64 * 1024 * 1024)) as [Hgt | Hngt].
    - reflexivity.
    - rewrite u32_small by lia. apply u16_small.
      split; [apply Z.div_pos; lia |].
      apply Z.div_lt_upper_bound; lia. }
  assert (Hs := Hval s ltac:(lia)). assert (Ht := Hval t ltac:(lia)).
  split; [exact Hs |]. split.
  - rewrite Hs, Ht.
    destruct (Z.gtb_spec (RamSize s) (64 * 1024 * 1024));
      destruct (Z.gtb_spec (RamSize t) (64 * 1024 * 1024)); try lia.
    + apply Z.div_le_upper_bound; lia.
    + apply Z.div_le_mono; lia.
  - rewrite Hs. repeat split; intros ->; reflexivity.
Qed.

(** C7: for a memory size [R] of at least 1 MiB (and below 4 GiB),
    [handle_15e801] returns in cx/dx the pair [(15 * 1024, (R - 16 MiB) /
    64 KiB)] when [R] exceeds 16 MiB and [((R - 1 MiB) / 1024, 0)]
    otherwise, and the same pair in ax/bx; so (7*1024, 0) for 8 MiB and
    (15*1024, 64) for 20 MiB. *)
Theorem handle_15e801_spec (s : machine) :
  1024 * 1024 <= RamSize s < 2 ^ 32 ->
  let r := regs (handle_15e801 s) in
  (cx r, dx r)
  = (if RamSize s >? 16 * 1024 * 1024
     then (15 * 1024, (RamSize s - 16 * 1024 * 1024) / (64 * 1024))
     else ((RamSize s - 1024 * 1024) / 1024, 0))
  /\ ax r = cx r
  /\ bx r = dx r
  /\ (RamSize s = 8 * 1024 * 1024 -> (cx r, dx r) = (7 * 1024, 0))
  /\ (RamSize s = 20 * 1024 * 1024 -> (cx r, dx r) = (15 * 1024, 64)).
Proof.
  intros HR. cbv zeta.
  destruct (handle_15e801_regs s) as (Hcx & Hdx & Hax & Hbx & _).
  cbv zeta in Hcx, Hdx, Hax, Hbx.
  rewrite (u32_small (RamSize s)) in Hcx, Hdx by lia.
  assert (Hpair : (cx (regs (handle_15e801 s)), dx (regs (handle_15e801 s)))
    = (if RamSize s >? 16 * 1024 * 1024
       then (15 * 1024, (RamSize s - 16 * 1024 * 1024) / (64 * 1024))
       else ((RamSize s - 1024 * 1024) / 1024, 0))).
  { rewrite Hcx, Hdx.
    destruct (Z.gtb_spec (RamSize s) (16 * 1024 * 1024)) as [Hgt | Hngt].
    - rewrite u32_small by lia. f_equal. apply u16_small.
      split; [apply Z.div_pos; lia |].
      apply Z.div_lt_upper_bound; lia.
    - rewrite u32_small by lia. f_equal. apply u16_small.
      split; [apply Z.div_pos; lia |].
      apply Z.div_lt_upper_bound; lia. }
  split; [exact Hpair | split; [exact Hax | split; [exact Hbx |]]].
  rewrite Hpair. split; intros ->; reflexivity.
Qed.

(** C10: when the memory size [R] is below 1 MiB the 32-bit subtraction
    [R - 1 MiB] wraps to [R + 2^32 - 2^20], and both [handle_1588] and the
    uncapped branch of [handle_15e801] return the low 16 bits of that
    wrapped value divided by 1024, which is [63 * 1024 + R / 1024]: at
    least 63*1024, never 0, and reported as a success. *)
Theorem size_queries_wrap_below_1M (s : machine) :
  0 <= RamSize s < 1024 * 1024 ->
  let R := RamSize s in
  u32 (R - 1 * 1024 * 1024) = R + 2 ^ 32 - 2 ^ 20
  /\ ax (regs (handle_1588 s)) = u16 (u32 (R - 1 * 1024 * 1024) / 1024)
  /\ ax (regs (handle_1588 s)) = 63 * 1024 + R / 1024
  /\ cx (regs (handle_15e801 s)) = 63 * 1024 + R / 1024
  /\ dx (regs (handle_15e801 s)) = 0
  /\ 63 * 1024 <= ax (regs (handle_1588 s)) < 2 ^ 16
  /\ ax (regs (handle_1588 s)) <> (R - 1024 * 1024) / 1024
  /\ carry (regs (handle_1588 s)) = false
  /\ carry (regs (handle_15e801 s)) = false.
Proof.
  intros HR. cbv zeta.
  assert (Hwrap : u32 (RamSize s - 1 * 1024 * 1024)
                  = RamSize s + 2 ^ 32 - 2 ^ 20).
  { unfold u32. symmetry. apply Z.mod_unique with (q := -1); lia. }
  assert (Hq : u16 (u32 (RamSize s - 1 * 1024 * 1024) / 1024)
               = 63 * 1024 + RamSize s / 1024).
  { rewrite Hwrap. unfold u16.
    replace (RamSize s + 2 ^ 32 - 2 ^ 20)
      with (RamSize s + (2 ^ 22 - 2 ^ 10) * 1024) by lia.
    rewrite Z.div_add by lia.
    assert (0 <= RamSize s / 1024 < 1024).
    { split; [apply Z.div_pos; lia | apply Z.div_lt_upper_bound; lia]. }
    symmetry. apply Z.mod_unique with (q := 63); lia. }
  assert (Hq' : 0 <= RamSize s / 1024 < 1024).
  { split; [apply Z.div_pos; lia | apply Z.div_lt_upper_bound; lia]. }
  destruct (handle_1588_ax s) as [Hax Hcf].
  destruct (handle_15e801_regs s) as (Hcx & Hdx & _ & _ & Hcf').
  cbv zeta in Hcx, Hdx, Hcf'.
  rewrite (u32_small (RamSize s)) in Hax, Hcx, Hdx by lia.
  destruct (Z.gtb_spec (RamSize s) (64 * 1024 * 1024)) as [Hgt | _]; [lia |].
  destruct (Z.gtb_spec (RamSize s) (16 * 1024 * 1024)) as [Hgt | _]; [lia |].
  rewrite Hq in Hax, Hcx.
  split; [exact Hwrap |].
  split; [rewrite Hq; exact Hax |].
  split; [exact Hax |].
  split; [exact Hcx |].
  split; [exact Hdx |].
  split; [rewrite Hax; lia |].
  split; [| split; [exact Hcf | exact Hcf']].
  rewrite Hax. intros Heq.
  assert ((RamSize s - 1024 * 1024) / 1024 < 0).
  { apply Z.div_lt_upper_bound; lia. }
  lia.
Qed.

End Sizes.

(** ** The memory map *)

Section E820.

Context {P : Platform}.

Lemma store1_mem a b s x :
  mem (store 1 a b s) x = if x =? a then u8 b else mem s x.
Proof. reflexivity. Qed.

Lemma memcpy_far_frame seg off bytes s :
  let s' := memcpy_far seg off bytes s in
  io s' = io s /\ regs s' = regs s /\ cpu s' = cpu s
  /\ RamSize s' = RamSize s /\ e820_list s' = e820_list s
  /\ e820_count s' = e820_count s.
Proof.
  cbv zeta. revert off s.
  induction bytes as [| b bytes IH]; intros off s; cbn [memcpy_far].
  - repeat split.
  - destruct (IH (off + 1) (store 1 (u32 (MAKE_FLATPTR seg (u16 off))) b s))
      as (H1 & H2 & H3 & H4 & H5 & H6).
    rewrite H1, H2, H3, H4, H5, H6. repeat split.
Qed.

(** Bytes of memory that are not in the destination are kept. *)
Lemma memcpy_far_other seg off bytes s x :
  (forall i, 0 <= i < Z.of_nat (length bytes) -> x <> far_byte seg off i) ->
  mem (memcpy_far seg off bytes s) x = mem s x.
Proof.
  revert off s. induction bytes as [| b bytes IH]; intros off s Hx;
    cbn [memcpy_far].
  - reflexivity.
  - rewrite IH.
    + rewrite store1_mem.
      destruct (Z.eqb_spec x (u32 (MAKE_FLATPTR seg (u16 off)))) as [Heq | _];
        [| reflexivity].
      exfalso. apply (Hx 0); [cbn [length]; lia |].
      unfold far_byte. rewrite Z.add_0_r. exact Heq.
    + intros i Hi. unfold far_byte.
      replace (off + 1 + i) with (off + (i + 1)) by lia.
      apply Hx. cbn [length]. lia.
Qed.

(** Two bytes of a buffer of at most 64 KiB have different addresses. *)
Lemma far_byte_inj seg off i j :
  0 <= seg < 2 ^ 16 ->
  0 <= i < 2 ^ 16 -> 0 <= j < 2 ^ 16 ->
  far_byte seg off i = far_byte seg off j -> i = j.
Proof.
  intros Hseg Hi Hj. unfold far_byte, MAKE_FLATPTR.
  rewrite Z.shiftl_mul_pow2 by lia.
  assert (Hri := u16_range (off + i)). assert (Hrj := u16_range (off + j)).
  rewrite !u32_small by lia.
  intros Heq. assert (Hmod : u16 (off + i) = u16 (off + j)) by lia.
  unfold u16 in Hmod.
  assert (Hd : (off + i - (off + j)) mod 2 ^ 16 = 0).
  { rewrite Zminus_mod, Hmod, Z.sub_diag. reflexivity. }
  replace (off + i - (off + j)) with (i - j) in Hd by lia.
  apply Z.mod_divide in Hd; [| lia]. destruct Hd as [q Hq]. lia.
Qed.

(** The destination holds the source bytes, in order. *)
Lemma memcpy_far_mem seg bytes :
  0 <= seg < 2 ^ 16 ->
  forall off s i,
    Z.of_nat (length bytes) <= 2 ^ 16 ->
    0 <= i < Z.of_nat (length bytes) ->
    mem (memcpy_far seg off bytes s) (far_byte seg off i)
    = u8 (nth (Z.to_nat i) bytes 0).
Proof.
  intros Hseg. induction bytes as [| b bytes IH]; intros off s i Hlen Hi;
    cbn [length] in Hlen, Hi; [lia |].
  cbn [memcpy_far].
  destruct (Z.eq_dec i 0) as [-> | Hnz].
  - rewrite memcpy_far_other.
    + rewrite store1_mem. unfold far_byte. rewrite Z.add_0_r, Z.eqb_refl.
      reflexivity.
    + intros j Hj Heq.
      replace (far_byte seg (off + 1) j) with (far_byte seg off (j + 1)) in Heq
        by (unfold far_byte; do 3 f_equal; lia).
      apply far_byte_inj in Heq; lia.
  - replace (far_byte seg off i) with (far_byte seg (off + 1) (i - 1))
      by (unfold far_byte; do 3 f_equal; lia).
    rewrite IH by lia.
    replace (Z.to_nat i) with (S (Z.to_nat (i - 1))) by lia.
    reflexivity.
Qed.

Lemma memcpy_far_writes seg off bytes s :
  exists l, writes (memcpy_far seg off bytes s) = writes s ++ l
            /\ length l = length bytes.
Proof.
  revert off s. induction bytes as [| b bytes IH]; intros off s;
    cbn [memcpy_far].
  - exists []. rewrite app_nil_r. split; reflexivity.
  - destruct (IH (off + 1) (store 1 (u32 (MAKE_FLATPTR seg (u16 off))) b s))
      as (l & Hw & Hl).
    eexists (_ :: l). split.
    + rewrite Hw. unfold store at 1. cbn [writes set_mem].
      rewrite <- app_assoc. reflexivity.
    + cbn [length]. rewrite Hl. reflexivity.
Qed.

Lemma le_bytes_length n v : length (le_bytes n v) = n.
Proof.
  revert v. induction n as [| n IH]; intros v; cbn [le_bytes length];
    [reflexivity | rewrite IH; reflexivity].
Qed.

Lemma le_bytes_byte n v : Forall (fun b => 0 <= b < 256) (le_bytes n v).
Proof.
  revert v. induction n as [| n IH]; intros v; cbn [le_bytes];
    constructor; [apply u8_range | apply IH].
Qed.

Lemma e820_bytes_length e :
  Z.of_nat (length (e820_bytes e)) = sizeof_e820entry.
Proof.
  unfold e820_bytes. rewrite !length_app, !le_bytes_length. reflexivity.
Qed.

Lemma e820_bytes_byte e : Forall (fun b => 0 <= b < 256) (e820_bytes e).
Proof.
  unfold e820_bytes. rewrite !Forall_app.
  repeat split; apply le_bytes_byte.
Qed.

(** The three validation checks of [handle_15e820], as one boolean. *)
Lemma handle_15e820_rejected s :
  u32 (edx (regs s)) <> 0x534D4150
  \/ e820_count s <= bx (regs s)
  \/ u32 (ecx (regs s)) < sizeof_e820entry ->
  handle_15e820 s = Some (set_code_fail RET_EUNSUPPORTED s).
Proof.
  intros Hbad. unfold handle_15e820. cbv zeta.
  destruct (Z.eqb_spec (u32 (edx (regs s))) 0x534D4150) as [Hsig | Hsig];
    cbn [negb orb]; [| reflexivity].
  destruct (Z.geb_spec (bx (regs s)) (e820_count s)) as [Hcur | Hcur];
    cbn [orb]; [reflexivity |].
  destruct (Z.ltb_spec (u32 (ecx (regs s))) sizeof_e820entry) as [Hsz | Hsz];
    [reflexivity |].
  exfalso. destruct Hbad as [H | [H | H]]; [contradiction | lia | lia].
Qed.

(** What an accepted call does, for any size that is large enough. *)
Lemma handle_15e820_accepted s entry :
  u32 (edx (regs s)) = 0x534D4150 ->
  bx (regs s) < e820_count s ->
  sizeof_e820entry <= u32 (ecx (regs s)) ->
  nth_error (e820_list s) (Z.to_nat (bx (regs s))) = Some entry ->
  exists s',
    handle_15e820 s = Some s'
    /\ mem s' = mem (memcpy_far (u16 (es (regs s))) (di (regs s) + 0)
                                (e820_bytes entry) s)
    /\ writes s' = writes (memcpy_far (u16 (es (regs s))) (di (regs s) + 0)
                                      (e820_bytes entry) s)
    /\ ebx (regs s') = (if bx (regs s) =? e820_count s - 1 then 0
                        else u32 (ebx (regs s) + 1))
    /\ eax (regs s') = 0x534D4150
    /\ ecx (regs s') = sizeof_e820entry
    /\ carry (regs s') = false
    /\ e820_list s' = e820_list s /\ e820_count s' = e820_count s.
Proof.
  intros Hsig Hcur Hsz Hnth. unfold handle_15e820. cbv zeta.
  rewrite Hsig, Hnth. cbn [Z.eqb Pos.eqb negb orb].
  destruct (Z.geb_spec (bx (regs s)) (e820_count s)) as [Hge | _]; [lia |].
  destruct (Z.ltb_spec (u32 (ecx (regs s))) sizeof_e820entry) as [Hlt | _];
    [lia |].
  cbn [orb].
  destruct (memcpy_far_frame (u16 (es (regs s))) (di (regs s) + 0)
              (e820_bytes entry) s) as (_ & Hregs & _ & _ & Hlist & Hcount).
  set (t := memcpy_far _ _ _ s) in *.
  rewrite Hregs.
  eexists. split; [reflexivity |].
  destruct (bx (regs s) =? e820_count s - 1).
  - repeat split; try assumption. apply carry_set_cf.
  - repeat split; try assumption. apply carry_set_cf.
Qed.

Lemma nth_error_in_range {A} (l : list A) (i : Z) :
  0 <= i < Z.of_nat (length l) -> exists x, nth_error l (Z.to_nat i) = Some x.
Proof.
  intros Hi. destruct (nth_error l (Z.to_nat i)) as [x |] eqn:E.
  - exists x. reflexivity.
  - apply nth_error_None in E. lia.
Qed.

(** C3: on a well-formed table of at most 65536 entries, with the
    signature in edx, the entry size in ecx and a cursor [0 <= ebx <
    e820_count], [handle_15e820] succeeds: the bytes of the entry at index
    ebx are in the buffer at es:di, the table is as before, ebx is the
    cursor plus one, or 0 after the last entry, eax is the signature and
    ecx the size of an entry. *)
Theorem handle_15e820_success (s : machine) (cursor : Z) :
  CONFIG_MAX_E820 <= 2 ^ 16 ->
  e820_wf s ->
  u32 (edx (regs s)) = 0x534D4150 ->
  u32 (ecx (regs s)) = sizeof_e820entry ->
  ebx (regs s) = cursor ->
  0 <= cursor < e820_count s ->
  exists s' entry,
    handle_15e820 s = Some s'
    /\ nth_error (e820_list s) (Z.to_nat cursor) = Some entry
    /\ (forall i, 0 <= i < sizeof_e820entry ->
          mem s' (far_byte (u16 (es (regs s))) (di (regs s)) i)
          = nth (Z.to_nat i) (e820_bytes entry) 0)
    /\ (forall x,
          (forall i, 0 <= i < sizeof_e820entry ->
             x <> far_byte (u16 (es (regs s))) (di (regs s)) i) ->
          mem s' x = mem s x)
    /\ e820_list s' = e820_list s
    /\ e820_count s' = e820_count s
    /\ ebx (regs s') = (if cursor + 1 <? e820_count s then cursor + 1 else 0)
    /\ (cursor = e820_count s - 1 -> ebx (regs s') = 0)
    /\ eax (regs s') = 0x534D4150
    /\ ecx (regs s') = sizeof_e820entry
    /\ ecx (regs s') = Z.of_nat (length (e820_bytes entry))
    /\ carry (regs s') = false.
Proof.
  intros Hmax [Hcap Hcount] Hsig Hsz Hebx Hcur.
  assert (Hbx : bx (regs s) = cursor).
  { unfold bx. rewrite Hebx. apply u16_small. lia. }
  destruct (nth_error_in_range (e820_list s) cursor) as [entry Hentry];
    [lia |].
  destruct (handle_15e820_accepted s entry)
    as (s' & Hrun & Hmem & _ & Hnext & Heax & Hecx & Hcf & Hlist & Hcnt);
    [exact Hsig | lia | lia | rewrite Hbx; exact Hentry |].
  exists s', entry.
  assert (Hseg := u16_range (es (regs s))).
  assert (Hlen := e820_bytes_length entry).
  rewrite Z.add_0_r in Hmem.
  split; [exact Hrun | split; [exact Hentry |]].
  split.
  { intros i Hi. rewrite Hmem, memcpy_far_mem; try lia.
    - apply u8_small.
      assert (Hall := e820_bytes_byte entry).
      rewrite Forall_forall in Hall. apply Hall, nth_In. lia.
    - unfold sizeof_e820entry in *. lia. }
  split.
  { intros x Hx. rewrite Hmem. apply memcpy_far_other.
    intros i Hi. apply Hx. lia. }
  split; [exact Hlist | split; [exact Hcnt |]].
  assert (Hnext' : ebx (regs s')
                   = if cursor + 1 <? e820_count s then cursor + 1 else 0).
  { rewrite Hnext, Hbx, Hebx.
    destruct (Z.eqb_spec cursor (e820_count s - 1)) as [Hlast | Hmore];
      destruct (Z.ltb_spec (cursor + 1) (e820_count s)); try lia.
    apply u32_small. lia. }
  split; [exact Hnext' |].
  split.
  { intros Hlast. rewrite Hnext'.
    destruct (Z.ltb_spec (cursor + 1) (e820_count s)); [lia | reflexivity]. }
  split; [exact Heax | split; [exact Hecx | split; [| exact Hcf]]].
  rewrite Hecx. symmetry. exact Hlen.
Qed.

Lemma set_code_fail_status code s :
  carry (regs (set_code_fail code s)) = true
  /\ ah (regs (set_code_fail code s)) = u8 code.
Proof.
  unfold set_code_fail. cbn [regs set_regs]. unfold regs_code_fail.
  split; [apply carry_set_cf |].
  generalize (regs s). intros r.
  transitivity (ah (set_ah code r)); [reflexivity | apply ah_set_ah].
Qed.

(** C4: [handle_15e820] rejects a call exactly when the signature is
    wrong, the cursor is not below [e820_count], or the size in ecx is
    smaller than an entry; a larger size is accepted, and the size reported
    back is that of an entry.  Every rejection reports the same status,
    carry set and [RET_EUNSUPPORTED] in ah, whichever check failed. *)
Theorem handle_15e820_validation (s : machine) :
  let rejected := handle_15e820 s = Some (set_code_fail RET_EUNSUPPORTED s) in
  (u32 (ecx (regs s)) < sizeof_e820entry -> rejected)
  /\ (e820_count s <= bx (regs s) -> rejected)
  /\ (u32 (edx (regs s)) <> 0x534D4150 -> rejected)
  /\ (rejected ->
        u32 (edx (regs s)) <> 0x534D4150
        \/ e820_count s <= bx (regs s)
        \/ u32 (ecx (regs s)) < sizeof_e820entry)
  /\ carry (regs (set_code_fail RET_EUNSUPPORTED s)) = true
  /\ ah (regs (set_code_fail RET_EUNSUPPORTED s)) = u8 RET_EUNSUPPORTED
  /\ (u32 (edx (regs s)) = 0x534D4150 ->
      bx (regs s) < e820_count s ->
      e820_count s <= Z.of_nat (length (e820_list s)) ->
      sizeof_e820entry <= u32 (ecx (regs s)) ->
      exists s', handle_15e820 s = Some s'
                 /\ carry (regs s') = false
                 /\ ecx (regs s') = sizeof_e820entry).
Proof.
  cbv zeta.
  split; [intros H; apply handle_15e820_rejected; auto |].
  split; [intros H; apply handle_15e820_rejected; auto |].
  split; [intros H; apply handle_15e820_rejected; auto |].
  split.
  { intros Hrej.
    destruct (Z.eq_dec (u32 (edx (regs s))) 0x534D4150) as [Hsig | Hsig];
      [| left; exact Hsig].
    destruct (Z_le_gt_dec (e820_count s) (bx (regs s))) as [Hcur | Hcur];
      [right; left; exact Hcur |].
    destruct (Z_lt_ge_dec (u32 (ecx (regs s))) sizeof_e820entry)
      as [Hsz | Hsz]; [right; right; exact Hsz |].
    exfalso.
    destruct (nth_error (e820_list s) (Z.to_nat (bx (regs s))))
      as [entry |] eqn:Hnth.
    - destruct (handle_15e820_accepted s entry)
        as (s' & Hrun & _ & _ & _ & _ & _ & Hcf & _);
        [exact Hsig | lia | lia | exact Hnth |].
      rewrite Hrun in Hrej. injection Hrej as ->.
      destruct (set_code_fail_status RET_EUNSUPPORTED s) as [Hset _].
      rewrite Hset in Hcf. discriminate.
    - unfold handle_15e820 in Hrej. cbv zeta in Hrej.
      rewrite Hsig, Hnth in Hrej. cbn [Z.eqb Pos.eqb negb orb] in Hrej.
      destruct (Z.geb_spec (bx (regs s)) (e820_count s)); [lia |].
      destruct (Z.ltb_spec (u32 (ecx (regs s))) sizeof_e820entry); [lia |].
      discriminate. }
  split; [apply set_code_fail_status |].
  split; [apply set_code_fail_status |].
  intros Hsig Hcur Hlen Hsz.
  destruct (nth_error_in_range (e820_list s) (bx (regs s))) as [entry Hentry].
  { assert (H := u16_range (ebx (regs s))). unfold bx in *. lia. }
  destruct (handle_15e820_accepted s entry)
    as (s' & Hrun & _ & _ & _ & _ & Hecx & Hcf & _);
    [exact Hsig | lia | lia | exact Hentry |].
  exists s'. repeat split; assumption.
Qed.

(** C5: when the signature is wrong, the cursor is not below
    [e820_count], or the size in ecx is smaller than an entry,
    [handle_15e820] returns with the carry flag set and [RET_EUNSUPPORTED]
    in ah and has stored nothing: memory, the store log, the table and the
    other registers are as before. *)
Theorem handle_15e820_failure_is_atomic (s : machine) :
  u32 (edx (regs s)) <> 0x534D4150
  \/ e820_count s <= bx (regs s)
  \/ u32 (ecx (regs s)) < sizeof_e820entry ->
  exists s',
    handle_15e820 s = Some s'
    /\ carry (regs s') = true
    /\ ah (regs s') = u8 RET_EUNSUPPORTED
    /\ mem s' = mem s
    /\ writes s' = writes s
    /\ e820_list s' = e820_list s
    /\ e820_count s' = e820_count s
    /\ ebx (regs s') = ebx (regs s)
    /\ ecx (regs s') = ecx (regs s)
    /\ edx (regs s') = edx (regs s).
Proof.
  intros Hbad. exists (set_code_fail RET_EUNSUPPORTED s).
  split; [apply handle_15e820_rejected; exact Hbad |].
  split; [apply set_code_fail_status |].
  split; [apply set_code_fail_status |].
  unfold set_code_fail, regs_code_fail, set_cf. repeat split.
Qed.

End E820.

(** * Concrete instances *)

Section Examples.

#[local] Existing Instance seabios_platform.

Lemma set_a20_spec_witness :
  0 <= 1 < 8
  /\ A20_ENABLE_BIT = 2 ^ 1
  /\ Z.testbit (inb PORT_A20 (fst (set_a20 1 (gate_example 0x0c)))) 1 = true
  /\ snd (set_a20 1 (gate_example 0x0c)) = 0.
Proof.
  split; [lia |]. split; [reflexivity |].
  destruct (set_a20_spec (gate_example 0x0c) 1 1) as (H1 & _ & _ & _ & H5 & _);
    [lia | reflexivity |].
  split; [exact H1 | exact H5].
Defined.

Lemma set_a20_enable_disable_witness :
  0 <= 1 < 8
  /\ A20_ENABLE_BIT = 2 ^ 1
  /\ snd (set_a20 0 (fst (set_a20 1 (gate_example 0x0c)))) = 1.
Proof.
  split; [lia |]. split; [reflexivity |].
  apply (set_a20_enable_disable (gate_example 0x0c) 1); [lia | reflexivity].
Defined.

(** With the A20 bit set beforehand, enabling and then disabling the gate
    leaves it clear: the port read 0x02 and reads 0x00 afterwards. *)
Lemma set_a20_enable_disable_counterexample :
  let s := gate_example 0x02 in
  let s2 := fst (set_a20 0 (fst (set_a20 1 s))) in
  Z.testbit (inb PORT_A20 s) 1 = true
  /\ Z.testbit (inb PORT_A20 s2) 1 = false
  /\ inb PORT_A20 s = 0x02
  /\ inb PORT_A20 s2 = 0x00
  /\ inb PORT_A20 s2 <> inb PORT_A20 s.
Proof. vm_compute. repeat split; discriminate. Qed.

Lemma handle_1588_spec_witness :
  1024 * 1024 <= RamSize (ram_example (2 * 1024 * 1024))
  /\ RamSize (ram_example (2 * 1024 * 1024))
     <= RamSize (ram_example (100 * 1024 * 1024))
  /\ RamSize (ram_example (100 * 1024 * 1024)) < 2 ^ 32
  /\ ax (regs (handle_1588 (ram_example (2 * 1024 * 1024))))
     <= ax (regs (handle_1588 (ram_example (100 * 1024 * 1024)))).
Proof.
  split; [vm_compute; discriminate |].
  split; [vm_compute; discriminate |].
  split; [reflexivity |].
  apply (handle_1588_spec (ram_example (2 * 1024 * 1024))
                          (ram_example (100 * 1024 * 1024)));
    [vm_compute; discriminate | vm_compute; discriminate | reflexivity].
Defined.

(** With no memory at all the result is 63*1024, not (0 - 1 MiB) / 1024,
    and it is larger than the 0 returned for 1 MiB. *)
Lemma handle_1588_spec_counterexample :
  let s := ram_example 0 in
  let t := ram_example (1024 * 1024) in
  RamSize s <= RamSize t
  /\ ax (regs (handle_1588 s)) = 63 * 1024
  /\ ax (regs (handle_1588 t)) = 0
  /\ ~ ax (regs (handle_1588 s)) <= ax (regs (handle_1588 t))
  /\ ax (regs (handle_1588 s))
     <> (if RamSize s >? 64 * 1024 * 1024 then 63 * 1024
         else (RamSize s - 1024 * 1024) / 1024).
Proof.
  vm_compute. repeat split; try discriminate.
  intros H. apply H. reflexivity.
Qed.

Lemma handle_15e801_spec_witness :
  1024 * 1024 <= RamSize (ram_example (20 * 1024 * 1024)) < 2 ^ 32
  /\ (cx (regs (handle_15e801 (ram_example (20 * 1024 * 1024)))),
      dx (regs (handle_15e801 (ram_example (20 * 1024 * 1024)))))
     = (15 * 1024, 64).
Proof.
  split; [split; [vm_compute; discriminate | reflexivity] |].
  apply (handle_15e801_spec (ram_example (20 * 1024 * 1024)));
    [split; [vm_compute; discriminate | reflexivity] | reflexivity].
Defined.

(** With no memory at all cx is 63*1024, not (0 - 1 MiB) / 1024. *)
Lemma handle_15e801_spec_counterexample :
  let s := ram_example 0 in
  let r := regs (handle_15e801 s) in
  (cx r, dx r) = (63 * 1024, 0)
  /\ (cx r, dx r)
     <> (if RamSize s >? 16 * 1024 * 1024
         then (15 * 1024, (RamSize s - 16 * 1024 * 1024) / (64 * 1024))
         else ((RamSize s - 1024 * 1024) / 1024, 0)).
Proof. vm_compute. split; [reflexivity | discriminate]. Qed.

Lemma size_queries_wrap_below_1M_witness :
  0 <= RamSize (ram_example (640 * 1024)) < 1024 * 1024
  /\ ax (regs (handle_1588 (ram_example (640 * 1024))))
     = 63 * 1024 + RamSize (ram_example (640 * 1024)) / 1024.
Proof.
  split; [split; [vm_compute; discriminate | reflexivity] |].
  apply (size_queries_wrap_below_1M (ram_example (640 * 1024))).
  split; [vm_compute; discriminate | reflexivity].
Defined.

Lemma e820_example_wf signature cursor size :
  e820_wf (e820_example signature cursor size).
Proof. split; [reflexivity | split; discriminate]. Defined.

Lemma handle_15e820_success_witness :
  CONFIG_MAX_E820 <= 2 ^ 16
  /\ e820_wf (e820_example 0x534D4150 1 20)
  /\ u32 (edx (regs (e820_example 0x534D4150 1 20))) = 0x534D4150
  /\ u32 (ecx (regs (e820_example 0x534D4150 1 20))) = sizeof_e820entry
  /\ ebx (regs (e820_example 0x534D4150 1 20)) = 1
  /\ 0 <= 1 < e820_count (e820_example 0x534D4150 1 20)
  /\ exists s', handle_15e820 (e820_example 0x534D4150 1 20) = Some s'
                /\ ebx (regs s') = 0.
Proof.
  split; [vm_compute; discriminate |].
  split; [apply e820_example_wf |].
  split; [reflexivity |]. split; [reflexivity |]. split; [reflexivity |].
  split; [split; [discriminate | reflexivity] |].
  destruct (handle_15e820_success (e820_example 0x534D4150 1 20) 1)
    as (s' & entry & Hrun & _ & _ & _ & _ & _ & _ & Hlast & _);
    [vm_compute; discriminate | apply e820_example_wf | reflexivity
    | reflexivity | reflexivity | split; [discriminate | reflexivity] |].
  exists s'. split; [exact Hrun | apply Hlast; reflexivity].
Defined.

(** A size of 24, larger than an entry, is accepted: the call succeeds
    and reports 20 bytes. *)
Lemma handle_15e820_validation_counterexample :
  let s := e820_example 0x534D4150 0 24 in
  u32 (ecx (regs s)) <> sizeof_e820entry
  /\ match handle_15e820 s with
     | Some s' => carry (regs s') = false
                  /\ ecx (regs s') = sizeof_e820entry
                  /\ ebx (regs s') = 1
     | None => False
     end.
Proof. vm_compute. split; [discriminate | repeat split]. Qed.

Lemma handle_15e820_failure_is_atomic_witness :
  (u32 (edx (regs (e820_example 0x534D4150 2 20))) <> 0x534D4150
   \/ e820_count (e820_example 0x534D4150 2 20)
      <= bx (regs (e820_example 0x534D4150 2 20))
   \/ u32 (ecx (regs (e820_example 0x534D4150 2 20))) < sizeof_e820entry)
  /\ exists s', handle_15e820 (e820_example 0x534D4150 2 20) = Some s'
                /\ carry (regs s') = true
                /\ writes s' = writes (e820_example 0x534D4150 2 20).
Proof.
  assert (Hbad : u32 (edx (regs (e820_example 0x534D4150 2 20))) <> 0x534D4150
   \/ e820_count (e820_example 0x534D4150 2 20)
      <= bx (regs (e820_example 0x534D4150 2 20))
   \/ u32 (ecx (regs (e820_example 0x534D4150 2 20))) < sizeof_e820entry).
  { right. left. vm_compute. discriminate. }
  split; [exact Hbad |].
  destruct (handle_15e820_failure_is_atomic (e820_example 0x534D4150 2 20) Hbad)
    as (s' & Hrun & Hcf & _ & _ & Hw & _).
  exists s'. repeat split; assumption.
Defined.

(** With a size of 24, which is not the size of an entry, the call is no
    validation failure: the twenty bytes of the entry are stored in the
    buffer at 0000:7000, whose second byte changes from 0x00 to 0xfc. *)
Lemma handle_15e820_failure_is_atomic_counterexample :
  let s := e820_example 0x534D4150 0 24 in
  u32 (ecx (regs s)) <> sizeof_e820entry
  /\ match handle_15e820 s with
     | Some s' => carry (regs s') = false
                  /\ length (writes s') = 20%nat
                  /\ mem s 0x7009 = 0x00
                  /\ mem s' 0x7009 = 0xfc
     | None => False
     end.
Proof. vm_compute. split; [discriminate | repeat split]. Qed.

End Examples.

(** * Further properties *)

(** ** Bytes in memory *)

Lemma store_bytes_other bs a m x :
  x < a \/ a + Z.of_nat (length bs) <= x -> store_bytes a bs m x = m x.
Proof.
  revert a m. induction bs as [| b bs IH]; intros a m Hx; cbn [store_bytes].
  - reflexivity.
  - cbn [length] in Hx. rewrite IH by lia. unfold upd.
    destruct (Z.eqb_spec x a); [lia | reflexivity].
Qed.

Lemma store_bytes_at bs a m i :
  0 <= i < Z.of_nat (length bs) ->
  store_bytes a bs m (a + i) = nth (Z.to_nat i) bs 0.
Proof.
  revert a m i. induction bs as [| b bs IH]; intros a m i Hi;
    cbn [length] in Hi; [lia |].
  cbn [store_bytes]. destruct (Z.eq_dec i 0) as [-> | Hnz].
  - rewrite store_bytes_other by lia. unfold upd.
    rewrite Z.add_0_r, Z.eqb_refl. reflexivity.
  - replace (a + i) with (a + 1 + (i - 1)) by lia.
    rewrite IH by lia.
    replace (Z.to_nat i) with (S (Z.to_nat (i - 1))) by lia. reflexivity.
Qed.

Lemma load_bytes_ext n a m m' :
  (forall i, 0 <= i < Z.of_nat n -> m (a + i) = m' (a + i)) ->
  load_bytes n a m = load_bytes n a m'.
Proof.
  revert a. induction n as [| n IH]; intros a H; cbn [load_bytes].
  - reflexivity.
  - f_equal.
    + rewrite <- (Z.add_0_r a). rewrite H by lia. reflexivity.
    + apply IH. intros i Hi. replace (a + 1 + i) with (a + (i + 1)) by lia.
      apply H. lia.
Qed.

Lemma le_value_range bs :
  Forall (fun b => 0 <= b < 256) bs ->
  0 <= le_value bs < 2 ^ (8 * Z.of_nat (length bs)).
Proof.
  induction 1 as [| b bs Hb _ IH]; cbn [le_value length].
  - cbn. lia.
  - replace (8 * Z.of_nat (S (length bs)))
      with (8 + 8 * Z.of_nat (length bs)) by lia.
    rewrite Z.pow_add_r by lia. change (2 ^ 8) with 256. nia.
Qed.

(** Splitting a value into bytes and reading them back. *)
Lemma le_value_le_bytes n v :
  le_value (le_bytes n v) = v mod 2 ^ (8 * Z.of_nat n).
Proof.
  revert v. induction n as [| n IH]; intros v; cbn [le_bytes le_value].
  - cbn. rewrite Z.mod_1_r. reflexivity.
  - rewrite IH. unfold u8.
    replace (8 * Z.of_nat (S n)) with (8 + 8 * Z.of_nat n) by lia.
    rewrite Z.pow_add_r by lia. rewrite Z.shiftr_div_pow2 by lia.
    rewrite Z.rem_mul_r by lia. reflexivity.
Qed.

Lemma le_bytes_le_value bs :
  Forall (fun b => 0 <= b < 256) bs ->
  le_bytes (length bs) (le_value bs) = bs.
Proof.
  induction 1 as [| b bs Hb Hbs IH]; cbn [le_value length le_bytes].
  - reflexivity.
  - f_equal.
    + unfold u8. rewrite Z.mul_comm, Z.mod_add by lia.
      apply Z.mod_small. exact Hb.
    + rewrite Z.shiftr_div_pow2 by lia.
      replace ((b + 2 ^ 8 * le_value bs) / 2 ^ 8) with (le_value bs).
      * exact IH.
      * rewrite Z.mul_comm, Z.div_add by lia.
        rewrite Z.div_small by exact Hb. reflexivity.
Qed.

Lemma load_bytes_byte n a m : Forall (fun b => 0 <= b < 256) (load_bytes n a m).
Proof.
  revert a. induction n as [| n IH]; intros a; cbn [load_bytes];
    constructor; [apply u8_range | apply IH].
Qed.

Lemma load_bytes_length n a m : length (load_bytes n a m) = n.
Proof.
  revert a. induction n as [| n IH]; intros a; cbn [load_bytes length];
    [reflexivity | rewrite IH; reflexivity].
Qed.

Lemma nth_load_bytes n a m i :
  0 <= i < Z.of_nat n -> nth (Z.to_nat i) (load_bytes n a m) 0 = u8 (m (a + i)).
Proof.
  revert a i. induction n as [| n IH]; intros a i Hi; [lia |].
  cbn [load_bytes]. destruct (Z.eq_dec i 0) as [-> | Hnz].
  - rewrite Z.add_0_r. reflexivity.
  - replace (Z.to_nat i) with (S (Z.to_nat (i - 1))) by lia. cbn [nth].
    rewrite IH by lia. do 2 f_equal. lia.
Qed.

Lemma load_range n a s : 0 <= load n a s < 2 ^ (8 * Z.of_nat n).
Proof.
  unfold load.
  assert (H := le_value_range (load_bytes n a (mem s))
                 (load_bytes_byte n a (mem s))).
  rewrite load_bytes_length in H. exact H.
Qed.

(** A store moves the bytes of a loaded value as they are. *)
Lemma mem_store_load n a b s x :
  mem (store n a (load n b s) s) x
  = if (a <=? x) && (x <? a + Z.of_nat n)
    then u8 (mem s (b + (x - a)))
    else mem s x.
Proof.
  unfold store. cbn [mem set_mem]. unfold load.
  rewrite <- (load_bytes_length n b (mem s)) at 1.
  rewrite le_bytes_le_value by apply load_bytes_byte.
  destruct (Z.leb_spec a x) as [Hle | Hlt]; cbn [andb].
  - destruct (Z.ltb_spec x (a + Z.of_nat n)) as [Hin | Hout].
    + replace x with (a + (x - a)) at 1 by lia.
      rewrite store_bytes_at by (rewrite load_bytes_length; lia).
      apply nth_load_bytes. lia.
    + apply store_bytes_other. rewrite load_bytes_length. lia.
  - apply store_bytes_other. lia.
Qed.

(** Loading back what was stored. *)
Lemma load_store_same n a v s :
  load n a (store n a v s) = v mod 2 ^ (8 * Z.of_nat n).
Proof.
  unfold load, store. cbn [mem set_mem].
  rewrite <- le_value_le_bytes. f_equal.
  assert (Hgen : forall bs m, Forall (fun b => 0 <= b < 256) bs ->
            load_bytes (length bs) a (store_bytes a bs m) = bs).
  { intros bs m Hbs. apply nth_ext with (d := 0) (d' := 0).
    - apply load_bytes_length.
    - intros i Hi. rewrite load_bytes_length in Hi.
      replace i with (Z.to_nat (Z.of_nat i)) by lia.
      rewrite nth_load_bytes by lia.
      rewrite store_bytes_at by lia.
      apply u8_small. rewrite Forall_forall in Hbs. apply Hbs, nth_In. lia. }
  rewrite <- (le_bytes_length n v) at 1.
  apply Hgen, le_bytes_byte.
Qed.

(** A store elsewhere does not change a load. *)
Lemma load_store_other n a m b v s :
  a + Z.of_nat n <= b \/ b + Z.of_nat m <= a ->
  load n a (store m b v s) = load n a s.
Proof.
  intros Hd. unfold load, store. cbn [mem set_mem]. f_equal.
  apply load_bytes_ext. intros i Hi.
  apply store_bytes_other. rewrite le_bytes_length. lia.
Qed.

(** An ascending copy between two ranges that do not overlap: the
    destination gets the bytes the source had, nothing else changes. *)
Lemma copy_words_disjoint n :
  forall sbase dbase k s,
    0 <= k -> 0 <= sbase -> 0 <= dbase ->
    sbase + 2 * (k + Z.of_nat n) <= 2 ^ 32 ->
    dbase + 2 * (k + Z.of_nat n) <= 2 ^ 32 ->
    sbase + 2 * (k + Z.of_nat n) <= dbase
    \/ dbase + 2 * (k + Z.of_nat n) <= sbase ->
    let s' := copy_words ascending_offset n sbase dbase k s in
    (forall i, 2 * k <= i < 2 * (k + Z.of_nat n) ->
       mem s' (dbase + i) = u8 (mem s (sbase + i)))
    /\ (forall x, x < dbase + 2 * k \/ dbase + 2 * (k + Z.of_nat n) <= x ->
          mem s' x = mem s x).
Proof.
  induction n as [| n IH]; intros sbase dbase k s Hk Hs Hd Hsmax Hdmax Hdis;
    cbv zeta; cbn [copy_words].
  - split; [intros i Hi; lia | reflexivity].
  - change (ascending_offset k) with (2 * k).
    assert (Hls : lin sbase (2 * k) = sbase + 2 * k).
    { unfold lin, u32. apply Z.mod_small. lia. }
    assert (Hld : lin dbase (2 * k) = dbase + 2 * k).
    { unfold lin, u32. apply Z.mod_small. lia. }
    rewrite Hls, Hld.
    set (t := store 2 _ _ s).
    assert (Ht : forall x, mem t x
              = if (dbase + 2 * k <=? x) && (x <? dbase + 2 * k + 2)
                then u8 (mem s (sbase + 2 * k + (x - (dbase + 2 * k))))
                else mem s x).
    { intros x. subst t. rewrite mem_store_load. reflexivity. }
    destruct (IH sbase dbase (k + 1) t) as [Hcopy Hrest]; try lia.
    split.
    + intros i Hi. destruct (Z_lt_ge_dec i (2 * (k + 1))) as [Hfirst | Hlater].
      * rewrite Hrest by lia. rewrite Ht.
        destruct (Z.leb_spec (dbase + 2 * k) (dbase + i)); [| lia].
        destruct (Z.ltb_spec (dbase + i) (dbase + 2 * k + 2)); [| lia].
        cbn [andb]. do 2 f_equal. lia.
      * rewrite Hcopy by lia. f_equal. rewrite Ht.
        destruct (Z.leb_spec (dbase + 2 * k) (sbase + i)) as [H1 | H1];
          destruct (Z.ltb_spec (sbase + i) (dbase + 2 * k + 2)) as [H2 | H2];
          cbn [andb]; try reflexivity. lia.
    + intros x Hx. rewrite Hrest by lia. rewrite Ht.
      destruct (Z.leb_spec (dbase + 2 * k) x) as [H1 | H1];
        destruct (Z.ltb_spec x (dbase + 2 * k + 2)) as [H2 | H2];
        cbn [andb]; try reflexivity. lia.
Qed.

(** ** The gate, call after call *)

Section GateAlgebra.

Context {P : Platform}.

(** X6: of two calls of [set_a20] in a row only the second shows in the
    port, and what the second reports as previous state is the flag of the
    first. *)
Theorem set_a20_last_call_wins (s : machine) (c1 c2 i : Z) :
  0 <= i < 8 ->
  A20_ENABLE_BIT = 2 ^ i ->
  let s1 := fst (set_a20 c1 s) in
  inb PORT_A20 (fst (set_a20 c2 s1)) = inb PORT_A20 (fst (set_a20 c2 s))
  /\ (forall p, io (fst (set_a20 c2 s1)) p = io (fst (set_a20 c2 s)) p)
  /\ snd (set_a20 c2 s1) = Z.b2z (negb (c1 =? 0)).
Proof.
  intros Hi Hm s1. subst s1.
  assert (Hport : inb PORT_A20 (fst (set_a20 c2 (fst (set_a20 c1 s))))
                  = inb PORT_A20 (fst (set_a20 c2 s))).
  { apply inb_ext. intros j.
    rewrite !set_a20_bits with (i := i) by assumption.
    destruct (j =? i); reflexivity. }
  split; [exact Hport | split].
  - intros p. destruct (Z.eq_dec p PORT_A20) as [-> | Hp].
    + rewrite !set_a20_written. exact Hport.
    + rewrite !set_a20_other_ports by exact Hp. reflexivity.
  - rewrite set_a20_result with (i := i) by (lia || exact Hm).
    rewrite set_a20_bits with (i := i) by assumption.
    rewrite Z.eqb_refl. reflexivity.
Qed.

End GateAlgebra.

(** ** What the size queries promise *)

Section SizeBounds.

Context {P : Platform}.

(** X7: for a memory size [R] from 1 MiB up, neither query reports memory
    that is not there.  [handle_1588] accounts for all of [R] but less
    than 1 KiB as long as [R] is at most 64 MiB; [handle_15e801] accounts
    for all of [R] but less than 64 KiB, and less than 1 KiB up to 16 MiB,
    where its cx is the ax of [handle_1588]. *)
Theorem size_queries_account_for_memory (s : machine) :
  1024 * 1024 <= RamSize s < 2 ^ 32 ->
  let R := RamSize s in
  let legacy := 1024 * 1024 + 1024 * ax (regs (handle_1588 s)) in
  let extended := 1024 * 1024 + 1024 * cx (regs (handle_15e801 s))
                  + 64 * 1024 * dx (regs (handle_15e801 s)) in
  legacy <= R
  /\ (R <= 64 * 1024 * 1024 -> R < legacy + 1024)
  /\ (64 * 1024 * 1024 < R -> legacy = 64 * 1024 * 1024)
  /\ extended <= R
  /\ R < extended + 64 * 1024
  /\ (R <= 16 * 1024 * 1024 ->
        R < extended + 1024
        /\ cx (regs (handle_15e801 s)) = ax (regs (handle_1588 s))).
Proof.
  intros HR. cbv zeta.
  destruct (handle_1588_ax s) as [Hax _].
  destruct (handle_15e801_regs s) as (Hcx & Hdx & _).
  cbv zeta in Hcx, Hdx.
  rewrite (u32_small (RamSize s)) in Hax, Hcx, Hdx by lia.
  set (R := RamSize s) in *.
  assert (Hkib : 0 <= (R - 1 * 1024 * 1024) / 1024
                 /\ 1024 * ((R - 1 * 1024 * 1024) / 1024) <= R - 1024 * 1024
                 /\ R - 1024 * 1024
                    < 1024 * ((R - 1 * 1024 * 1024) / 1024) + 1024).
  { assert (H := Z.div_mod (R - 1 * 1024 * 1024) 1024 ltac:(lia)).
    assert (H' := Z.mod_pos_bound (R - 1 * 1024 * 1024) 1024 ltac:(lia)).
    split; [apply Z.div_pos; lia | lia]. }
  assert (Hblk : 0 <= (R - 16 * 1024 * 1024) / (64 * 1024)
                 \/ R < 16 * 1024 * 1024).
  { destruct (Z_lt_ge_dec R (16 * 1024 * 1024)); [right; lia | left].
    apply Z.div_pos; lia. }
  assert (Hblk2 : 64 * 1024 * ((R - 16 * 1024 * 1024) / (64 * 1024))
                  <= R - 16 * 1024 * 1024
                  /\ R - 16 * 1024 * 1024
                     < 64 * 1024 * ((R - 16 * 1024 * 1024) / (64 * 1024))
                       + 64 * 1024).
  { assert (H := Z.div_mod (R - 16 * 1024 * 1024) (64 * 1024) ltac:(lia)).
    assert (H' := Z.mod_pos_bound (R - 16 * 1024 * 1024) (64 * 1024)
                    ltac:(lia)).
    lia. }
  assert (Hax' : ax (regs (handle_1588 s))
                 = if R >? 64 * 1024 * 1024 then 63 * 1024
                   else (R - 1 * 1024 * 1024) / 1024).
  { rewrite Hax. destruct (Z.gtb_spec R (64 * 1024 * 1024)); [reflexivity |].
    rewrite u32_small by lia. apply u16_small. lia. }
  assert (Hcx' : cx (regs (handle_15e801 s))
                 = if R >? 16 * 1024 * 1024 then 15 * 1024
                   else (R - 1 * 1024 * 1024) / 1024).
  { rewrite Hcx. destruct (Z.gtb_spec R (16 * 1024 * 1024)); [reflexivity |].
    rewrite u32_small by lia. apply u16_small. lia. }
  assert (Hdx' : dx (regs (handle_15e801 s))
                 = if R >? 16 * 1024 * 1024
                   then (R - 16 * 1024 * 1024) / (64 * 1024) else 0).
  { rewrite Hdx. destruct (Z.gtb_spec R (16 * 1024 * 1024)); [| reflexivity].
    rewrite u32_small by lia. apply u16_small.
    split; [apply Z.div_pos; lia |].
    apply Z.div_lt_upper_bound; lia. }
  rewrite Hax', Hcx', Hdx'.
  destruct (Z.gtb_spec R (64 * 1024 * 1024));
    destruct (Z.gtb_spec R (16 * 1024 * 1024)); try lia;
    repeat split; try lia.
Qed.

End SizeBounds.

(** ** Walking the memory map *)

Section E820Walk.

Context {P : Platform}.

(** X8: on a well-formed table [handle_15e820] never reads outside the
    array: the cursor check keeps the index below [e820_count], which is
    within the array. *)
Theorem handle_15e820_in_bounds (s : machine) :
  e820_wf s -> handle_15e820 s <> None.
Proof.
  intros [Hcap Hcount].
  destruct (Z.eq_dec (u32 (edx (regs s))) 0x534D4150) as [Hsig | Hsig];
    [| rewrite handle_15e820_rejected by (left; exact Hsig); discriminate].
  destruct (Z_le_gt_dec (e820_count s) (bx (regs s))) as [Hcur | Hcur];
    [rewrite handle_15e820_rejected by (right; left; exact Hcur);
     discriminate |].
  destruct (Z_lt_ge_dec (u32 (ecx (regs s))) sizeof_e820entry) as [Hsz | Hsz];
    [rewrite handle_15e820_rejected by (right; right; exact Hsz);
     discriminate |].
  destruct (nth_error_in_range (e820_list s) (bx (regs s))) as [entry Hentry].
  { assert (H := u16_range (ebx (regs s))). unfold bx in *. lia. }
  destruct (handle_15e820_accepted s entry) as (s' & Hrun & _);
    [exact Hsig | lia | lia | exact Hentry |].
  rewrite Hrun. discriminate.
Qed.

(** The registers an accepted call leaves alone. *)
Lemma handle_15e820_accepted_regs s s' :
  u32 (edx (regs s)) = 0x534D4150 ->
  bx (regs s) < e820_count s ->
  sizeof_e820entry <= u32 (ecx (regs s)) ->
  handle_15e820 s = Some s' ->
  edx (regs s') = edx (regs s) /\ es (regs s') = es (regs s)
  /\ edi (regs s') = edi (regs s) /\ io s' = io s.
Proof.
  intros Hsig Hcur Hsz. unfold handle_15e820. cbv zeta.
  rewrite Hsig. cbn [Z.eqb Pos.eqb negb orb].
  destruct (Z.geb_spec (bx (regs s)) (e820_count s)) as [Hge | _]; [lia |].
  destruct (Z.ltb_spec (u32 (ecx (regs s))) sizeof_e820entry) as [Hlt | _];
    [lia |].
  cbn [orb].
  destruct (nth_error (e820_list s) (Z.to_nat (bx (regs s)))) as [entry |];
    [| discriminate].
  destruct (memcpy_far_frame (u16 (es (regs s))) (di (regs s) + 0)
              (e820_bytes entry) s) as (Hio & Hregs & _).
  set (t := memcpy_far _ _ _ s) in *.
  intros Hrun. injection Hrun as <-.
  cbn [regs io set_success set_regs].
  destruct (bx (regs s) =? e820_count s - 1);
    cbn [regs io set_success set_regs]; repeat split; assumption.
Qed.

Lemma load_bytes_eq n a m l :
  length l = n ->
  (forall i, 0 <= i < Z.of_nat n -> u8 (m (a + i)) = nth (Z.to_nat i) l 0) ->
  load_bytes n a m = l.
Proof.
  intros Hlen Hnth. apply nth_ext with (d := 0) (d' := 0).
  - rewrite load_bytes_length. symmetry. exact Hlen.
  - intros i Hi. rewrite load_bytes_length in Hi.
    replace i with (Z.to_nat (Z.of_nat i)) by lia.
    rewrite nth_load_bytes by lia. apply Hnth. lia.
Qed.

Lemma nth_e820_bytes e i :
  0 <= i < 20 ->
  nth (Z.to_nat i) (e820_bytes e) 0
  = if i <? 8 then nth (Z.to_nat i) (le_bytes 8 (e820_start e)) 0
    else if i <? 16 then nth (Z.to_nat (i - 8)) (le_bytes 8 (e820_size e)) 0
    else nth (Z.to_nat (i - 16)) (le_bytes 4 (e820_type e)) 0.
Proof.
  intros Hi. unfold e820_bytes.
  destruct (Z.ltb_spec i 8) as [H8 | H8].
  - apply app_nth1. rewrite le_bytes_length. lia.
  - rewrite app_nth2 by (rewrite le_bytes_length; lia).
    rewrite le_bytes_length.
    destruct (Z.ltb_spec i 16) as [H16 | H16].
    + rewrite app_nth1 by (rewrite le_bytes_length; lia).
      f_equal. lia.
    + rewrite app_nth2 by (rewrite le_bytes_length; lia).
      rewrite le_bytes_length. f_equal. lia.
Qed.

(** X9: an accepted call, whatever size of at least 20 the caller gave,
    leaves the entry readable in the buffer: when the buffer does not run
    over the end of the segment, the little-endian quadwords at es:di and
    es:di+8 are the entry's base and length and the doubleword at
    es:di+16 is its type. *)
Theorem handle_15e820_buffer_fields (s : machine) :
  u32 (edx (regs s)) = 0x534D4150 ->
  bx (regs s) < e820_count s ->
  e820_count s <= Z.of_nat (length (e820_list s)) ->
  sizeof_e820entry <= u32 (ecx (regs s)) ->
  di (regs s) + sizeof_e820entry <= 2 ^ 16 ->
  let buf := MAKE_FLATPTR (u16 (es (regs s))) (di (regs s)) in
  exists s' entry,
    handle_15e820 s = Some s'
    /\ nth_error (e820_list s) (Z.to_nat (bx (regs s))) = Some entry
    /\ load 8 buf s' = u64 (e820_start entry)
    /\ load 8 (buf + 8) s' = u64 (e820_size entry)
    /\ load 4 (buf + 16) s' = u32 (e820_type entry).
Proof.
  intros Hsig Hcur Hlen Hsz Hfit. cbv zeta.
  destruct (nth_error_in_range (e820_list s) (bx (regs s))) as [entry Hentry].
  { assert (H := u16_range (ebx (regs s))). unfold bx in *. lia. }
  destruct (handle_15e820_accepted s entry) as (s' & Hrun & Hmem & _);
    [exact Hsig | exact Hcur | exact Hsz | exact Hentry |].
  exists s', entry. split; [exact Hrun | split; [exact Hentry |]].
  rewrite Z.add_0_r in Hmem.
  assert (Hseg := u16_range (es (regs s))).
  assert (Hdi : 0 <= di (regs s)) by apply u16_range.
  unfold sizeof_e820entry in Hfit.
  set (buf := MAKE_FLATPTR (u16 (es (regs s))) (di (regs s))).
  assert (Hbyte : forall i, 0 <= i < 20 ->
            mem s' (buf + i) = nth (Z.to_nat i) (e820_bytes entry) 0).
  { intros i Hi.
    assert (Haddr : buf + i = far_byte (u16 (es (regs s))) (di (regs s)) i).
    { subst buf. unfold far_byte, MAKE_FLATPTR.
      rewrite Z.shiftl_mul_pow2 by lia.
      rewrite (u16_small (di (regs s) + i)) by lia.
      rewrite u32_small by lia. lia. }
    rewrite Haddr, Hmem.
    assert (Hl := e820_bytes_length entry). unfold sizeof_e820entry in Hl.
    rewrite memcpy_far_mem by lia.
    apply u8_small.
    assert (Hall := e820_bytes_byte entry).
    rewrite Forall_forall in Hall. apply Hall, nth_In. lia. }
  assert (Hu8 : forall n v i, 0 <= i < Z.of_nat n ->
            u8 (nth (Z.to_nat i) (le_bytes n v) 0)
            = nth (Z.to_nat i) (le_bytes n v) 0).
  { intros n v i Hi. apply u8_small.
    assert (Hall := le_bytes_byte n v).
    rewrite Forall_forall in Hall. apply Hall, nth_In.
    rewrite le_bytes_length. lia. }
  unfold load, u64, u32.
  rewrite (load_bytes_eq 8 buf (mem s') (le_bytes 8 (e820_start entry))).
  2: { apply le_bytes_length. }
  2: { intros i Hi. rewrite Hbyte, nth_e820_bytes by lia.
       destruct (Z.ltb_spec i 8); [| lia]. apply Hu8. lia. }
  rewrite (load_bytes_eq 8 (buf + 8) (mem s') (le_bytes 8 (e820_size entry))).
  2: { apply le_bytes_length. }
  2: { intros i Hi. rewrite <- Z.add_assoc, Hbyte, nth_e820_bytes by lia.
       destruct (Z.ltb_spec (8 + i) 8); [lia |].
       destruct (Z.ltb_spec (8 + i) 16); [| lia].
       replace (8 + i - 8) with i by lia. apply Hu8. lia. }
  rewrite (load_bytes_eq 4 (buf + 16) (mem s') (le_bytes 4 (e820_type entry))).
  2: { apply le_bytes_length. }
  2: { intros i Hi. rewrite <- Z.add_assoc, Hbyte, nth_e820_bytes by lia.
       destruct (Z.ltb_spec (16 + i) 8); [lia |].
       destruct (Z.ltb_spec (16 + i) 16); [lia |].
       replace (16 + i - 16) with i by lia. apply Hu8. lia. }
  rewrite !le_value_le_bytes. repeat split.
Qed.

(** One call of the walk, at cursor [k]. *)
Lemma e820_call_at (s : machine) (k : Z) :
  CONFIG_MAX_E820 <= 2 ^ 16 ->
  e820_wf s ->
  u32 (edx (regs s)) = 0x534D4150 ->
  sizeof_e820entry <= u32 (ecx (regs s)) ->
  ebx (regs s) = k ->
  0 <= k < e820_count s ->
  exists t entry,
    handle_15e820 s = Some t
    /\ nth_error (e820_list s) (Z.to_nat k) = Some entry
    /\ (forall i, 0 <= i < sizeof_e820entry ->
          mem t (far_byte (u16 (es (regs s))) (di (regs s)) i)
          = nth (Z.to_nat i) (e820_bytes entry) 0)
    /\ ebx (regs t) = (if k + 1 <? e820_count s then k + 1 else 0)
    /\ carry (regs t) = false
    /\ ecx (regs t) = sizeof_e820entry
    /\ edx (regs t) = edx (regs s)
    /\ es (regs t) = es (regs s)
    /\ edi (regs t) = edi (regs s)
    /\ e820_list t = e820_list s
    /\ e820_count t = e820_count s.
Proof.
  intros Hmax [Hcap Hcount] Hsig Hsz Hebx Hk.
  assert (Hbx : bx (regs s) = k).
  { unfold bx. rewrite Hebx. apply u16_small. lia. }
  destruct (nth_error_in_range (e820_list s) k) as [entry Hentry]; [lia |].
  destruct (handle_15e820_accepted s entry)
    as (t & Hrun & Hmem & _ & Hnext & _ & Hecx & Hcf & Hlist & Hcnt);
    [exact Hsig | lia | exact Hsz | rewrite Hbx; exact Hentry |].
  destruct (handle_15e820_accepted_regs s t) as (Hedx & Hes & Hedi & _);
    [exact Hsig | lia | exact Hsz | exact Hrun |].
  exists t, entry.
  assert (Hseg := u16_range (es (regs s))).
  assert (Hlen := e820_bytes_length entry).
  rewrite Z.add_0_r in Hmem.
  split; [exact Hrun | split; [exact Hentry | split]].
  { intros i Hi. rewrite Hmem, memcpy_far_mem; try lia.
    - apply u8_small.
      assert (Hall := e820_bytes_byte entry).
      rewrite Forall_forall in Hall. apply Hall, nth_In. lia.
    - unfold sizeof_e820entry in *. lia. }
  split.
  { rewrite Hnext, Hbx, Hebx.
    destruct (Z.eqb_spec k (e820_count s - 1));
      destruct (Z.ltb_spec (k + 1) (e820_count s)); try lia.
    apply u32_small. lia. }
  repeat split; assumption.
Qed.

(** X10: walking a well-formed map of at most 65536 entries from cursor 0,
    the n-th call, for every n up to [e820_count], succeeds and leaves
    entry n-1 in the buffer; the cursor it returns is n, and 0 after the
    last entry, which ends the walk. *)
Theorem e820_walk_visits_every_entry (s : machine) (n : nat) :
  CONFIG_MAX_E820 <= 2 ^ 16 ->
  e820_wf s ->
  u32 (edx (regs s)) = 0x534D4150 ->
  sizeof_e820entry <= u32 (ecx (regs s)) ->
  ebx (regs s) = 0 ->
  Z.of_nat (S n) <= e820_count s ->
  exists t entry,
    e820_calls (S n) s = Some t
    /\ nth_error (e820_list s) n = Some entry
    /\ (forall i, 0 <= i < sizeof_e820entry ->
          mem t (far_byte (u16 (es (regs s))) (di (regs s)) i)
          = nth (Z.to_nat i) (e820_bytes entry) 0)
    /\ ebx (regs t)
       = (if Z.of_nat (S n) <? e820_count s then Z.of_nat (S n) else 0)
    /\ carry (regs t) = false.
Proof.
  intros Hmax Hwf Hsig Hsz Hebx.
  assert (Hstrong : Z.of_nat (S n) <= e820_count s ->
    exists t entry,
      e820_calls (S n) s = Some t
      /\ nth_error (e820_list s) n = Some entry
      /\ (forall i, 0 <= i < sizeof_e820entry ->
            mem t (far_byte (u16 (es (regs s))) (di (regs s)) i)
            = nth (Z.to_nat i) (e820_bytes entry) 0)
      /\ ebx (regs t)
         = (if Z.of_nat (S n) <? e820_count s then Z.of_nat (S n) else 0)
      /\ carry (regs t) = false
      /\ ecx (regs t) = sizeof_e820entry
      /\ edx (regs t) = edx (regs s)
      /\ es (regs t) = es (regs s)
      /\ edi (regs t) = edi (regs s)
      /\ e820_list t = e820_list s
      /\ e820_count t = e820_count s).
  { induction n as [| n IH]; intros Hn.
    - destruct (e820_call_at s 0 Hmax Hwf Hsig Hsz Hebx ltac:(lia))
        as (t & entry & Hrun & Hentry & Hbuf & Hnext & Hrest).
      exists t, entry. cbn [e820_calls].
      split; [exact Hrun | split; [exact Hentry | split; [exact Hbuf |]]].
      split; [exact Hnext | exact Hrest].
    - destruct IH as (t & _ & Hrun & _ & _ & Hcur & _ & Hecx & Hedx & Hes
                      & Hedi & Hlist & Hcnt); [lia |].
      destruct (Z.ltb_spec (Z.of_nat (S n)) (e820_count s)) as [_ | Hge];
        [| lia].
      assert (Hwft : e820_wf t).
      { destruct Hwf as [Hcap Hcount]. split; [rewrite Hlist | rewrite Hcnt];
          assumption. }
      destruct (e820_call_at t (Z.of_nat (S n)) Hmax Hwft)
        as (t' & entry & Hrun' & Hentry & Hbuf & Hnext & Hcf & Hecx' & Hedx'
            & Hes' & Hedi' & Hlist' & Hcnt');
        [rewrite Hedx; exact Hsig
        | rewrite Hecx; unfold u32, sizeof_e820entry; cbn; lia
        | exact Hcur | rewrite Hcnt; lia |].
      exists t', entry.
      change (e820_calls (S (S n)) s)
        with (match e820_calls (S n) s with
              | Some t => handle_15e820 t
              | None => None
              end).
      rewrite Hrun.
      rewrite Hlist, Nat2Z.id in Hentry. rewrite Hcnt in Hnext.
      unfold di in *. rewrite Hes, Hedi in Hbuf.
      replace (Z.of_nat (S (S n))) with (Z.of_nat (S n) + 1) by lia.
      split; [exact Hrun' | split; [exact Hentry | split; [exact Hbuf |]]].
      split; [exact Hnext | split; [exact Hcf | split; [exact Hecx' |]]].
      rewrite Hedx', Hes', Hedi', Hlist', Hcnt'.
      repeat split; assumption. }
  intros Hn. destruct (Hstrong Hn)
    as (t & entry & H1 & H2 & H3 & H4 & H5 & _).
  exists t, entry. repeat split; assumption.
Qed.

End E820Walk.

(** ** The A20 services and the dispatch *)

Lemma al_set_al v r : al (set_al v r) = u8 v.
Proof. apply (low_set_low 8). lia. Qed.

Lemma al_set_ah v r : al (set_ah v r) = al r.
Proof.
  unfold al, set_ah, set_eax; cbn [eax]. unfold u32, u8.
  apply Z.bits_inj'. intros n Hn.
  rewrite !testbit_mod_pow2 by lia.
  destruct (Z.ltb_spec n 8) as [Hlt | Hge]; cbn [andb]; [| reflexivity].
  destruct (Z.ltb_spec n 32) as [_ | Hge]; [| lia]. cbn [andb].
  rewrite !Z.lor_spec, !Z.shiftl_spec, !testbit_mod_pow2 by lia.
  rewrite (Z.testbit_neg_r _ (n - 16)), (Z.testbit_neg_r _ (n - 8)) by lia.
  rewrite andb_false_r. cbn [orb].
  destruct (Z.ltb_spec n 8); [reflexivity | lia].
Qed.

Section Services.

Context {P : Platform}.

Lemma set_code_success_status s :
  carry (regs (set_code_success s)) = false
  /\ ah (regs (set_code_success s)) = 0
  /\ al (regs (set_code_success s)) = al (regs s).
Proof.
  unfold set_code_success. cbn [regs set_regs]. unfold regs_code_success.
  generalize (regs s). intros r. split; [apply carry_set_cf |].
  split.
  - transitivity (ah (set_ah 0 r)); [reflexivity | apply ah_set_ah].
  - transitivity (al (set_ah 0 r)); [reflexivity | apply al_set_ah].
Qed.

Lemma set_code_success_regs s :
  regs (set_code_success s) = regs_code_success (regs s).
Proof. reflexivity. Qed.

(** X11: [handle_1524] with al = 0 disables and with al = 1 enables the
    A20 gate: the A20 bit of the port becomes al, every other bit and port
    and the memory are kept, and the call reports success. *)
Theorem handle_1524_switches_gate (s : machine) (i : Z) :
  0 <= i < 8 ->
  A20_ENABLE_BIT = 2 ^ i ->
  al (regs s) = 0 \/ al (regs s) = 1 ->
  let s' := handle_1524 s in
  Z.testbit (inb PORT_A20 s') i = (al (regs s) =? 1)
  /\ (forall j, j <> i ->
        Z.testbit (inb PORT_A20 s') j = Z.testbit (inb PORT_A20 s) j)
  /\ (forall p, p <> PORT_A20 -> io s' p = io s p)
  /\ mem s' = mem s
  /\ carry (regs s') = false
  /\ ah (regs s') = 0.
Proof.
  intros Hi Hm Hal. cbv zeta.
  assert (Hform : exists c, al (regs s) = c /\ (c = 0 \/ c = 1)
            /\ handle_1524 s = set_code_success (fst (set_a20 c s))).
  { unfold handle_1524. destruct Hal as [H | H]; rewrite H.
    - exists 0. repeat split; auto.
    - exists 1. repeat split; auto. }
  destruct Hform as (c & Hc & Hc01 & Hrun). rewrite Hrun, Hc.
  destruct (set_code_success_status (fst (set_a20 c s))) as (Hcf & Hah & _).
  assert (Hio : io (set_code_success (fst (set_a20 c s)))
                = io (fst (set_a20 c s))) by apply set_code_success_io.
  rewrite (inb_io _ _ PORT_A20 Hio), Hio.
  split.
  { rewrite set_a20_bits with (i := i) by assumption.
    rewrite Z.eqb_refl. destruct Hc01 as [-> | ->]; reflexivity. }
  split.
  { intros j Hj. rewrite set_a20_bits with (i := i) by assumption.
    destruct (Z.eqb_spec j i); [contradiction | reflexivity]. }
  split; [intros p Hp; apply set_a20_other_ports; exact Hp |].
  split; [rewrite set_code_success_mem; apply set_a20_mem |].
  split; [exact Hcf | exact Hah].
Qed.

(** X12: [handle_1524] with al = 2 returns the state of the gate in al, 1
    when the A20 bit of the port is set and 0 when it is clear, without
    writing the port; asked after [handle_152401] it answers 1 and after
    [handle_152400] it answers 0. *)
Theorem handle_1524_reports_gate (s : machine) (i : Z) :
  0 <= i < 8 ->
  A20_ENABLE_BIT = 2 ^ i ->
  (al (regs s) = 2 ->
     al (regs (handle_1524 s)) = Z.b2z (Z.testbit (inb PORT_A20 s) i)
     /\ io (handle_1524 s) = io s
     /\ carry (regs (handle_1524 s)) = false
     /\ ah (regs (handle_1524 s)) = 0)
  /\ al (regs (handle_152402 (handle_152401 s))) = 1
  /\ al (regs (handle_152402 (handle_152400 s))) = 0.
Proof.
  intros Hi Hm.
  assert (Hquery : forall t,
            al (regs (handle_152402 t)) = Z.b2z (Z.testbit (inb PORT_A20 t) i)
            /\ io (handle_152402 t) = io t
            /\ carry (regs (handle_152402 t)) = false
            /\ ah (regs (handle_152402 t)) = 0).
  { intros t. unfold handle_152402. cbv zeta.
    set (v := Z.b2z _).
    assert (Hv : v = Z.b2z (Z.testbit (inb PORT_A20 t) i)).
    { subst v. rewrite Hm, land_bit_nonzero by lia. reflexivity. }
    destruct (set_code_success_status (set_regs (set_al v (regs t)) t))
      as (Hcf & Hah & Hal).
    split; [| split; [reflexivity | split; [exact Hcf | exact Hah]]].
    rewrite Hal. cbn [regs set_regs]. rewrite al_set_al, Hv.
    apply u8_small. destruct (Z.testbit _ i); cbn; lia. }
  split.
  - intros Hal. unfold handle_1524. rewrite Hal. apply Hquery.
  - assert (Hafter : forall c,
              Z.testbit (inb PORT_A20 (set_code_success (fst (set_a20 c s)))) i
              = negb (c =? 0)).
    { intros c.
      rewrite (inb_io _ (fst (set_a20 c s)) PORT_A20)
        by apply set_code_success_io.
      rewrite set_a20_bits with (i := i) by assumption.
      rewrite Z.eqb_refl. reflexivity. }
    split.
    + destruct (Hquery (handle_152401 s)) as [Hq _]. rewrite Hq.
      unfold handle_152401.
      change (let (s0, _) := set_a20 1 s in set_code_success s0)
        with (set_code_success (fst (set_a20 1 s))).
      rewrite Hafter. reflexivity.
    + destruct (Hquery (handle_152400 s)) as [Hq _]. rewrite Hq.
      unfold handle_152400.
      change (let (s0, _) := set_a20 0 s in set_code_success s0)
        with (set_code_success (fst (set_a20 0 s))).
      rewrite Hafter. reflexivity.
Qed.




End Services.

(** ** The interrupt routing of the PIIX bridge *)

Lemma map_seq_next {A} (f : Z -> A) i n :
  map (fun j => f (i + 1 + Z.of_nat j)) (seq 0 n)
  = map (fun j => f (i + Z.of_nat j)) (seq 1 n).
Proof.
  rewrite <- seq_shift, map_map. apply map_ext. intros j. f_equal. lia.
Qed.

Lemma existsb_seq_next (f : Z -> bool) i n :
  existsb (fun j => f (i + 1 + Z.of_nat j)) (seq 0 n)
  = existsb (fun j => f (i + Z.of_nat j)) (seq 1 n).
Proof.
  rewrite <- seq_shift. generalize (seq 0 n). intros l.
  induction l as [| x l IH]; cbn [map existsb]; [reflexivity |].
  rewrite IH. replace (i + 1 + Z.of_nat x) with (i + Z.of_nat (S x)) by lia.
  reflexivity.
Qed.

Section PiixRouting.

Variable pci_irqs : Z -> Z.

(** One irq of 0..15 sets its own bit of the 16 bits of [elcr]. *)
Lemma elcr_or_bits elcr irq :
  0 <= irq < 16 ->
  exists elcr',
    elcr_or elcr irq = Some elcr'
    /\ (forall k, 0 <= k < 8 ->
          Z.testbit (fst elcr') k = Z.testbit (fst elcr) k || (irq =? k))
    /\ (forall k, 0 <= k < 8 ->
          Z.testbit (snd elcr') k = Z.testbit (snd elcr) k || (irq =? k + 8)).
Proof.
  intros Hirq. unfold elcr_or.
  assert (Hor : forall a b k, 0 <= k < 8 -> 0 <= b < 8 ->
            Z.testbit (u8 (Z.lor a (Z.shiftl 1 b))) k
            = Z.testbit a k || (b =? k)).
  { intros a b k Hk Hb. rewrite u8_testbit, Z.lor_spec.
    rewrite Z.shiftl_1_l, bit_mask_testbit by lia.
    destruct (Z.ltb_spec k 8); [reflexivity | lia]. }
  destruct (Z_lt_ge_dec irq 8) as [Hlow | Hhigh].
  - assert (Hs : Z.shiftr irq 3 = 0).
    { rewrite Z.shiftr_div_pow2 by lia. apply Z.div_small. lia. }
    assert (Hl : Z.land irq 7 = irq).
    { change 7 with (Z.ones 3). rewrite Z.land_ones by lia.
      apply Z.mod_small. lia. }
    rewrite Hs, Hl. eexists. split; [reflexivity |]. cbn [fst snd]. split.
    + intros k Hk. apply Hor; lia.
    + intros k Hk. destruct (Z.eqb_spec irq (k + 8)); [lia |].
      rewrite orb_false_r. reflexivity.
  - assert (Hs : Z.shiftr irq 3 = 1).
    { rewrite Z.shiftr_div_pow2 by lia. change (2 ^ 3) with 8.
      symmetry. apply Z.div_unique with (r := irq - 8); lia. }
    assert (Hl : Z.land irq 7 = irq - 8).
    { change 7 with (Z.ones 3). rewrite Z.land_ones by lia.
      change (2 ^ 3) with 8.
      symmetry. apply Z.mod_unique with (q := 1); lia. }
    rewrite Hs, Hl. eexists. split; [reflexivity |]. cbn [fst snd]. split.
    + intros k Hk. destruct (Z.eqb_spec irq k); [lia |].
      rewrite orb_false_r. reflexivity.
    + intros k Hk. rewrite Hor by lia.
      f_equal. destruct (Z.eqb_spec (irq - 8) k);
        destruct (Z.eqb_spec irq (k + 8)); try reflexivity; lia.
Qed.

(** An irq above 15 indexes outside the two bytes of [elcr]. *)
Lemma elcr_or_overrun elcr irq : 16 <= irq -> elcr_or elcr irq = None.
Proof.
  intros Hirq. unfold elcr_or.
  assert (Hs : 2 <= Z.shiftr irq 3).
  { rewrite Z.shiftr_div_pow2 by lia. apply Z.div_le_lower_bound; lia. }
  destruct (Z.shiftr irq 3) as [| [p | p |] | p]; try reflexivity; lia.
Qed.

(** The indices of [n] iterations from [i]. *)
Lemma piix_isa_bridge_loop_bits n :
  forall i bdf elcr log,
    (forall j, i <= j < i + Z.of_nat n -> u8 (pci_irqs j) < 16) ->
    exists elcr',
      piix_isa_bridge_loop pci_irqs n i bdf elcr log
      = Some (elcr',
              log ++ map (fun j => mkPciWrite (u16 bdf) (0x60 + (i + Z.of_nat j))
                                     1 (u8 (pci_irqs (i + Z.of_nat j))))
                         (seq 0 n))
      /\ (forall k, 0 <= k < 8 ->
            Z.testbit (fst elcr') k
            = Z.testbit (fst elcr) k
              || existsb (fun j => u8 (pci_irqs (i + Z.of_nat j)) =? k)
                         (seq 0 n))
      /\ (forall k, 0 <= k < 8 ->
            Z.testbit (snd elcr') k
            = Z.testbit (snd elcr) k
              || existsb (fun j => u8 (pci_irqs (i + Z.of_nat j)) =? k + 8)
                         (seq 0 n)).
Proof.
  induction n as [| n IH]; intros i bdf elcr log Hirq;
    cbn [piix_isa_bridge_loop].
  - exists elcr. cbn [seq map existsb]. rewrite app_nil_r.
    repeat split; intros; rewrite orb_false_r; reflexivity.
  - cbv zeta.
    destruct (elcr_or_bits elcr (u8 (pci_irqs i))) as (e1 & He1 & Hlo1 & Hhi1).
    { split; [apply u8_range | apply Hirq; lia]. }
    rewrite He1.
    destruct (IH (i + 1) bdf e1
                 (pci_config_writeb bdf (0x60 + i) (u8 (pci_irqs i)) log))
      as (e2 & He2 & Hlo2 & Hhi2).
    { intros j Hj. apply Hirq. lia. }
    exists e2. rewrite He2.
    split; [| split].
    + f_equal. f_equal. unfold pci_config_writeb. rewrite <- app_assoc.
      f_equal. cbn [seq map app]. rewrite Z.add_0_r, u8_idem. f_equal.
      apply (map_seq_next
               (fun x => mkPciWrite (u16 bdf) (0x60 + x) 1 (u8 (pci_irqs x)))).
    + intros k Hk. rewrite Hlo2, Hlo1 by exact Hk.
      cbn [seq existsb]. rewrite Z.add_0_r, <- orb_assoc. do 2 f_equal.
      apply (existsb_seq_next (fun x => u8 (pci_irqs x) =? k)).
    + intros k Hk. rewrite Hhi2, Hhi1 by exact Hk.
      cbn [seq existsb]. rewrite Z.add_0_r, <- orb_assoc. do 2 f_equal.
      apply (existsb_seq_next (fun x => u8 (pci_irqs x) =? k + 8)).
Qed.

(** X14: when the four entries of [pci_irqs] are below 16,
    [piix_isa_bridge_init] routes entry i to register 0x60+i of the
    bridge, in order, and writes to the ports 0x4d0 and 0x4d1 the 16-bit
    mask of the irqs in use: bit k of port 0x4d0 is set exactly when some
    entry is k, bit k of port 0x4d1 exactly when some entry is k + 8; no
    other port changes. *)
Theorem piix_isa_bridge_init_routes (bdf : Z) (s : machine)
  (log : list pci_write) :
  (forall i, 0 <= i < 4 -> u8 (pci_irqs i) < 16) ->
  exists s',
    piix_isa_bridge_init pci_irqs bdf s log
    = Some (s', log ++ map (fun i => mkPciWrite (u16 bdf) (0x60 + i) 1
                                       (u8 (pci_irqs i))) [0; 1; 2; 3])
    /\ (forall k, 0 <= k < 8 ->
          Z.testbit (io s' 0x4d0) k
          = existsb (fun i => u8 (pci_irqs i) =? k) [0; 1; 2; 3])
    /\ (forall k, 0 <= k < 8 ->
          Z.testbit (io s' 0x4d1) k
          = existsb (fun i => u8 (pci_irqs i) =? k + 8) [0; 1; 2; 3])
    /\ (forall p, p <> 0x4d0 -> p <> 0x4d1 -> io s' p = io s p)
    /\ mem s' = mem s.
Proof.
  intros Hirq. unfold piix_isa_bridge_init. cbv zeta.
  destruct (piix_isa_bridge_loop_bits 4 0 bdf (0, 0) log)
    as (e & He & Hlo & Hhi).
  { intros j Hj. apply Hirq. lia. }
  rewrite He. destruct e as [e0 e1]. cbn [fst snd] in *.
  eexists. split; [reflexivity |].
  unfold outb. cbn [io mem set_io set_outs].
  split; [| split; [| split; [| reflexivity]]].
  - intros k Hk. change (0x4d0 =? 0x4d1) with false. cbn [Z.eqb Pos.eqb].
    rewrite u8_testbit, (Hlo k Hk), Z.bits_0.
    destruct (Z.ltb_spec k 8); [reflexivity | lia].
  - intros k Hk. cbn [Z.eqb Pos.eqb].
    rewrite u8_testbit, (Hhi k Hk), Z.bits_0.
    destruct (Z.ltb_spec k 8); [reflexivity | lia].
  - intros p H0 H1.
    destruct (Z.eqb_spec p 0x4d1); [contradiction |].
    destruct (Z.eqb_spec p 0x4d0); [contradiction | reflexivity].
Qed.

(** X15: an entry of [pci_irqs] of 16 or more makes
    [piix_isa_bridge_init] index past the two bytes of [elcr]. *)
Theorem piix_isa_bridge_init_overrun (bdf : Z) (s : machine)
  (log : list pci_write) (i : Z) :
  0 <= i < 4 ->
  16 <= u8 (pci_irqs i) ->
  piix_isa_bridge_init pci_irqs bdf s log = None.
Proof.
  intros Hi Hbig. unfold piix_isa_bridge_init. cbv zeta.
  assert (Hloop : forall n j e l,
            j <= i < j + Z.of_nat n ->
            piix_isa_bridge_loop pci_irqs n j bdf e l = None).
  { induction n as [| n IH]; intros j e l Hj; [lia |].
    cbn [piix_isa_bridge_loop]. cbv zeta.
    destruct (Z.eq_dec j i) as [-> | Hne].
    - rewrite elcr_or_overrun by exact Hbig. reflexivity.
    - destruct (elcr_or e (u8 (pci_irqs j))); [| reflexivity].
      apply IH. lia. }
  rewrite Hloop by lia. reflexivity.
Qed.

End PiixRouting.

(** * The block move *)

(** The block move is followed instruction by instruction.  An access the
    CPU refuses ends the run in [Faulted]; the lemmas below say which
    accesses are made, and the theorems speak of the calls that return and
    of those that fault. *)

(** ** Outcomes *)

Lemma same_ports_refl s : same_ports s s.
Proof.
  split; [reflexivity | split; [reflexivity |]].
  exists []. symmetry. apply app_nil_r.
Qed.

Lemma same_ports_trans s t u :
  same_ports s t -> same_ports t u -> same_ports s u.
Proof.
  intros (H1 & H2 & l1 & H3) (H4 & H5 & l2 & H6).
  split; [rewrite H4; exact H1 | split; [rewrite H5; exact H2 |]].
  exists (l1 ++ l2). rewrite H6, H3. symmetry. apply app_assoc.
Qed.

(** A step that writes no port: it changes registers only, or stores. *)
Ltac quiet_step :=
  split; [reflexivity | split; [reflexivity |]];
  first [ exists []; symmetry; apply app_nil_r | eexists; reflexivity ].

Lemma and_then_ports s o k :
  same_ports s (state_of o) ->
  (forall u, same_ports u (state_of (k u))) ->
  same_ports s (state_of (and_then o k)).
Proof.
  intros Ho Hk. destruct o as [u | u]; cbn [and_then state_of] in *.
  - apply (same_ports_trans _ u); [exact Ho | apply Hk].
  - exact Ho.
Qed.

(** ** No instruction of the block move writes a port *)

Section BlockMovePorts.

Context {P : Platform}.

Lemma mark_accessed_ports a d s : same_ports s (mark_accessed a d s).
Proof.
  unfold mark_accessed. destruct (Z.testbit d 40); quiet_step.
Qed.

Lemma load_segment_ports sel old s r t :
  load_segment sel old s = Some (r, t) -> same_ports s t.
Proof.
  unfold load_segment.
  destruct (protected (cpu s)).
  - destruct (Z.land sel (Z.lnot 3) =? 0).
    + intros H. injection H as _ <-. apply same_ports_refl.
    + destruct (fetch_descriptor sel s) as [d |]; [| discriminate].
      destruct (data_descriptor_ok sel d); [| discriminate].
      intros H. injection H as _ <-. apply mark_accessed_ports.
  - intros H. injection H as _ <-. apply same_ports_refl.
Qed.

Lemma load_code_segment_ports sel old s r t :
  load_code_segment sel old s = Some (r, t) -> same_ports s t.
Proof.
  unfold load_code_segment.
  destruct (protected (cpu s)).
  - destruct (Z.land sel (Z.lnot 3) =? 0); [discriminate |].
    destruct (fetch_descriptor sel s) as [d |]; [| discriminate].
    destruct (code_descriptor_ok sel d); [| discriminate].
    intros H. injection H as _ <-. apply mark_accessed_ports.
  - intros H. injection H as _ <-. apply same_ports_refl.
Qed.

Lemma mov_to_ds_ports sel s : same_ports s (state_of (mov_to_ds sel s)).
Proof.
  unfold mov_to_ds.
  destruct (load_segment sel (seg_ds (cpu s)) s) as [[r t] |] eqn:E;
    cbn [state_of]; [| apply same_ports_refl].
  apply (same_ports_trans _ t);
    [exact (load_segment_ports _ _ _ _ _ E) | quiet_step].
Qed.

Lemma mov_to_es_ports sel s : same_ports s (state_of (mov_to_es sel s)).
Proof.
  unfold mov_to_es.
  destruct (load_segment sel (seg_es (cpu s)) s) as [[r t] |] eqn:E;
    cbn [state_of]; [| apply same_ports_refl].
  apply (same_ports_trans _ t);
    [exact (load_segment_ports _ _ _ _ _ E) | quiet_step].
Qed.

Lemma ljmpw_ports sel s : same_ports s (state_of (ljmpw sel s)).
Proof.
  unfold ljmpw.
  destruct (load_code_segment sel (seg_cs (cpu s)) s) as [[r t] |] eqn:E;
    cbn [state_of]; [| apply same_ports_refl].
  apply (same_ports_trans _ t);
    [exact (load_code_segment_ports _ _ _ _ _ E) | quiet_step].
Qed.

Lemma SET_FARVAR_ports n seg off v s :
  same_ports s (state_of (SET_FARVAR n seg off v s)).
Proof.
  unfold SET_FARVAR. apply and_then_ports; [apply mov_to_es_ports |].
  intros u. destruct (seg_write_ok _ _ _); quiet_step.
Qed.

Lemma handle_1587_setup_ports s :
  same_ports s (state_of (handle_1587_setup s)).
Proof.
  unfold handle_1587_setup. cbv zeta.
  apply and_then_ports; [apply SET_FARVAR_ports |]. intros u.
  apply and_then_ports; [apply SET_FARVAR_ports |]. intros u'.
  apply SET_FARVAR_ports.
Qed.

Lemma lgdtw_es_si_ports s : same_ports s (state_of (lgdtw_es_si s)).
Proof.
  unfold lgdtw_es_si. cbv zeta.
  destruct (seg_read_ok _ _ _); quiet_step.
Qed.

Lemma lidtw_ports i s : same_ports s (state_of (lidtw i s)).
Proof.
  unfold lidtw. destruct (seg_readable _); quiet_step.
Qed.

Lemma movsw_ports s : same_ports s (state_of (movsw s)).
Proof.
  unfold movsw. cbv zeta.
  destruct (seg_read_ok _ _ _ && seg_write_ok _ _ _); quiet_step.
Qed.

Lemma rep_movsw_loop_ports fuel :
  forall s, same_ports s (state_of (rep_movsw_loop fuel s)).
Proof.
  induction fuel as [| fuel IH]; intros s; cbn [rep_movsw_loop].
  - apply same_ports_refl.
  - destruct (cpu_cx (cpu s) =? 0); [apply same_ports_refl |].
    apply and_then_ports; [apply movsw_ports |].
    intros u. cbv zeta.
    apply (same_ports_trans _ (set_cpu (with_cx (cpu_cx (cpu u) - 1) (cpu u)) u));
      [quiet_step | apply IH].
Qed.

Lemma handle_1587_copy_ports s :
  same_ports s (state_of (handle_1587_copy s)).
Proof.
  unfold handle_1587_copy, rep_movsw. cbv zeta.
  eapply same_ports_trans; [| apply rep_movsw_loop_ports].
  quiet_step.
Qed.

Lemma handle_1587_enter_ports count si0 s :
  same_ports s (state_of (handle_1587_enter count si0 s)).
Proof.
  unfold handle_1587_enter. cbv zeta.
  eapply same_ports_trans;
    [| apply and_then_ports; [apply lgdtw_es_si_ports |]].
  - quiet_step.
  - intros u. apply and_then_ports; [apply lidtw_ports |].
    intros u1.
    eapply same_ports_trans;
      [| apply and_then_ports; [apply ljmpw_ports |]].
    + quiet_step.
    + intros u2.
      eapply same_ports_trans;
        [| apply and_then_ports; [exact (mov_to_ds_ports _ _) |]].
      * quiet_step.
      * intros u3.
        eapply same_ports_trans; [| exact (mov_to_es_ports _ _)].
        quiet_step.
Qed.

Lemma handle_1587_leave_ports s :
  same_ports s (state_of (handle_1587_leave s)).
Proof.
  unfold handle_1587_leave. cbv zeta.
  eapply same_ports_trans;
    [| apply and_then_ports; [apply ljmpw_ports |]].
  - quiet_step.
  - intros u. apply and_then_ports; [apply lidtw_ports |].
    intros u1.
    eapply same_ports_trans; [| exact (mov_to_ds_ports _ _)].
    quiet_step.
Qed.

End BlockMovePorts.

(** ** The gate around the block move *)

Section BlockMoveGate.

Context {P : Platform}.

(** What [set_a20] logs: the byte the port reads afterwards, after the
    stores made so far. *)
Lemma set_a20_outs cond s :
  outs (fst (set_a20 cond s))
  = outs s ++ [mkOut PORT_A20 (inb PORT_A20 (fst (set_a20 cond s)))
                     (length (writes s))].
Proof.
  unfold set_a20, inb, outb; cbn [fst io outs writes set_io set_outs].
  rewrite Z.eqb_refl, u8_idem. reflexivity.
Qed.

(** The run of [handle_1587]: the gate is switched on, the body runs
    without writing a port, and the gate is switched back if the body
    returns. *)
Lemma handle_1587_ports s :
  let s0 := fst (set_a20 1 s) in
  match handle_1587 s with
  | Returned s' =>
      exists s4, same_ports s0 s4
        /\ s' = set_code_success (fst (set_a20 (snd (set_a20 1 s)) s4))
  | Faulted s' => same_ports s0 s'
  end.
Proof.
  cbv zeta. unfold handle_1587.
  destruct (set_a20 1 s) as [s0 prev]. cbn [fst snd].
  pose proof (handle_1587_setup_ports s0) as H1.
  destruct (handle_1587_setup s0) as [s1 | f];
    cbn [and_then state_of] in *; [| exact H1].
  pose proof (handle_1587_enter_ports (cx (regs s1)) (si (regs s1)) s1) as H2.
  destruct (handle_1587_enter _ _ s1) as [s2 | f];
    cbn [and_then state_of] in *;
    [| exact (same_ports_trans _ _ _ H1 H2)].
  pose proof (handle_1587_copy_ports s2) as H3.
  destruct (handle_1587_copy s2) as [s3 | f];
    cbn [and_then state_of] in *;
    [| exact (same_ports_trans _ _ _ H1 (same_ports_trans _ _ _ H2 H3))].
  pose proof (handle_1587_leave_ports s3) as H4.
  assert (H : same_ports s0 (state_of (handle_1587_leave s3))).
  { exact (same_ports_trans _ _ _ H1
             (same_ports_trans _ _ _ H2 (same_ports_trans _ _ _ H3 H4))). }
  destruct (handle_1587_leave s3) as [s4 | f];
    cbn [and_then state_of] in *; [| exact H].
  exists s4. split; [exact H | reflexivity].
Qed.

(** C2: whatever the port holds on entry, the first thing [handle_1587]
    does is to write the port with the A20 bit set and the other bits as
    they were, before any of its stores; it writes no other port.  If it
    returns, it has written the port once more, after all its stores, and
    the port reads as it did before the call, in the A20 bit and in every
    other bit.  If it faults, no second write took place and the gate is
    left enabled. *)
Theorem handle_1587_gate (s : machine) (i : Z) :
  0 <= i < 8 ->
  A20_ENABLE_BIT = 2 ^ i ->
  let on := u8 (Z.lor (inb PORT_A20 s) A20_ENABLE_BIT) in
  let first := mkOut PORT_A20 on (length (writes s)) in
  Z.testbit on i = true
  /\ (forall j, j <> i -> Z.testbit on j = Z.testbit (inb PORT_A20 s) j)
  /\ (forall p, p <> PORT_A20 -> io (state_of (handle_1587 s)) p = io s p)
  /\ (exists l, writes (state_of (handle_1587 s)) = writes s ++ l)
  /\ match handle_1587 s with
     | Returned s' =>
         outs s' = outs s ++ [first; mkOut PORT_A20 (inb PORT_A20 s)
                                           (length (writes s'))]
         /\ inb PORT_A20 s' = inb PORT_A20 s
     | Faulted s' =>
         outs s' = outs s ++ [first]
         /\ inb PORT_A20 s' = on
     end.
Proof.
  intros Hi Hm on first.
  assert (Hon : inb PORT_A20 (fst (set_a20 1 s)) = on)
    by (rewrite set_a20_port; reflexivity).
  assert (Hbits : forall j, Z.testbit on j
                    = if j =? i then true else Z.testbit (inb PORT_A20 s) j).
  { intros j. rewrite <- Hon. apply (set_a20_bits 1 s i j Hi Hm). }
  assert (Hfirst : outs (fst (set_a20 1 s)) = outs s ++ [first]).
  { rewrite set_a20_outs, Hon. reflexivity. }
  assert (Hw0 : writes (fst (set_a20 1 s)) = writes s) by reflexivity.
  split; [rewrite Hbits, Z.eqb_refl; reflexivity |].
  split.
  { intros j Hj. rewrite Hbits.
    destruct (Z.eqb_spec j i); [contradiction | reflexivity]. }
  pose proof (handle_1587_ports s) as H. cbv zeta in H.
  destruct (handle_1587 s) as [s' | s']; cbn [state_of].
  - destruct H as (s4 & (Hio & Houts & l & Hl) & ->).
    assert (Hback : inb PORT_A20
                      (set_code_success
                         (fst (set_a20 (snd (set_a20 1 s)) s4)))
                    = inb PORT_A20 s).
    { rewrite (inb_io _ (fst (set_a20 (snd (set_a20 1 s)) s4)) PORT_A20)
        by reflexivity.
      apply inb_ext. intros j.
      rewrite set_a20_bits with (i := i) by assumption.
      rewrite (inb_io s4 (fst (set_a20 1 s)) PORT_A20 Hio), Hon, Hbits.
      rewrite set_a20_result with (i := i) by (lia || exact Hm).
      destruct (Z.eqb_spec j i) as [-> | _]; [| reflexivity].
      destruct (Z.testbit (inb PORT_A20 s) i); reflexivity. }
    split; [| split; [| split; [| exact Hback]]].
    + intros p Hp. rewrite set_code_success_io.
      rewrite set_a20_other_ports by exact Hp. rewrite Hio.
      apply set_a20_other_ports. exact Hp.
    + exists l. rewrite <- Hw0. exact Hl.
    + rewrite (inb_io _ (fst (set_a20 (snd (set_a20 1 s)) s4)) PORT_A20)
        in Hback by reflexivity.
      change (outs (set_code_success
                      (fst (set_a20 (snd (set_a20 1 s)) s4))))
        with (outs (fst (set_a20 (snd (set_a20 1 s)) s4))).
      rewrite set_a20_outs, Hback, Houts, Hfirst, <- app_assoc.
      reflexivity.
  - destruct H as (Hio & Houts & l & Hl).
    split; [| split; [| split]].
    + intros p Hp. rewrite Hio. apply set_a20_other_ports. exact Hp.
    + exists l. rewrite <- Hw0. exact Hl.
    + rewrite Houts. exact Hfirst.
    + rewrite (inb_io s' (fst (set_a20 1 s)) PORT_A20 Hio). exact Hon.
Qed.

End BlockMoveGate.

(** ** Parts of stored values *)

Lemma testbit_small x k n :
  0 <= x < 2 ^ k -> k <= n -> Z.testbit x n = false.
Proof.
  intros Hx Hn.
  destruct (Z_lt_ge_dec k 0) as [Hneg | Hk].
  - rewrite Z.pow_neg_r in Hx by lia. lia.
  - rewrite <- (Z.mod_small x (2 ^ k)) by exact Hx.
    apply Z.mod_pow2_bits_high. lia.
Qed.

Lemma le_bytes_nth n v i :
  0 <= i < Z.of_nat n ->
  nth (Z.to_nat i) (le_bytes n v) 0 = u8 (Z.shiftr v (8 * i)).
Proof.
  revert v i. induction n as [| n IH]; intros v i Hi; [lia |].
  cbn [le_bytes]. destruct (Z.eq_dec i 0) as [-> | Hnz].
  - rewrite Z.shiftr_0_r. reflexivity.
  - replace (Z.to_nat i) with (S (Z.to_nat (i - 1))) by lia. cbn [nth].
    rewrite IH by lia. rewrite Z.shiftr_shiftr by lia. do 2 f_equal. lia.
Qed.

(** Loading a part of a stored value. *)
Lemma load_store_part n k m a v s :
  0 <= k -> k + Z.of_nat n <= Z.of_nat m ->
  load n (a + k) (store m a v s) = Z.shiftr v (8 * k) mod 2 ^ (8 * Z.of_nat n).
Proof.
  intros Hk Hfit. rewrite <- le_value_le_bytes.
  unfold load, store. cbn [mem set_mem]. f_equal.
  apply nth_ext with (d := 0) (d' := 0).
  - rewrite load_bytes_length, le_bytes_length. reflexivity.
  - intros i Hi. rewrite load_bytes_length in Hi.
    replace i with (Z.to_nat (Z.of_nat i)) by lia.
    rewrite nth_load_bytes by lia.
    replace (a + k + Z.of_nat i) with (a + (k + Z.of_nat i)) by lia.
    rewrite store_bytes_at by (rewrite le_bytes_length; lia).
    rewrite !le_bytes_nth by lia. rewrite u8_idem.
    rewrite Z.shiftr_shiftr by lia. do 2 f_equal. lia.
Qed.

(** ** The instructions of the block move *)

Section BlockMoveSteps.

Context {P : Platform}.

Lemma mark_accessed_cpu a d s : cpu (mark_accessed a d s) = cpu s.
Proof. unfold mark_accessed. destruct (Z.testbit d 40); reflexivity. Qed.

Lemma mark_accessed_regs a d s : regs (mark_accessed a d s) = regs s.
Proof. unfold mark_accessed. destruct (Z.testbit d 40); reflexivity. Qed.

Lemma mark_accessed_set_cpu a d c s :
  mark_accessed a d (set_cpu c s) = set_cpu c (mark_accessed a d s).
Proof. unfold mark_accessed. destruct (Z.testbit d 40); reflexivity. Qed.

(** Only byte 5 of the descriptor can change. *)
Lemma mark_accessed_mem a d s x :
  x <> a + 5 -> mem (mark_accessed a d s) x = mem s x.
Proof.
  intros Hx. unfold mark_accessed. destruct (Z.testbit d 40); [reflexivity |].
  unfold store; cbn [mem set_mem le_bytes store_bytes]. unfold upd.
  destruct (Z.eqb_spec x (a + 5)); [contradiction | reflexivity].
Qed.

Lemma load_bytes_mem_ext n : forall a m m',
  (forall x, a <= x < a + Z.of_nat n -> m' x = m x) ->
  load_bytes n a m' = load_bytes n a m.
Proof.
  induction n as [| n IH]; intros a m m' H; [reflexivity |].
  cbn [load_bytes]. rewrite H by lia. f_equal. apply IH.
  intros x Hx. apply H. lia.
Qed.

Lemma load_ext n a s t :
  (forall x, a <= x < a + Z.of_nat n -> mem t x = mem s x) ->
  load n a t = load n a s.
Proof. intros H. unfold load. f_equal. apply load_bytes_mem_ext. exact H. Qed.

Lemma mark_accessed_load n a b d s :
  b + 5 < a \/ a + Z.of_nat n <= b + 5 ->
  load n a (mark_accessed b d s) = load n a s.
Proof.
  intros H. apply load_ext. intros x Hx. apply mark_accessed_mem. lia.
Qed.

(** Stores made by [mark_accessed]: none, or one byte of the descriptor. *)
Lemma mark_accessed_writes a d s :
  exists l, writes (mark_accessed a d s) = writes s ++ l
    /\ Forall (fun w => a <= wr_addr w
                        /\ wr_addr w + Z.of_nat (wr_width w) <= a + 8) l.
Proof.
  unfold mark_accessed. destruct (Z.testbit d 40).
  - exists []. split; [symmetry; apply app_nil_r | constructor].
  - eexists. split; [reflexivity |].
    constructor; [cbn; lia | constructor].
Qed.

(** *** Segment loads *)

Lemma mov_to_es_real sel s :
  protected (cpu s) = false ->
  mov_to_es sel s
  = Returned (set_cpu (with_es (load_segment_real sel (seg_es (cpu s)))
                               (cpu s)) s).
Proof.
  intros Hreal. unfold mov_to_es, load_segment. rewrite Hreal. reflexivity.
Qed.

Lemma mov_to_ds_real sel s :
  protected (cpu s) = false ->
  mov_to_ds sel s
  = Returned (set_cpu (with_ds (load_segment_real sel (seg_ds (cpu s)))
                               (cpu s)) s).
Proof.
  intros Hreal. unfold mov_to_ds, load_segment. rewrite Hreal. reflexivity.
Qed.

Lemma ljmpw_real sel s :
  protected (cpu s) = false ->
  ljmpw sel s
  = Returned (set_cpu (with_cs (load_segment_real sel (seg_cs (cpu s)))
                               (cpu s)) s).
Proof.
  intros Hreal. unfold ljmpw, load_code_segment. rewrite Hreal. reflexivity.
Qed.

Lemma fetch_descriptor_in_table sel s :
  Z.testbit sel 2 = false ->
  Z.land sel (Z.lnot 7) + 7 <= gdtr_limit (cpu s) ->
  fetch_descriptor sel s = Some (load 8 (descriptor_address sel s) s).
Proof.
  intros Hti Hlim. unfold fetch_descriptor. rewrite Hti.
  destruct (Z.ltb_spec (gdtr_limit (cpu s)) (Z.land sel (Z.lnot 7) + 7));
    [lia | reflexivity].
Qed.

Lemma ljmpw_protected sel s :
  protected (cpu s) = true ->
  (Z.land sel (Z.lnot 3) =? 0) = false ->
  Z.testbit sel 2 = false ->
  Z.land sel (Z.lnot 7) + 7 <= gdtr_limit (cpu s) ->
  let a := descriptor_address sel s in
  let d := load 8 a s in
  ljmpw sel s
  = if code_descriptor_ok sel d
    then Returned (set_cpu (with_cs (cached sel d) (cpu s))
                           (mark_accessed a d s))
    else Faulted s.
Proof.
  intros Hp Hnull Hti Hlim. cbv zeta.
  unfold ljmpw, load_code_segment. rewrite Hp, Hnull.
  rewrite fetch_descriptor_in_table by assumption.
  destruct (code_descriptor_ok _ _); [| reflexivity].
  rewrite mark_accessed_cpu. reflexivity.
Qed.

Lemma mov_to_ds_protected sel s :
  protected (cpu s) = true ->
  (Z.land sel (Z.lnot 3) =? 0) = false ->
  Z.testbit sel 2 = false ->
  Z.land sel (Z.lnot 7) + 7 <= gdtr_limit (cpu s) ->
  let a := descriptor_address sel s in
  let d := load 8 a s in
  mov_to_ds sel s
  = if data_descriptor_ok sel d
    then Returned (set_cpu (with_ds (cached sel d) (cpu s))
                           (mark_accessed a d s))
    else Faulted s.
Proof.
  intros Hp Hnull Hti Hlim. cbv zeta.
  unfold mov_to_ds, load_segment. rewrite Hp, Hnull.
  rewrite fetch_descriptor_in_table by assumption.
  destruct (data_descriptor_ok _ _); [| reflexivity].
  rewrite mark_accessed_cpu. reflexivity.
Qed.

Lemma mov_to_es_protected sel s :
  protected (cpu s) = true ->
  (Z.land sel (Z.lnot 3) =? 0) = false ->
  Z.testbit sel 2 = false ->
  Z.land sel (Z.lnot 7) + 7 <= gdtr_limit (cpu s) ->
  let a := descriptor_address sel s in
  let d := load 8 a s in
  mov_to_es sel s
  = if data_descriptor_ok sel d
    then Returned (set_cpu (with_es (cached sel d) (cpu s))
                           (mark_accessed a d s))
    else Faulted s.
Proof.
  intros Hp Hnull Hti Hlim. cbv zeta.
  unfold mov_to_es, load_segment. rewrite Hp, Hnull.
  rewrite fetch_descriptor_in_table by assumption.
  destruct (data_descriptor_ok _ _); [| reflexivity].
  rewrite mark_accessed_cpu. reflexivity.
Qed.

(** *** Stores through %es in real mode *)

Lemma SET_FARVAR_real n seg off v s :
  protected (cpu s) = false ->
  let r := load_segment_real seg (seg_es (cpu s)) in
  let t := set_cpu (with_es r (cpu s)) s in
  SET_FARVAR n seg off v s
  = if seg_write_ok r off n
    then Returned (store n (lin (seg * 16) off) v t)
    else Faulted t.
Proof.
  intros Hreal. cbv zeta. unfold SET_FARVAR.
  rewrite mov_to_es_real by exact Hreal. reflexivity.
Qed.

End BlockMoveSteps.

(** *** Switching the protection-enable bit *)

Section BlockMoveMode.

Context {P : Platform}.

Lemma disable_protected_mode_real s :
  protected (cpu (disable_protected_mode s)) = false.
Proof.
  unfold disable_protected_mode, protected. cbv zeta.
  cbn [cpu set_cpu cr0 cpu_eax with_cr0 with_eax].
  apply negb_false_iff, Z.eqb_eq. apply Z.bits_inj'. intros n Hn.
  rewrite Z.bits_0, Z.land_spec. unfold u32 at 1.
  rewrite testbit_mod_pow2, Z.land_spec, Z.lnot_spec by lia.
  destruct (Z.testbit CR0_PE n); cbn [negb andb].
  - rewrite !andb_false_r. reflexivity.
  - apply andb_false_r.
Qed.

Lemma enable_protected_mode_protected s :
  0 < CR0_PE < 2 ^ 32 ->
  protected (cpu (enable_protected_mode s)) = true.
Proof.
  intros Hpe. unfold enable_protected_mode, protected. cbv zeta.
  cbn [cpu set_cpu cr0 cpu_eax with_cr0 with_eax].
  apply negb_true_iff, Z.eqb_neq. intros Hz.
  assert (Heq : Z.land (u32 (Z.lor (u32 (cr0 (cpu s))) CR0_PE)) CR0_PE
                = CR0_PE).
  { apply Z.bits_inj'. intros n Hn.
    rewrite Z.land_spec. unfold u32 at 1.
    rewrite testbit_mod_pow2, Z.lor_spec by lia.
    destruct (Z.testbit CR0_PE n) eqn:Hb; [| apply andb_false_r].
    rewrite orb_true_r, andb_true_r, andb_true_r.
    destruct (Z.ltb_spec n 32) as [_ | Hhigh]; [reflexivity |].
    rewrite <- (Z.mod_small CR0_PE (2 ^ 32)) in Hb by lia.
    rewrite Z.mod_pow2_bits_high in Hb by lia. discriminate. }
  lia.
Qed.

Lemma u16_eax_movw_ax v s :
  u16 (cpu_eax (cpu (movw_ax v s))) = u16 v.
Proof.
  unfold movw_ax. cbn [cpu set_cpu cpu_eax with_eax].
  apply (low_set_low 16). lia.
Qed.

End BlockMoveMode.

(** ** The phases of the block move *)

Section BlockMoveRun.

Context {P : Platform}.

(** *** The descriptor table

    In real mode the three stores go through %es loaded with the segment
    of the table, and each is checked against the limit %es has kept. *)
Lemma handle_1587_setup_real s :
  protected (cpu s) = false ->
  let gdt_seg := u16 (es (regs s)) in
  let far := si (regs s) in
  let r := load_segment_real gdt_seg (seg_es (cpu s)) in
  let d1 := Z.lor (Z.lor GDT_DATA (GDT_LIMIT (6 * 8 - 1)))
                  (GDT_BASE (u32 (MAKE_FLATPTR gdt_seg far))) in
  let d4 := Z.lor (Z.lor GDT_CODE (GDT_LIMIT 0x0ffff)) (GDT_BASE 0xf0000) in
  let d5 := Z.lor (Z.lor GDT_DATA (GDT_LIMIT 0x0ffff))
                  (GDT_BASE (u32 (MAKE_FLATPTR (selector (seg_ss (cpu s))) 0))) in
  let t0 := set_cpu (with_es r (cpu s)) s in
  let t1 := store 8 (lin (gdt_seg * 16) (far + 8 * 1)) d1 t0 in
  let t2 := store 8 (lin (gdt_seg * 16) (far + 8 * 4)) d4 t1 in
  let t3 := store 8 (lin (gdt_seg * 16) (far + 8 * 5)) d5 t2 in
  handle_1587_setup s
  = if seg_write_ok r (far + 8 * 1) 8 then
      if seg_write_ok r (far + 8 * 4) 8 then
        if seg_write_ok r (far + 8 * 5) 8 then Returned t3 else Faulted t2
      else Faulted t1
    else Faulted t0.
Proof.
  intros Hreal. cbv zeta. unfold handle_1587_setup. cbv zeta.
  rewrite (SET_FARVAR_real 8 _ _ _ s Hreal). cbv zeta.
  destruct (seg_write_ok _ (si (regs s) + 8 * 1) 8); cbn [and_then];
    [| reflexivity].
  match goal with
  | |- context [SET_FARVAR 8 ?g ?o ?v ?t] =>
      rewrite (SET_FARVAR_real 8 g o v t Hreal)
  end.
  cbv zeta.
  change (seg_write_ok
            (load_segment_real (u16 (es (regs s)))
               (seg_es (cpu (store 8 _ _ (set_cpu (with_es ?r (cpu s)) s)))))
            ?o 8)
    with (seg_write_ok r o 8).
  destruct (seg_write_ok _ (si (regs s) + 8 * 4) 8); cbn [and_then];
    [| reflexivity].
  match goal with
  | |- context [SET_FARVAR 8 ?g ?o ?v ?t] =>
      rewrite (SET_FARVAR_real 8 g o v t Hreal)
  end.
  cbv zeta.
  destruct (seg_write_ok _ (si (regs s) + 8 * 5) 8); reflexivity.
Qed.

End BlockMoveRun.

(** *** Entering protected mode *)

Section BlockMoveEnter.

Context {P : Platform}.

Lemma selector_checks :
  (Z.land (Z.shiftl 4 3) (Z.lnot 3) =? 0) = false
  /\ Z.testbit (Z.shiftl 4 3) 2 = false
  /\ Z.land (Z.shiftl 4 3) (Z.lnot 7) = 32
  /\ (Z.land (u16 (Z.shiftl 2 3)) (Z.lnot 3) =? 0) = false
  /\ Z.testbit (u16 (Z.shiftl 2 3)) 2 = false
  /\ Z.land (u16 (Z.shiftl 2 3)) (Z.lnot 7) = 16
  /\ (Z.land (u16 (Z.shiftl 3 3)) (Z.lnot 3) =? 0) = false
  /\ Z.testbit (u16 (Z.shiftl 3 3)) 2 = false
  /\ Z.land (u16 (Z.shiftl 3 3)) (Z.lnot 7) = 24.
Proof. vm_compute. repeat split. Qed.

(** The run of lines 122-140 on a table whose limit covers the selectors
    used: every instruction that can fault, and the state it faults or
    goes on in. *)
Lemma handle_1587_enter_tree count si0 u :
  0 < CR0_PE < 2 ^ 32 ->
  let u0 := set_cpu (with_si si0 (with_cx count (cpu u))) u in
  let ea := u16 (u16 si0 + Z.shiftl 1 3) in
  let gl := load 2 (lin (seg_base (seg_es (cpu u))) ea) u in
  let gb := load 3 (lin (seg_base (seg_es (cpu u))) (ea + 2)) u in
  39 <= gl ->
  let u1 := set_cpu (with_gdtr gl gb (cpu u0)) u0 in
  let u2 := set_cpu (with_idtr pmode_IDT_info (cpu u1)) u1 in
  let u3 := enable_protected_mode u2 in
  let dc := load 8 (lin gb 32) u in
  let u4 := set_cpu (with_cs (cached (Z.shiftl 4 3) dc) (cpu u3))
                    (mark_accessed (lin gb 32) dc u3) in
  let u5 := movw_ax (Z.shiftl 2 3) u4 in
  let dsrc := load 8 (lin gb 16) u4 in
  let u6 := set_cpu (with_ds (cached (u16 (Z.shiftl 2 3)) dsrc) (cpu u5))
                    (mark_accessed (lin gb 16) dsrc u5) in
  let u7 := movw_ax (Z.shiftl 3 3) u6 in
  let ddst := load 8 (lin gb 24) u6 in
  let u8 := set_cpu (with_es (cached (u16 (Z.shiftl 3 3)) ddst) (cpu u7))
                    (mark_accessed (lin gb 24) ddst u7) in
  handle_1587_enter count si0 u
  = if seg_read_ok (seg_es (cpu u)) ea 6 then
      if seg_readable (seg_cs (cpu u)) then
        if code_descriptor_ok (Z.shiftl 4 3) dc then
          if data_descriptor_ok (u16 (Z.shiftl 2 3)) dsrc then
            if data_descriptor_ok (u16 (Z.shiftl 3 3)) ddst
            then Returned u8 else Faulted u7
          else Faulted u5
        else Faulted u3
      else Faulted u1
    else Faulted u0.
Proof.
  intros Hpe u0 ea gl gb Hgl u1 u2 u3 dc u4 u5 dsrc u6 u7 ddst u8.
  destruct selector_checks as (N4 & T4 & I4 & N2 & T2 & I2 & N3 & T3 & I3).
  unfold handle_1587_enter. cbv zeta. fold u0.
  unfold lgdtw_es_si. cbv zeta.
  change (seg_es (cpu u0)) with (seg_es (cpu u)).
  change (cpu_si (cpu u0)) with (u16 si0). fold ea.
  change (load 2 (lin (seg_base (seg_es (cpu u))) ea) u0) with gl.
  change (load 3 (lin (seg_base (seg_es (cpu u))) (ea + 2)) u0) with gb.
  fold u1.
  destruct (seg_read_ok (seg_es (cpu u)) ea 6); cbn [and_then];
    [| reflexivity].
  unfold lidtw at 1.
  change (seg_readable (seg_cs (cpu u1)))
    with (seg_readable (seg_cs (cpu u))).
  fold u2.
  destruct (seg_readable (seg_cs (cpu u))); cbn [and_then]; [| reflexivity].
  fold u3.
  assert (Hp3 : protected (cpu u3) = true)
    by (apply enable_protected_mode_protected; exact Hpe).
  assert (Hl3 : gdtr_limit (cpu u3) = gl) by reflexivity.
  assert (Hb3 : gdtr_base (cpu u3) = gb) by reflexivity.
  rewrite (ljmpw_protected (Z.shiftl 4 3) u3 Hp3 N4 T4)
    by (rewrite I4, Hl3; lia).
  cbv zeta. unfold descriptor_address. rewrite I4, Hb3.
  change (load 8 (lin gb 32) u3) with dc. fold u4.
  destruct (code_descriptor_ok (Z.shiftl 4 3) dc); cbn [and_then];
    [| reflexivity].
  fold u5. unfold movw_ax_ds.
  assert (Hax5 : u16 (cpu_eax (cpu u5)) = u16 (Z.shiftl 2 3))
    by apply u16_eax_movw_ax.
  rewrite Hax5.
  assert (Hp5 : protected (cpu u5) = true) by exact Hp3.
  assert (Hl5 : gdtr_limit (cpu u5) = gl) by exact Hl3.
  assert (Hb5 : gdtr_base (cpu u5) = gb) by exact Hb3.
  rewrite (mov_to_ds_protected _ u5 Hp5 N2 T2) by (rewrite I2, Hl5; lia).
  cbv zeta. unfold descriptor_address. rewrite I2, Hb5.
  change (load 8 (lin gb 16) u5) with dsrc. fold u6.
  destruct (data_descriptor_ok (u16 (Z.shiftl 2 3)) dsrc); cbn [and_then];
    [| reflexivity].
  fold u7. unfold movw_ax_es.
  assert (Hax7 : u16 (cpu_eax (cpu u7)) = u16 (Z.shiftl 3 3))
    by apply u16_eax_movw_ax.
  rewrite Hax7.
  assert (Hp7 : protected (cpu u7) = true) by exact Hp5.
  assert (Hl7 : gdtr_limit (cpu u7) = gl) by exact Hl5.
  assert (Hb7 : gdtr_base (cpu u7) = gb) by exact Hb5.
  rewrite (mov_to_es_protected _ u7 Hp7 N3 T3) by (rewrite I3, Hl7; lia).
  cbv zeta. unfold descriptor_address. rewrite I3, Hb7.
  change (load 8 (lin gb 24) u7) with ddst. fold u8.
  destruct (data_descriptor_ok (u16 (Z.shiftl 3 3)) ddst); reflexivity.
Qed.

End BlockMoveEnter.

(** *** The copy *)

Section BlockMoveCopy.

Context {P : Platform}.

Lemma same_segments_refl c : same_segments c c.
Proof. repeat split. Qed.

Lemma same_segments_trans c1 c2 c3 :
  same_segments c1 c2 -> same_segments c2 c3 -> same_segments c1 c3.
Proof.
  unfold same_segments.
  intros (A1 & A2 & A3 & A4 & A5 & A6 & A7 & A8 & A9)
         (B1 & B2 & B3 & B4 & B5 & B6 & B7 & B8 & B9).
  repeat split; congruence.
Qed.

Lemma movsw_forward s :
  df (cpu s) = false ->
  movsw s
  = if seg_read_ok (seg_ds (cpu s)) (cpu_si (cpu s)) 2
       && seg_write_ok (seg_es (cpu s)) (cpu_di (cpu s)) 2
    then Returned
           (set_cpu (with_di (cpu_di (cpu s) + 2)
                             (with_si (cpu_si (cpu s) + 2) (cpu s)))
              (store 2 (lin (seg_base (seg_es (cpu s))) (cpu_di (cpu s)))
                 (load 2 (lin (seg_base (seg_ds (cpu s))) (cpu_si (cpu s))) s)
                 s))
    else Faulted s.
Proof. intros Hdf. unfold movsw. rewrite Hdf. reflexivity. Qed.

(** [rep movsw] with the direction flag clear: if every word is inside
    the limits the loop is the word-by-word copy at offsets that wrap at
    64 KiB; otherwise it faults. *)
Lemma rep_movsw_loop_run fuel :
  forall s k,
    cpu_cx (cpu s) = Z.of_nat fuel ->
    Z.of_nat fuel < 2 ^ 16 ->
    df (cpu s) = false ->
    cpu_si (cpu s) = u16 (2 * k) ->
    cpu_di (cpu s) = u16 (2 * k) ->
    exists t f,
      rep_movsw_loop fuel s
      = (if copy_in_limits fuel k (seg_ds (cpu s)) (seg_es (cpu s))
         then Returned t else Faulted f)
      /\ t = set_cpu (cpu t)
               (copy_words wrapped_offset fuel (seg_base (seg_ds (cpu s)))
                  (seg_base (seg_es (cpu s))) k s)
      /\ same_segments (cpu s) (cpu t)
      /\ same_segments (cpu s) (cpu f).
Proof.
  induction fuel as [| fuel IH]; intros s k Hcx Hlt Hdf Hsi Hdi.
  - exists s, s. cbn [rep_movsw_loop copy_in_limits copy_words].
    rewrite set_cpu_cpu.
    repeat split.
  - cbn [rep_movsw_loop copy_in_limits copy_words].
    destruct (Z.eqb_spec (cpu_cx (cpu s)) 0) as [Hz | _]; [lia |].
    rewrite (movsw_forward s Hdf).
    change (wrapped_offset k) with (u16 (2 * k)). rewrite Hsi, Hdi.
    destruct (seg_read_ok (seg_ds (cpu s)) (u16 (2 * k)) 2
              && seg_write_ok (seg_es (cpu s)) (u16 (2 * k)) 2);
      cbn [andb and_then].
    + set (t := store 2 _ _ s).
      set (c1 := with_cx _ _).
      assert (Hc1cx : cpu_cx c1 = Z.of_nat fuel).
      { subst c1. cbn [cpu cpu_cx with_cx with_di with_si set_cpu].
        unfold u16. rewrite Hcx. rewrite Z.mod_small by lia. lia. }
      assert (Hc1df : df c1 = false) by exact Hdf.
      assert (Hc1si : cpu_si c1 = u16 (2 * (k + 1))).
      { subst c1. cbn [cpu cpu_si with_cx with_di with_si set_cpu].
        apply u16_step. }
      assert (Hc1di : cpu_di c1 = u16 (2 * (k + 1))).
      { subst c1. cbn [cpu cpu_di with_cx with_di with_si set_cpu].
        apply u16_step. }
      assert (Hseg : same_segments (cpu s) c1) by (repeat split).
      rewrite set_cpu_set_cpu.
      destruct (IH (set_cpu c1 t) (k + 1)) as (t' & f' & Heq & Ht' & St & Sf);
        [exact Hc1cx | lia | exact Hc1df | exact Hc1si | exact Hc1di |].
      exists t', f'.
      split; [exact Heq |].
      split.
      * rewrite Ht' at 1. rewrite copy_words_set_cpu, set_cpu_set_cpu.
        reflexivity.
      * split; [exact (same_segments_trans _ _ _ Hseg St)
               | exact (same_segments_trans _ _ _ Hseg Sf)].
    + exists (set_cpu (cpu s)
                (copy_words wrapped_offset fuel (seg_base (seg_ds (cpu s)))
                   (seg_base (seg_es (cpu s))) (k + 1)
                   (store 2 (lin (seg_base (seg_es (cpu s))) (u16 (2 * k)))
                      (load 2 (lin (seg_base (seg_ds (cpu s)))
                                   (u16 (2 * k))) s) s))), s.
      split; [reflexivity |].
      split; [reflexivity | split; apply same_segments_refl].
Qed.

Lemma handle_1587_copy_run s :
  0 <= cpu_cx (cpu s) < 2 ^ 16 ->
  df (cpu s) = false ->
  exists t f,
    handle_1587_copy s
    = (if copy_in_limits (Z.to_nat (cpu_cx (cpu s))) 0
            (seg_ds (cpu s)) (seg_es (cpu s))
       then Returned t else Faulted f)
    /\ t = set_cpu (cpu t)
             (copy_words wrapped_offset (Z.to_nat (cpu_cx (cpu s)))
                (seg_base (seg_ds (cpu s))) (seg_base (seg_es (cpu s))) 0 s)
    /\ same_segments (cpu s) (cpu t)
    /\ same_segments (cpu s) (cpu f).
Proof.
  intros Hcx Hdf. unfold handle_1587_copy, rep_movsw. cbv zeta.
  set (u := xorw_di_di (xorw_si_si s)).
  assert (Hu : u = set_cpu (cpu u) s) by reflexivity.
  assert (Hucx : cpu_cx (cpu u) = cpu_cx (cpu s)) by reflexivity.
  assert (Husi : cpu_si (cpu u) = u16 (2 * 0)).
  { subst u. unfold xorw_di_di, xorw_si_si.
    cbn [cpu set_cpu cpu_si with_di with_si].
    rewrite Z.lxor_nilpotent. reflexivity. }
  assert (Hudi : cpu_di (cpu u) = u16 (2 * 0)).
  { subst u. unfold xorw_di_di, xorw_si_si.
    cbn [cpu set_cpu cpu_di with_di with_si].
    rewrite Z.lxor_nilpotent. reflexivity. }
  assert (Hseg : same_segments (cpu s) (cpu u)) by (repeat split).
  rewrite Hucx.
  destruct (rep_movsw_loop_run (Z.to_nat (cpu_cx (cpu s))) u 0)
    as (t & f & Heq & Ht & St & Sf);
    [rewrite Hucx; lia | lia | exact Hdf | exact Husi | exact Hudi |].
  exists t, f.
  change (seg_ds (cpu u)) with (seg_ds (cpu s)) in Heq, Ht.
  change (seg_es (cpu u)) with (seg_es (cpu s)) in Heq, Ht.
  split; [exact Heq |].
  split.
  - rewrite Ht at 1. rewrite Hu at 1.
    rewrite copy_words_set_cpu, set_cpu_set_cpu. reflexivity.
  - split; [exact (same_segments_trans _ _ _ Hseg St)
           | exact (same_segments_trans _ _ _ Hseg Sf)].
Qed.

(** *** Back to real mode *)

Lemma handle_1587_leave_run s :
  exists t f,
    handle_1587_leave s
    = (if seg_readable (seg_cs (cpu s)) then Returned t else Faulted f)
    /\ t = set_cpu (cpu t) s
    /\ f = set_cpu (cpu f) s
    /\ protected (cpu t) = false
    /\ idtr (cpu t) = rmode_IDT_info
    /\ seg_cs (cpu t) = load_segment_real SEG_BIOS (seg_cs (cpu s))
    /\ seg_ds (cpu t)
       = load_segment_real (u16 (selector (seg_ss (cpu s)))) (seg_ds (cpu s))
    /\ seg_es (cpu t) = seg_es (cpu s)
    /\ seg_ss (cpu t) = seg_ss (cpu s)
    /\ df (cpu t) = df (cpu s).
Proof.
  unfold handle_1587_leave. cbv zeta.
  set (u := disable_protected_mode s).
  assert (Hu : protected (cpu u) = false)
    by apply disable_protected_mode_real.
  rewrite (ljmpw_real SEG_BIOS u Hu). cbn [and_then].
  set (u1 := set_cpu _ u).
  unfold lidtw.
  change (seg_readable (seg_cs (cpu u1)))
    with (seg_readable (seg_cs (cpu s))).
  set (u2 := set_cpu (with_idtr rmode_IDT_info (cpu u1)) u1).
  set (u3 := movw_ax (selector (seg_ss (cpu u2))) u2).
  assert (Hu3 : protected (cpu u3) = false) by exact Hu.
  assert (Hax : u16 (cpu_eax (cpu u3)) = u16 (selector (seg_ss (cpu s))))
    by apply u16_eax_movw_ax.
  exists (set_cpu (with_ds (load_segment_real (u16 (cpu_eax (cpu u3)))
                                              (seg_ds (cpu u3))) (cpu u3)) u3),
         u1.
  split.
  { destruct (seg_readable (seg_cs (cpu s))); cbn [and_then];
      [| reflexivity].
    fold u2. fold u3. unfold movw_ax_ds.
    apply (mov_to_ds_real _ u3 Hu3). }
  split; [destruct s; reflexivity |].
  split; [destruct s; reflexivity |].
  split; [exact Hu |].
  split; [reflexivity |].
  split; [reflexivity |].
  split; [cbn [cpu set_cpu seg_ds with_ds]; rewrite Hax; reflexivity |].
  repeat split.
Qed.

End BlockMoveCopy.

Section BlockMoveEnterRun.

Context {P : Platform}.

Lemma lin_small base off :
  0 <= base + off < 2 ^ 32 -> lin base off = base + off.
Proof. intros H. unfold lin, u32. apply Z.mod_small. exact H. Qed.

Lemma mark_accessed_step a d c c' m y :
  y = set_cpu (cpu y) m ->
  set_cpu c (mark_accessed a d (set_cpu c' y))
  = set_cpu c (mark_accessed a d m).
Proof.
  intros H. rewrite H.
  rewrite set_cpu_set_cpu, mark_accessed_set_cpu, set_cpu_set_cpu.
  reflexivity.
Qed.

(** Entering protected mode on a table at [loc] whose first descriptor
    reads as limit 47 and base [loc]: the code, source and destination
    descriptors are those at offsets 0x20, 0x10 and 0x18 of the table;
    either all are accepted, and the copy starts with %ds and %es loaded
    from the caller's two, or the CPU faults. *)
Lemma handle_1587_enter_run count si0 u loc :
  0 < CR0_PE < 2 ^ 32 ->
  0 <= loc -> loc + 48 <= 2 ^ 32 ->
  let ea := u16 (u16 si0 + Z.shiftl 1 3) in
  load 2 (lin (seg_base (seg_es (cpu u))) ea) u = 47 ->
  load 3 (lin (seg_base (seg_es (cpu u))) (ea + 2)) u = loc ->
  let dc := load 8 (loc + 32) u in
  let dsrc := load 8 (loc + 16) u in
  let ddst := load 8 (loc + 24) u in
  let cond := seg_read_ok (seg_es (cpu u)) ea 6
              && seg_readable (seg_cs (cpu u))
              && code_descriptor_ok (Z.shiftl 4 3) dc
              && data_descriptor_ok (u16 (Z.shiftl 2 3)) dsrc
              && data_descriptor_ok (u16 (Z.shiftl 3 3)) ddst in
  (cond = false /\ exists f, handle_1587_enter count si0 u = Faulted f)
  \/ (cond = true
      /\ exists t,
           handle_1587_enter count si0 u = Returned t
           /\ t = set_cpu (cpu t)
                    (mark_accessed (loc + 24) ddst
                       (mark_accessed (loc + 16) dsrc
                          (mark_accessed (loc + 32) dc u)))
           /\ cpu_cx (cpu t) = u16 count
           /\ df (cpu t) = df (cpu u)
           /\ seg_cs (cpu t) = cached (Z.shiftl 4 3) dc
           /\ seg_ds (cpu t) = cached (u16 (Z.shiftl 2 3)) dsrc
           /\ seg_es (cpu t) = cached (u16 (Z.shiftl 3 3)) ddst
           /\ seg_ss (cpu t) = seg_ss (cpu u)
           /\ protected (cpu t) = true).
Proof.
  intros Hpe Hloc0 Hloc ea Hgl Hgb dc dsrc ddst cond.
  pose proof (handle_1587_enter_tree count si0 u Hpe) as Htree.
  cbv zeta in Htree. fold ea in Htree. rewrite Hgl, Hgb in Htree.
  specialize (Htree ltac:(lia)).
  rewrite !(lin_small loc) in Htree by lia.
  fold dc in Htree.
  set (u3 := enable_protected_mode _) in Htree.
  assert (Hu3 : u3 = set_cpu (cpu u3) u) by (destruct u; reflexivity).
  set (u4 := set_cpu (with_cs _ (cpu u3)) (mark_accessed (loc + 32) dc u3))
    in Htree.
  assert (Hu4 : u4 = set_cpu (cpu u4) (mark_accessed (loc + 32) dc u)).
  { unfold u4 at 1. rewrite <- (set_cpu_cpu u3) at 2.
    rewrite (mark_accessed_step _ _ _ _ _ _ Hu3). reflexivity. }
  assert (Hsrc : load 8 (loc + 16) u4 = dsrc).
  { rewrite Hu4, load_set_cpu. apply mark_accessed_load. cbn. lia. }
  rewrite Hsrc in Htree.
  set (u5 := movw_ax (Z.shiftl 2 3) u4) in Htree.
  set (u6 := set_cpu (with_ds _ (cpu u5)) (mark_accessed (loc + 16) dsrc u5))
    in Htree.
  assert (Hu6 : u6 = set_cpu (cpu u6)
                       (mark_accessed (loc + 16) dsrc
                          (mark_accessed (loc + 32) dc u))).
  { unfold u6 at 1, u5, movw_ax.
    rewrite (mark_accessed_step _ _ _ _ _ _ Hu4). reflexivity. }
  assert (Hdst : load 8 (loc + 24) u6 = ddst).
  { rewrite Hu6, load_set_cpu.
    rewrite !mark_accessed_load by (cbn; lia). reflexivity. }
  rewrite Hdst in Htree.
  set (u7 := movw_ax (Z.shiftl 3 3) u6) in Htree.
  set (u8 := set_cpu (with_es _ (cpu u7)) (mark_accessed (loc + 24) ddst u7))
    in Htree.
  assert (Hu8 : u8 = set_cpu (cpu u8)
                       (mark_accessed (loc + 24) ddst
                          (mark_accessed (loc + 16) dsrc
                             (mark_accessed (loc + 32) dc u)))).
  { unfold u8 at 1, u7, movw_ax.
    rewrite (mark_accessed_step _ _ _ _ _ _ Hu6). reflexivity. }
  subst cond.
  destruct (seg_read_ok (seg_es (cpu u)) ea 6);
    [| left; split; [reflexivity | eexists; exact Htree]].
  destruct (seg_readable (seg_cs (cpu u)));
    [| left; split; [reflexivity | eexists; exact Htree]].
  destruct (code_descriptor_ok (Z.shiftl 4 3) dc);
    [| left; split; [reflexivity | eexists; exact Htree]].
  destruct (data_descriptor_ok (u16 (Z.shiftl 2 3)) dsrc);
    [| left; split; [reflexivity | eexists; exact Htree]].
  destruct (data_descriptor_ok (u16 (Z.shiftl 3 3)) ddst);
    [| left; split; [reflexivity | eexists; exact Htree]].
  right. split; [reflexivity |].
  exists u8. split; [exact Htree |]. split; [exact Hu8 |].
  assert (C8 : cpu u8 = with_es (cached (u16 (Z.shiftl 3 3)) ddst) (cpu u7))
    by reflexivity.
  assert (C7 : cpu u7 = with_eax (set_low 16 (cpu_eax (cpu u6)) (Z.shiftl 3 3))
                                 (cpu u6)) by reflexivity.
  assert (C6 : cpu u6 = with_ds (cached (u16 (Z.shiftl 2 3)) dsrc) (cpu u5))
    by reflexivity.
  assert (C5 : cpu u5 = with_eax (set_low 16 (cpu_eax (cpu u4)) (Z.shiftl 2 3))
                                 (cpu u4)) by reflexivity.
  assert (C4 : cpu u4 = with_cs (cached (Z.shiftl 4 3) dc) (cpu u3))
    by reflexivity.
  assert (P3 : protected (cpu u3) = true)
    by (apply enable_protected_mode_protected; exact Hpe).
  assert (X3 : cpu_cx (cpu u3) = u16 count) by reflexivity.
  assert (D3 : df (cpu u3) = df (cpu u)) by reflexivity.
  assert (S3 : seg_ss (cpu u3) = seg_ss (cpu u)) by reflexivity.
  rewrite C8, C7, C6, C5, C4.
  cbn [cpu_cx df seg_cs seg_ds seg_es seg_ss with_es with_eax with_ds with_cs].
  repeat split; try assumption.
Qed.

End BlockMoveEnterRun.

(** *** The table as the BIOS completes it *)

Section BlockMoveTable.

Context {P : Platform}.

Lemma mem_store_other n a v s x :
  x < a \/ a + Z.of_nat n <= x -> mem (store n a v s) x = mem s x.
Proof.
  intros H. unfold store; cbn [mem set_mem].
  apply store_bytes_other. rewrite le_bytes_length. exact H.
Qed.

Lemma si_range r : 0 <= si r < 2 ^ 16.
Proof. apply u16_range. Qed.

Lemma u16_si r : u16 (si r) = si r.
Proof. apply u16_idem. Qed.

Lemma cx_range r : 0 <= cx r < 2 ^ 16.
Proof. apply u16_range. Qed.

Lemma u16_cx r : u16 (cx r) = cx r.
Proof. apply u16_idem. Qed.

(** The address of the table and of its slots. *)
Lemma table_address_range s :
  0 <= table_address s < 2 ^ 21.
Proof.
  unfold table_address, MAKE_FLATPTR.
  rewrite Z.shiftl_mul_pow2 by lia.
  pose proof (u16_range (es (regs s))). pose proof (si_range (regs s)).
  lia.
Qed.

Lemma table_slot s k :
  0 <= k <= 2 ^ 21 ->
  lin (u16 (es (regs s)) * 16) (si (regs s) + k) = table_address s + k.
Proof.
  intros Hk. pose proof (table_address_range s) as Hr.
  unfold table_address, MAKE_FLATPTR in *.
  rewrite Z.shiftl_mul_pow2 in * by lia.
  rewrite lin_small by lia. change (2 ^ 4) with 16. lia.
Qed.

(** The table after the BIOS has filled in its three descriptors. *)
Lemma handle_1587_setup_run s :
  descriptor_macros_ok ->
  protected (cpu s) = false ->
  si (regs s) + 6 * 8 <= 2 ^ 16 ->
  let loc := table_address s in
  let far := si (regs s) in
  let r := load_segment_real (u16 (es (regs s))) (seg_es (cpu s)) in
  let d4 := Z.lor (Z.lor GDT_CODE (GDT_LIMIT 0x0ffff)) (GDT_BASE 0xf0000) in
  let W := seg_write_ok r (far + 8 * 1) 8
           && seg_write_ok r (far + 8 * 4) 8
           && seg_write_ok r (far + 8 * 5) 8 in
  (W = false /\ exists f, handle_1587_setup s = Faulted f)
  \/ (W = true
      /\ exists t,
           handle_1587_setup s = Returned t
           /\ cpu t = with_es r (cpu s)
           /\ regs t = regs s
           /\ load 2 (loc + 8) t = 47
           /\ load 3 (loc + 10) t = loc
           /\ load 8 (loc + 32) t = u64 d4
           /\ load 8 (loc + 16) t = load 8 (loc + 16) s
           /\ load 8 (loc + 24) t = load 8 (loc + 24) s
           /\ (forall x, x < loc + 8 \/ loc + 48 <= x -> mem t x = mem s x)
           /\ exists l, writes t = writes s ++ l
                /\ Forall (fun w => loc + 8 <= wr_addr w
                             /\ wr_addr w + Z.of_nat (wr_width w) <= loc + 48)
                          l).
Proof.
  intros (Hpe & Hgdt & Hcode) Hreal Hfit loc far r d4 W.
  pose proof (table_address_range s) as Hloc. fold loc in Hloc.
  pose proof (handle_1587_setup_real s Hreal) as Hs. cbv zeta in Hs.
  fold r in Hs. fold far in Hs. fold d4 in Hs.
  rewrite !(table_slot s) in Hs by lia. fold loc in Hs.
  change (MAKE_FLATPTR (u16 (es (regs s))) far) with loc in Hs.
  rewrite (u32_small loc) in Hs by lia.
  subst W.
  destruct (seg_write_ok r (far + 8 * 1) 8);
    [| left; split; [reflexivity | eexists; exact Hs]].
  destruct (seg_write_ok r (far + 8 * 4) 8);
    [| left; split; [reflexivity | eexists; exact Hs]].
  destruct (seg_write_ok r (far + 8 * 5) 8);
    [| left; split; [reflexivity | eexists; exact Hs]].
  right. split; [reflexivity |].
  set (d1 := Z.lor (Z.lor GDT_DATA (GDT_LIMIT (6 * 8 - 1))) (GDT_BASE loc))
    in Hs.
  set (d5 := Z.lor (Z.lor GDT_DATA (GDT_LIMIT 0x0ffff)) (GDT_BASE _)) in Hs.
  set (t0 := set_cpu (with_es r (cpu s)) s) in Hs.
  set (t1 := store 8 (loc + 8 * 1) d1 t0) in Hs.
  set (t2 := store 8 (loc + 8 * 4) d4 t1) in Hs.
  set (t3 := store 8 (loc + 8 * 5) d5 t2) in Hs.
  exists t3. split; [exact Hs |].
  split; [reflexivity |]. split; [reflexivity |].
  destruct (Hgdt loc ltac:(lia)) as [Hlim Hbase]. fold d1 in Hlim, Hbase.
  assert (Hlow : forall n a, a + Z.of_nat n <= loc + 32 ->
                   load n a t3 = load n a t1).
  { intros n a Ha. unfold t3, t2.
    rewrite !load_store_other by (cbn; lia). reflexivity. }
  split.
  { rewrite Hlow by (cbn; lia). unfold t1.
    replace (loc + 8) with (loc + 8 * 1 + 0) by lia.
    rewrite load_store_part by (cbn; lia).
    rewrite Z.shiftr_0_r. exact Hlim. }
  split.
  { rewrite Hlow by (cbn; lia). unfold t1.
    replace (loc + 10) with (loc + 8 * 1 + 2) by lia.
    rewrite load_store_part by (cbn; lia). exact Hbase. }
  split.
  { unfold t3. rewrite load_store_other by (cbn; lia).
    unfold t2. apply load_store_same. }
  assert (Hkeep : forall a, loc + 16 <= a -> a + 8 <= loc + 32 ->
                    load 8 a t3 = load 8 a s).
  { intros a Hlo Hhi. rewrite Hlow by (cbn; lia). unfold t1.
    rewrite load_store_other by (cbn; lia). reflexivity. }
  split; [apply Hkeep; lia |]. split; [apply Hkeep; lia |].
  split.
  { intros x Hx. unfold t3, t2, t1.
    rewrite !mem_store_other by (cbn; lia). reflexivity. }
  eexists. split; [unfold t3, t2, t1, store; cbn [writes set_mem];
                   rewrite <- !app_assoc; reflexivity |].
  repeat constructor; cbn; lia.
Qed.

End BlockMoveTable.

(** ** The whole call *)

Section BlockMoveWhole.

Context {P : Platform}.

(** The access rights a loaded descriptor leaves in the register. *)
Lemma cached_access_bit sel d k :
  0 < k ->
  Z.testbit (seg_access (cached sel d)) k
  = Z.testbit d (k + 40) && Z.testbit 0xf0ff k.
Proof.
  intros Hk. unfold cached, descriptor_access. cbn [seg_access].
  rewrite Z.land_spec, Z.shiftr_spec, Z.lor_spec, Z.shiftl_spec by lia.
  replace (k + 40 - 40) with k by lia.
  rewrite (testbit_small 1 1 k) by lia.
  rewrite orb_false_r. reflexivity.
Qed.

Lemma cached_readable sel d :
  seg_readable (cached sel d)
  = Z.testbit d 47 && (negb (Z.testbit d 43) || Z.testbit d 41).
Proof.
  unfold seg_readable, seg_present, seg_code.
  rewrite !cached_access_bit by lia. cbn [Z.add].
  change (Z.testbit 61695 7) with true.
  change (Z.testbit 61695 3) with true.
  change (Z.testbit 61695 1) with true.
  rewrite !andb_true_r. reflexivity.
Qed.



Lemma code_descriptor_ok_present sel d :
  code_descriptor_ok sel d = true -> Z.testbit d 47 = true.
Proof.
  unfold code_descriptor_ok. intros H.
  repeat (apply andb_prop in H; destruct H as [H ?]).
  assumption.
Qed.

Lemma copy_words_regs off n sbase dbase k s :
  regs (copy_words off n sbase dbase k s) = regs s.
Proof.
  revert k s. induction n as [| n IH]; intros k s; cbn [copy_words];
    [reflexivity |].
  rewrite IH. reflexivity.
Qed.

Lemma handle_1587_unfold s :
  handle_1587 s
  = (s1 <- handle_1587_setup (fst (set_a20 1 s)) ;;
     s2 <- handle_1587_enter (cx (regs s1)) (si (regs s1)) s1 ;;
     s3 <- handle_1587_copy s2 ;;
     s4 <- handle_1587_leave s3 ;;
     Returned (set_code_success (fst (set_a20 (snd (set_a20 1 s)) s4)))).
Proof. reflexivity. Qed.

(** The whole of a block move called in real mode on a table inside its
    segment: it returns exactly when the CPU accepts every access, and
    then it has copied the words, source and destination being the
    segments of the caller's two descriptors. *)
Lemma handle_1587_run s :
  descriptor_macros_ok ->
  protected (cpu s) = false ->
  si (regs s) + 6 * 8 <= 2 ^ 16 ->
  df (cpu s) = false ->
  let loc := table_address s in
  let n := Z.to_nat (cx (regs s)) in
  let dsrc := source_of s in
  let ddst := destination_of s in
  let dcode := u64 (Z.lor (Z.lor GDT_CODE (GDT_LIMIT 0x0ffff))
                          (GDT_BASE 0xf0000)) in
  (block_move_ok s = false /\ exists f, handle_1587 s = Faulted f)
  \/ (block_move_ok s = true
      /\ exists s2 t,
           handle_1587 s = Returned t
           /\ (forall x, x < loc + 8 \/ loc + 48 <= x -> mem s2 x = mem s x)
           /\ (exists l, writes s2 = writes s ++ l
                 /\ Forall (fun w => loc + 8 <= wr_addr w
                              /\ wr_addr w + Z.of_nat (wr_width w)
                                 <= loc + 48) l)
           /\ mem t = mem (copy_words wrapped_offset n (descriptor_base dsrc)
                             (descriptor_base ddst) 0 s2)
           /\ writes t
              = writes (copy_words wrapped_offset n (descriptor_base dsrc)
                          (descriptor_base ddst) 0 s2)
           /\ regs t = regs_code_success (regs s)
           /\ protected (cpu t) = false
           /\ idtr (cpu t) = rmode_IDT_info
           /\ seg_cs (cpu t)
              = load_segment_real SEG_BIOS (cached (Z.shiftl 4 3) dcode)
           /\ seg_ds (cpu t)
              = load_segment_real (u16 (selector (seg_ss (cpu s))))
                  (cached (Z.shiftl 2 3) dsrc)
           /\ seg_es (cpu t) = cached (Z.shiftl 3 3) ddst
           /\ seg_ss (cpu t) = seg_ss (cpu s)
           /\ df (cpu t) = false).
Proof.
  intros Hok Hreal Hfit Hdf loc n dsrc ddst dcode.
  pose proof Hok as (Hpe & _ & Hcode & Hcread). fold dcode in Hcode, Hcread.
  pose proof (table_address_range s) as Hloc. fold loc in Hloc.
  rewrite handle_1587_unfold.
  set (s0 := fst (set_a20 1 s)).
  set (prev := snd (set_a20 1 s)).
  (* the checks, named *)
  unfold block_move_ok. cbv zeta. fold dsrc ddst n.
  set (r := load_segment_real (u16 (es (regs s))) (seg_es (cpu s))).
  set (w1 := seg_write_ok r (si (regs s) + 8 * 1) 8).
  set (w4 := seg_write_ok r (si (regs s) + 8 * 4) 8).
  set (w5 := seg_write_ok r (si (regs s) + 8 * 5) 8).
  set (rg := seg_read_ok r (si (regs s) + 8) 6).
  set (rc := seg_readable (seg_cs (cpu s))).
  set (ks := data_descriptor_ok (Z.shiftl 2 3) dsrc).
  set (kd := data_descriptor_ok (Z.shiftl 3 3) ddst).
  set (cl := copy_in_limits n 0 (cached (Z.shiftl 2 3) dsrc)
               (cached (Z.shiftl 3 3) ddst)).
  (* the table *)
  pose proof (handle_1587_setup_run s0 Hok Hreal Hfit) as Hsetup.
  cbv zeta in Hsetup.
  change (table_address s0) with loc in Hsetup.
  change (regs s0) with (regs s) in Hsetup.
  change (cpu s0) with (cpu s) in Hsetup.
  fold r w1 w4 w5 in Hsetup.
  destruct Hsetup as [(HW & f & Hf) | (HW & S3 & HS3 & C3 & R3 & L2 & L3 & Lc
                                        & Ls & Ld & M3 & l3 & W3 & F3)].
  { left. split.
    - destruct w1, w4, w5; try discriminate HW; reflexivity.
    - exists f. rewrite Hf. reflexivity. }
  rewrite HS3. cbn [and_then]. rewrite R3.
  change (load 8 (loc + 16) s0) with dsrc in Ls.
  change (load 8 (loc + 24) s0) with ddst in Ld.
  change (mem s0) with (mem s) in M3.
  change (writes s0) with (writes s) in W3.
  (* entering protected mode *)
  assert (Hea : u16 (u16 (si (regs s)) + Z.shiftl 1 3) = si (regs s) + 8).
  { rewrite u16_si. change (Z.shiftl 1 3) with 8.
    pose proof (si_range (regs s)). apply u16_small. lia. }
  assert (Hbase : seg_base (seg_es (cpu S3)) = u16 (es (regs s)) * 16)
    by (rewrite C3; reflexivity).
  assert (Hgl : load 2 (lin (seg_base (seg_es (cpu S3)))
                            (u16 (u16 (si (regs s)) + Z.shiftl 1 3))) S3
                = 47).
  { rewrite Hea, Hbase, (table_slot s) by lia. exact L2. }
  assert (Hgb : load 3 (lin (seg_base (seg_es (cpu S3)))
                            (u16 (u16 (si (regs s)) + Z.shiftl 1 3) + 2)) S3
                = loc).
  { rewrite Hea, Hbase.
    replace (si (regs s) + 8 + 2) with (si (regs s) + 10) by lia.
    rewrite (table_slot s) by lia. exact L3. }
  pose proof (handle_1587_enter_run (cx (regs s)) (si (regs s)) S3 loc
                Hpe ltac:(lia) ltac:(lia) Hgl Hgb) as Henter.
  cbv zeta in Henter.
  rewrite Hea, Lc, Ls, Ld, C3 in Henter.
  change (seg_es (with_es r (cpu s))) with r in Henter.
  change (seg_cs (with_es r (cpu s))) with (seg_cs (cpu s)) in Henter.
  change (seg_ss (with_es r (cpu s))) with (seg_ss (cpu s)) in Henter.
  change (df (with_es r (cpu s))) with (df (cpu s)) in Henter.
  change (u16 (Z.shiftl 2 3)) with (Z.shiftl 2 3) in Henter.
  change (u16 (Z.shiftl 3 3)) with (Z.shiftl 3 3) in Henter.
  fold dcode in Henter. rewrite Hcode in Henter.
  fold rg rc ks kd in Henter.
  destruct Henter as [(HE & f & Hf) | (HE & s2 & Hs2 & Es2 & X2 & D2 & CS2
                                        & DS2 & ES2 & SS2 & P2)].
  { left. split.
    - rewrite HW. destruct rg, rc, ks, kd; try discriminate HE; reflexivity.
    - exists f. rewrite Hf. reflexivity. }
  rewrite Hs2. cbn [and_then].
  (* the copy *)
  rewrite u16_cx in X2. rewrite Hdf in D2.
  pose proof (handle_1587_copy_run s2) as Hcopy.
  rewrite X2, DS2, ES2 in Hcopy.
  specialize (Hcopy (cx_range (regs s)) D2).
  fold n in Hcopy. fold cl in Hcopy.
  cbn [seg_base cached] in Hcopy.
  destruct Hcopy as (s3 & f3 & Hs3 & Es3 & G3 & _).
  destruct cl eqn:Hcl.
  2:{ left. split.
      - rewrite HW. destruct rg, rc, ks, kd; try discriminate HE; reflexivity.
      - exists f3. rewrite Hs3. reflexivity. }
  rewrite Hs3. cbn [and_then].
  (* back to real mode *)
  destruct G3 as (_ & _ & _ & _ & G3cs & G3ds & G3es & G3ss & G3df).
  destruct (handle_1587_leave_run s3)
    as (s4 & f4 & Hs4 & Es4 & _ & P4 & I4 & CS4 & DS4 & ES4 & SS4 & D4).
  assert (Hrd : seg_readable (seg_cs (cpu s3)) = true).
  { rewrite G3cs, CS2, cached_readable, Hcread.
    rewrite (code_descriptor_ok_present _ _ Hcode). apply orb_true_r. }
  rewrite Hrd in Hs4. rewrite Hs4. cbn [and_then].
  right. split.
  { rewrite HW. destruct rg, rc, ks, kd; try discriminate HE; reflexivity. }
  exists s2. eexists. split; [reflexivity |].
  assert (Hm2 : mem s2 = mem (mark_accessed (loc + 24) ddst
                                (mark_accessed (loc + 16) dsrc
                                   (mark_accessed (loc + 32) dcode S3))))
    by (rewrite Es2 at 1; reflexivity).
  assert (Hw2 : writes s2 = writes (mark_accessed (loc + 24) ddst
                                (mark_accessed (loc + 16) dsrc
                                   (mark_accessed (loc + 32) dcode S3))))
    by (rewrite Es2 at 1; reflexivity).
  split.
  { intros x Hx. rewrite Hm2.
    rewrite !mark_accessed_mem by lia. apply M3. exact Hx. }
  split.
  { rewrite Hw2.
    destruct (mark_accessed_writes (loc + 32) dcode S3) as (la & Ea & Fa).
    destruct (mark_accessed_writes (loc + 16) dsrc
                (mark_accessed (loc + 32) dcode S3)) as (lb & Eb & Fb).
    destruct (mark_accessed_writes (loc + 24) ddst
                (mark_accessed (loc + 16) dsrc
                   (mark_accessed (loc + 32) dcode S3))) as (lc & Ec & Fc).
    exists (l3 ++ la ++ lb ++ lc).
    split; [rewrite Ec, Eb, Ea, W3, <- !app_assoc; reflexivity |].
    repeat (apply Forall_app; split); try exact F3;
      (eapply Forall_impl; [| eassumption]); cbv beta; intros w Hw; lia. }
  assert (Hm4 : mem s4 = mem s3) by (rewrite Es4 at 1; reflexivity).
  assert (Hw4 : writes s4 = writes s3) by (rewrite Es4 at 1; reflexivity).
  assert (Hr4 : regs s4 = regs s3) by (rewrite Es4 at 1; reflexivity).
  assert (Hm3 : mem s3 = mem (copy_words wrapped_offset n
                                (descriptor_base dsrc) (descriptor_base ddst)
                                0 s2))
    by (rewrite Es3 at 1; reflexivity).
  assert (Hw3 : writes s3 = writes (copy_words wrapped_offset n
                                (descriptor_base dsrc) (descriptor_base ddst)
                                0 s2))
    by (rewrite Es3 at 1; reflexivity).
  assert (Hr3 : regs s3 = regs s).
  { rewrite Es3 at 1. cbn [regs set_cpu].
    rewrite copy_words_regs. rewrite Es2 at 1. cbn [regs set_cpu].
    rewrite !mark_accessed_regs. exact R3. }
  split; [exact (eq_trans Hm4 Hm3) |].
  split; [exact (eq_trans Hw4 Hw3) |].
  split.
  { unfold set_code_success. cbn [regs set_regs].
    change (regs (fst (set_a20 prev s4))) with (regs s4).
    rewrite Hr4, Hr3. reflexivity. }
  change (cpu (set_code_success (fst (set_a20 prev s4)))) with (cpu s4).
  split; [exact P4 |]. split; [exact I4 |].
  split; [rewrite CS4, G3cs, CS2; reflexivity |].
  split; [rewrite DS4, G3ds, DS2, G3ss, SS2; reflexivity |].
  split; [rewrite ES4, G3es, ES2; reflexivity |].
  split; [rewrite SS4, G3ss, SS2; reflexivity |].
  rewrite D4, G3df. exact D2.
Qed.

End BlockMoveWhole.

(** ** What a block move that returns has done *)

Section BlockMoveOutcome.

Context {P : Platform}.

Lemma handle_1587_returned s s' :
  descriptor_macros_ok ->
  protected (cpu s) = false ->
  si (regs s) + 6 * 8 <= 2 ^ 16 ->
  df (cpu s) = false ->
  handle_1587 s = Returned s' ->
  let loc := table_address s in
  let n := Z.to_nat (cx (regs s)) in
  let dsrc := source_of s in
  let ddst := destination_of s in
  let dcode := u64 (Z.lor (Z.lor GDT_CODE (GDT_LIMIT 0x0ffff))
                          (GDT_BASE 0xf0000)) in
  block_move_ok s = true
  /\ exists s2,
       (forall x, x < loc + 8 \/ loc + 48 <= x -> mem s2 x = mem s x)
       /\ (exists l, writes s2 = writes s ++ l
             /\ Forall (fun w => loc + 8 <= wr_addr w
                          /\ wr_addr w + Z.of_nat (wr_width w) <= loc + 48) l)
       /\ mem s' = mem (copy_words wrapped_offset n (descriptor_base dsrc)
                          (descriptor_base ddst) 0 s2)
       /\ writes s'
          = writes (copy_words wrapped_offset n (descriptor_base dsrc)
                      (descriptor_base ddst) 0 s2)
       /\ regs s' = regs_code_success (regs s)
       /\ protected (cpu s') = false
       /\ idtr (cpu s') = rmode_IDT_info
       /\ seg_cs (cpu s')
          = load_segment_real SEG_BIOS (cached (Z.shiftl 4 3) dcode)
       /\ seg_ds (cpu s')
          = load_segment_real (u16 (selector (seg_ss (cpu s))))
              (cached (Z.shiftl 2 3) dsrc)
       /\ seg_es (cpu s') = cached (Z.shiftl 3 3) ddst
       /\ seg_ss (cpu s') = seg_ss (cpu s)
       /\ df (cpu s') = false.
Proof.
  intros Hok Hreal Hfit Hdf Hret.
  destruct (handle_1587_run s Hok Hreal Hfit Hdf)
    as [(_ & f & Hf) | (Hb & s2 & t & Ht & H)].
  - rewrite Hf in Hret. discriminate.
  - rewrite Ht in Hret. injection Hret as <-.
    cbv zeta. split; [exact Hb |]. exists s2. exact H.
Qed.

Lemma handle_1587_ok s :
  descriptor_macros_ok ->
  protected (cpu s) = false ->
  si (regs s) + 6 * 8 <= 2 ^ 16 ->
  df (cpu s) = false ->
  block_move_ok s = true ->
  exists s', handle_1587 s = Returned s'.
Proof.
  intros Hok Hreal Hfit Hdf Hb.
  destruct (handle_1587_run s Hok Hreal Hfit Hdf)
    as [(Hb' & _) | (_ & s2 & t & Ht & _)].
  - rewrite Hb in Hb'. discriminate.
  - exists t. exact Ht.
Qed.


Lemma regs_code_success_status r :
  carry (regs_code_success r) = false /\ ah (regs_code_success r) = 0.
Proof.
  unfold regs_code_success. split.
  - apply carry_set_cf.
  - transitivity (ah (set_ah 0 r)); [reflexivity | apply ah_set_ah].
Qed.

Lemma last_writes_app n s l0 l :
  writes s = l0 ++ l -> length l = n -> last_writes n s = l.
Proof.
  intros Hw Hn. unfold last_writes. rewrite Hw, length_app, Hn.
  replace (length l0 + n - n)%nat with (length l0) by lia.
  apply skipn_length_app.
Qed.

(** The stores of a copy: the last [n] of the log, the j-th at the 16-bit
    offset [u16 (2 * j)] of the destination. *)
Lemma copy_words_last_writes n sbase dbase s2 s' :
  writes s' = writes (copy_words wrapped_offset n sbase dbase 0 s2) ->
  let l := last_writes n s' in
  writes s' = writes s2 ++ l
  /\ length l = n
  /\ (forall j, 0 <= j < Z.of_nat n ->
        nth (Z.to_nat j) (map wr_addr l) 0 = lin dbase (u16 (2 * j)))
  /\ Forall (fun w => wr_width w = 2%nat) l.
Proof.
  intros Hw. cbv zeta.
  destruct (copy_words_writes wrapped_offset n sbase dbase 0 s2)
    as (l & Hl & Ha & Hf).
  assert (Hlen : length l = n).
  { rewrite <- (length_map wr_addr), Ha, length_map. apply length_seq. }
  rewrite (last_writes_app n s' (writes s2) l) by congruence.
  split; [congruence |]. split; [exact Hlen |]. split; [| exact Hf].
  intros j Hj. rewrite Ha, nth_map_seq by lia.
  rewrite Z2Nat.id by lia. reflexivity.
Qed.

Lemma descriptor_base_nonneg d : 0 <= descriptor_base d.
Proof.
  unfold descriptor_base. apply Z.lor_nonneg. split.
  - apply Z.land_nonneg. right. lia.
  - apply Z.shiftl_nonneg, Z.land_nonneg. right. lia.
Qed.

(** C1: a block move called in real mode on a table inside its segment,
    with the direction flag clear, that returns, with a count of at most
    0x8000 words, is the word-by-word copy of exactly [cx] words from the
    segment of the caller's source descriptor to the segment of the
    caller's destination descriptor, at the ascending offsets 0, 2, 4,
    ...  When the copy starts memory is as the caller left it outside the
    table, and the stores made so far lie inside the table.  From there
    memory and store log are those of [copy_words ascending_offset]: the
    last [cx] stores of the log are the two-byte stores of the copy, the
    j-th at offset [2 * j] of the destination; for a count of zero nothing
    is copied.  The call reports success. *)
Theorem handle_1587_copies_words (s s' : machine) :
  descriptor_macros_ok ->
  protected (cpu s) = false ->
  si (regs s) + 6 * 8 <= 2 ^ 16 ->
  df (cpu s) = false ->
  cx (regs s) <= 0x8000 ->
  handle_1587 s = Returned s' ->
  let loc := table_address s in
  let sbase := descriptor_base (source_of s) in
  let dbase := descriptor_base (destination_of s) in
  let n := Z.to_nat (cx (regs s)) in
  let l := last_writes n s' in
  (exists s2,
     (forall x, x < loc + 8 \/ loc + 48 <= x -> mem s2 x = mem s x)
     /\ (exists l0, writes s2 = writes s ++ l0
           /\ Forall (fun w => loc + 8 <= wr_addr w
                        /\ wr_addr w + Z.of_nat (wr_width w) <= loc + 48) l0)
     /\ mem s' = mem (copy_words ascending_offset n sbase dbase 0 s2)
     /\ writes s' = writes (copy_words ascending_offset n sbase dbase 0 s2)
     /\ writes s' = writes s2 ++ l
     /\ (cx (regs s) = 0 -> mem s' = mem s2 /\ writes s' = writes s2))
  /\ length l = n
  /\ (forall j, 0 <= j < cx (regs s) ->
        nth (Z.to_nat j) (map wr_addr l) 0 = lin dbase (2 * j))
  /\ Forall (fun w => wr_width w = 2%nat) l
  /\ carry (regs s') = false
  /\ ah (regs s') = 0.
Proof.
  intros Hok Hreal Hfit Hdf Hmax Hret loc sbase dbase n l.
  destruct (handle_1587_returned s s' Hok Hreal Hfit Hdf Hret)
    as (_ & s2 & Hm2 & Hw2 & Hm & Hw & Hr & _).
  fold loc sbase dbase n in Hm2, Hw2, Hm, Hw.
  pose proof (cx_range (regs s)) as Hcx.
  assert (Hasc : copy_words wrapped_offset n sbase dbase 0 s2
                 = copy_words ascending_offset n sbase dbase 0 s2).
  { apply copy_words_ext. intros j Hj.
    unfold wrapped_offset, ascending_offset, u16.
    apply Z.mod_small. subst n. lia. }
  destruct (copy_words_last_writes n sbase dbase s2 s' Hw)
    as (Happ & Hlen & Hnth & Hwidth).
  fold l in Happ, Hlen, Hnth, Hwidth.
  rewrite Hasc in Hm, Hw.
  split.
  { exists s2.
    split; [exact Hm2 |]. split; [exact Hw2 |].
    split; [exact Hm |]. split; [exact Hw |]. split; [exact Happ |].
    intros Hzero. rewrite Hm, Hw. subst n. rewrite Hzero.
    split; reflexivity. }
  split; [exact Hlen |].
  split.
  { intros j Hj. rewrite Hnth by (subst n; lia). f_equal.
    unfold u16. apply Z.mod_small. lia. }
  split; [exact Hwidth |].
  rewrite Hr. apply regs_code_success_status.
Qed.

(** X1: a block move of at most 0x8000 words, called in real mode on a
    table inside its segment with the direction flag clear, that returns,
    between a source range and a destination range that do not overlap,
    the source lying outside the part of the table the BIOS and the CPU
    write, leaves in every byte of the destination the byte the caller
    had in the source, and every byte outside the destination and outside
    that part of the table as the caller had it.  Source and destination
    are the segments of the descriptors at offsets 0x10 and 0x18 of the
    caller's table. *)
Theorem handle_1587_moves_block (s s' : machine) :
  descriptor_macros_ok ->
  protected (cpu s) = false ->
  si (regs s) + 6 * 8 <= 2 ^ 16 ->
  df (cpu s) = false ->
  cx (regs s) <= 0x8000 ->
  handle_1587 s = Returned s' ->
  let loc := table_address s in
  let sbase := descriptor_base (source_of s) in
  let dbase := descriptor_base (destination_of s) in
  let len := 2 * cx (regs s) in
  sbase + len <= 2 ^ 32 ->
  dbase + len <= 2 ^ 32 ->
  sbase + len <= dbase \/ dbase + len <= sbase ->
  sbase + len <= loc + 8 \/ loc + 48 <= sbase ->
  (forall i, 0 <= i < len -> mem s' (dbase + i) = u8 (mem s (sbase + i)))
  /\ (forall x, x < dbase \/ dbase + len <= x ->
                x < loc + 8 \/ loc + 48 <= x ->
                mem s' x = mem s x).
Proof.
  intros Hok Hreal Hfit Hdf Hmax Hret loc sbase dbase len Hs Hd Hdis Htab.
  destruct (handle_1587_returned s s' Hok Hreal Hfit Hdf Hret)
    as (_ & s2 & Hm2 & _ & Hm & _).
  fold loc sbase dbase in Hm2, Hm.
  pose proof (cx_range (regs s)) as Hcx.
  pose proof (descriptor_base_nonneg (source_of s)) as Hs0.
  pose proof (descriptor_base_nonneg (destination_of s)) as Hd0.
  fold sbase in Hs0. fold dbase in Hd0.
  rewrite (copy_words_ext wrapped_offset ascending_offset) in Hm
    by (intros j Hj; unfold wrapped_offset, ascending_offset, u16;
        apply Z.mod_small; lia).
  subst len. clearbody sbase dbase loc.
  assert (Hn : Z.of_nat (Z.to_nat (cx (regs s))) = cx (regs s)) by lia.
  destruct (copy_words_disjoint (Z.to_nat (cx (regs s))) sbase dbase 0 s2)
    as [Hcopy Hrest]; try rewrite Hn; try lia.
  rewrite Hn in Hcopy, Hrest.
  rewrite Hm. split.
  - intros i Hi. rewrite Hcopy by lia. rewrite Hm2 by lia. reflexivity.
  - intros x Hx Hx'. rewrite Hrest by lia. apply Hm2. exact Hx'.
Qed.

(** X2: whatever the count, the stores of a block move that returns are
    0x8000 words periodic: from the 0x8000th on, each word is stored where
    the word 0x8000 places earlier was, in the first 64 KiB of the
    destination segment, the 16-bit %di having wrapped. *)
Theorem handle_1587_wraps_at_64K (s s' : machine) (j : Z) :
  descriptor_macros_ok ->
  protected (cpu s) = false ->
  si (regs s) + 6 * 8 <= 2 ^ 16 ->
  df (cpu s) = false ->
  handle_1587 s = Returned s' ->
  0x8000 <= j < cx (regs s) ->
  let a := map wr_addr (last_writes (Z.to_nat (cx (regs s))) s') in
  nth (Z.to_nat j) a 0 = nth (Z.to_nat (j - 0x8000)) a 0
  /\ nth (Z.to_nat j) a 0
     = lin (descriptor_base (destination_of s)) (2 * (j - 0x8000)).
Proof.
  intros Hok Hreal Hfit Hdf Hret Hj. cbv zeta.
  destruct (handle_1587_returned s s' Hok Hreal Hfit Hdf Hret)
    as (_ & s2 & _ & _ & _ & Hw & _).
  destruct (copy_words_last_writes _ _ _ s2 s' Hw) as (_ & _ & Hnth & _).
  pose proof (cx_range (regs s)) as Hcx.
  rewrite (Hnth j), (Hnth (j - 0x8000)) by lia.
  assert (Hwrap : u16 (2 * j) = u16 (2 * (j - 32768))).
  { unfold u16.
    replace (2 * j) with (2 * (j - 32768) + 1 * 2 ^ 16) by lia.
    apply Z.mod_add. discriminate. }
  rewrite Hwrap. split; [reflexivity |].
  f_equal. unfold u16. apply Z.mod_small. lia.
Qed.

(** X4: a block move that returns has the CPU back in real mode with the
    real-mode interrupt table, %cs reloaded with the BIOS segment and %ds
    with the stack segment.  The limits and access rights of the two are
    those of the protected-mode descriptors they were last loaded from,
    and %es is not restored: it keeps the selector 0x18, the base and the
    limit of the caller's destination descriptor ("also clobbers %es"). *)
Theorem handle_1587_restores_cpu (s s' : machine) :
  descriptor_macros_ok ->
  protected (cpu s) = false ->
  si (regs s) + 6 * 8 <= 2 ^ 16 ->
  df (cpu s) = false ->
  handle_1587 s = Returned s' ->
  let c := cpu s' in
  let ss_sel := u16 (selector (seg_ss (cpu s))) in
  protected c = false
  /\ idtr c = rmode_IDT_info
  /\ selector (seg_cs c) = SEG_BIOS
  /\ seg_base (seg_cs c) = SEG_BIOS * 16
  /\ selector (seg_ds c) = ss_sel
  /\ seg_base (seg_ds c) = ss_sel * 16
  /\ seg_limit (seg_ds c) = descriptor_limit (source_of s)
  /\ seg_ss c = seg_ss (cpu s)
  /\ selector (seg_es c) = 0x18
  /\ seg_base (seg_es c) = descriptor_base (destination_of s)
  /\ seg_limit (seg_es c) = descriptor_limit (destination_of s).
Proof.
  intros Hok Hreal Hfit Hdf Hret. cbv zeta.
  destruct (handle_1587_returned s s' Hok Hreal Hfit Hdf Hret)
    as (_ & s2 & _ & _ & _ & _ & _ & Hp & Hi & Hcs & Hds & Hes & Hss & _).
  rewrite Hcs, Hds, Hes, Hss.
  split; [exact Hp |]. split; [exact Hi |].
  repeat split.
Qed.


End BlockMoveOutcome.

(** ** The stores into the table *)

Section BlockMoveSetup.

Context {P : Platform}.

Lemma seg_write_ok_real sel r off n :
  real_mode_data r = true ->
  seg_write_ok (load_segment_real sel r) off n
  = (off + Z.of_nat n - 1 <=? 0xffff).
Proof.
  unfold real_mode_data. intros H.
  apply andb_prop in H. destruct H as [H He].
  apply andb_prop in H. destruct H as [Hl Hw].
  apply Z.eqb_eq in Hl. apply negb_true_iff in He.
  unfold seg_write_ok, seg_in_limit.
  change (seg_writable (load_segment_real sel r)) with (seg_writable r).
  change (seg_expand_down (load_segment_real sel r))
    with (seg_expand_down r).
  change (seg_limit (load_segment_real sel r)) with (seg_limit r).
  rewrite Hw, He, Hl. reflexivity.
Qed.

(** X3: entered in real mode with %es a segment of 64 KiB,
    [handle_1587] stores three 8-byte descriptors into slots 1, 4 and 5
    of the table at es:si, in that order (GDT, CS, SS), when the six
    slots lie inside the segment; the rest of memory, the null slot and
    the caller's descriptors in slots 2 and 3 among it, is left as it
    was.  The stores are checked against the limit of the segment: a
    table that starts at an offset above 0xffd8 makes the store into
    slot 4 fault after slot 1 has been written, and one that starts
    above 0xfff0 makes the first store fault. *)
Theorem handle_1587_setup_descriptors (s : machine) :
  protected (cpu s) = false ->
  real_mode_data (seg_es (cpu s)) = true ->
  let loc := table_address s in
  let far := si (regs s) in
  let d1 := Z.lor (Z.lor GDT_DATA (GDT_LIMIT (6 * 8 - 1)))
                  (GDT_BASE (u32 loc)) in
  let d4 := Z.lor (Z.lor GDT_CODE (GDT_LIMIT 0x0ffff)) (GDT_BASE 0xf0000) in
  let d5 := Z.lor (Z.lor GDT_DATA (GDT_LIMIT 0x0ffff))
                  (GDT_BASE (u32 (MAKE_FLATPTR (selector (seg_ss (cpu s))) 0)))
  in
  (far + 6 * 8 <= 2 ^ 16 ->
   exists t,
     handle_1587_setup s = Returned t
     /\ writes t = writes s ++ [mkWrite (loc + 8) 8 (u64 d1);
                                mkWrite (loc + 32) 8 (u64 d4);
                                mkWrite (loc + 40) 8 (u64 d5)]
     /\ load 8 (loc + 8) t = u64 d1
     /\ load 8 (loc + 32) t = u64 d4
     /\ load 8 (loc + 40) t = u64 d5
     /\ (forall x, x < loc + 8 \/ loc + 16 <= x < loc + 32 \/ loc + 48 <= x ->
           mem t x = mem s x)
     /\ selector (seg_es (cpu t)) = u16 (es (regs s))
     /\ seg_base (seg_es (cpu t)) = u16 (es (regs s)) * 16)
  /\ (0xffd8 < far <= 0xfff0 ->
      exists f,
        handle_1587_setup s = Faulted f
        /\ writes f = writes s ++ [mkWrite (loc + 8) 8 (u64 d1)])
  /\ (0xfff0 < far ->
      exists f,
        handle_1587_setup s = Faulted f
        /\ writes f = writes s /\ mem f = mem s).
Proof.
  intros Hreal Hes loc far d1 d4 d5.
  pose proof (handle_1587_setup_real s Hreal) as Hs. cbv zeta in Hs.
  rewrite !(seg_write_ok_real _ _ _ _ Hes) in Hs.
  rewrite !(table_slot s) in Hs by lia.
  fold loc far d1 d4 d5 in Hs.
  change (MAKE_FLATPTR (u16 (es (regs s))) far) with loc in Hs.
  fold d1 in Hs.
  pose proof (table_address_range s) as Hloc. fold loc in Hloc.
  pose proof (si_range (regs s)) as Hsi. fold far in Hsi.
  split; [| split].
  - intros Hfit.
    destruct (Z.leb_spec (far + 8 * 1 + Z.of_nat 8 - 1) 65535); [| lia].
    destruct (Z.leb_spec (far + 8 * 4 + Z.of_nat 8 - 1) 65535); [| lia].
    destruct (Z.leb_spec (far + 8 * 5 + Z.of_nat 8 - 1) 65535); [| lia].
    eexists. split; [exact Hs |].
    split.
    { unfold store; cbn [writes set_mem set_cpu].
      rewrite <- !app_assoc. reflexivity. }
    split.
    { rewrite !load_store_other by (cbn; lia).
      replace (loc + 8) with (loc + 8 * 1) by lia. apply load_store_same. }
    split.
    { rewrite load_store_other by (cbn; lia).
      replace (loc + 32) with (loc + 8 * 4) by lia. apply load_store_same. }
    split.
    { replace (loc + 40) with (loc + 8 * 5) by lia. apply load_store_same. }
    split.
    { intros x Hx. rewrite !mem_store_other by (cbn; lia). reflexivity. }
    split; reflexivity.
  - intros Hfar.
    destruct (Z.leb_spec (far + 8 * 1 + Z.of_nat 8 - 1) 65535); [| lia].
    destruct (Z.leb_spec (far + 8 * 4 + Z.of_nat 8 - 1) 65535); [lia |].
    eexists. split; [exact Hs |]. reflexivity.
  - intros Hfar.
    destruct (Z.leb_spec (far + 8 * 1 + Z.of_nat 8 - 1) 65535); [lia |].
    eexists. split; [exact Hs |]. split; reflexivity.
Qed.

End BlockMoveSetup.

(** ** The descriptors the CPU accepts *)

Section BlockMoveChecks.

Context {P : Platform}.





End BlockMoveChecks.

(** * Concrete instances of the further properties *)

Section MoreExamples.

#[local] Existing Instance seabios_platform.

Lemma set_a20_last_call_wins_witness :
  0 <= 1 < 8
  /\ A20_ENABLE_BIT = 2 ^ 1
  /\ snd (set_a20 0 (fst (set_a20 1 (gate_example 0x0c)))) = 1.
Proof.
  split; [lia |]. split; [reflexivity |].
  apply (set_a20_last_call_wins (gate_example 0x0c) 1 0 1);
    [lia | reflexivity].
Defined.

Lemma size_queries_account_for_memory_witness :
  let s := ram_example (20 * 1024 * 1024 + 5) in
  1024 * 1024 <= RamSize s < 2 ^ 32
  /\ 1024 * 1024 + 1024 * ax (regs (handle_1588 s)) <= RamSize s.
Proof.
  cbv zeta.
  split; [split; [vm_compute; discriminate | reflexivity] |].
  apply (size_queries_account_for_memory
           (ram_example (20 * 1024 * 1024 + 5))).
  split; [vm_compute; discriminate | reflexivity].
Defined.

Lemma handle_15e820_in_bounds_witness :
  e820_wf (e820_example 0x534D4150 1 20)
  /\ handle_15e820 (e820_example 0x534D4150 1 20) <> None.
Proof.
  split; [apply e820_example_wf |].
  apply handle_15e820_in_bounds, e820_example_wf.
Defined.

Lemma handle_15e820_buffer_fields_witness :
  let s := e820_example 0x534D4150 1 24 in
  u32 (edx (regs s)) = 0x534D4150
  /\ bx (regs s) < e820_count s
  /\ e820_count s <= Z.of_nat (length (e820_list s))
  /\ sizeof_e820entry <= u32 (ecx (regs s))
  /\ di (regs s) + sizeof_e820entry <= 2 ^ 16
  /\ exists s' entry,
       handle_15e820 s = Some s'
       /\ nth_error (e820_list s) (Z.to_nat (bx (regs s))) = Some entry
       /\ load 8 (MAKE_FLATPTR (u16 (es (regs s))) (di (regs s))) s'
          = u64 (e820_start entry).
Proof.
  cbv zeta.
  split; [reflexivity |]. split; [reflexivity |].
  split; [vm_compute; discriminate |]. split; [vm_compute; discriminate |].
  split; [vm_compute; discriminate |].
  destruct (handle_15e820_buffer_fields (e820_example 0x534D4150 1 24))
    as (s' & entry & H1 & H2 & H3 & _);
    [reflexivity | reflexivity | vm_compute; discriminate
    | vm_compute; discriminate | vm_compute; discriminate |].
  exists s', entry. repeat split; assumption.
Defined.

Lemma e820_walk_visits_every_entry_witness :
  let s := e820_example 0x534D4150 0 20 in
  CONFIG_MAX_E820 <= 2 ^ 16
  /\ e820_wf s
  /\ u32 (edx (regs s)) = 0x534D4150
  /\ sizeof_e820entry <= u32 (ecx (regs s))
  /\ ebx (regs s) = 0
  /\ Z.of_nat 2 <= e820_count s
  /\ exists t, e820_calls 2 s = Some t /\ ebx (regs t) = 0.
Proof.
  cbv zeta.
  split; [vm_compute; discriminate |].
  split; [apply e820_example_wf |].
  split; [reflexivity |]. split; [vm_compute; discriminate |].
  split; [reflexivity |]. split; [vm_compute; discriminate |].
  destruct (e820_walk_visits_every_entry (e820_example 0x534D4150 0 20) 1)
    as (t & entry & H1 & _ & _ & H4 & _);
    [vm_compute; discriminate | apply e820_example_wf | reflexivity
    | vm_compute; discriminate | reflexivity | vm_compute; discriminate |].
  exists t. split; [exact H1 | exact H4].
Defined.

Lemma handle_1524_switches_gate_witness :
  let s := set_regs (mkBregs 0x2401 0 0 0 0 0 0 0 0) (gate_example 0x0c) in
  0 <= 1 < 8
  /\ A20_ENABLE_BIT = 2 ^ 1
  /\ (al (regs s) = 0 \/ al (regs s) = 1)
  /\ Z.testbit (inb PORT_A20 (handle_1524 s)) 1 = (al (regs s) =? 1).
Proof.
  cbv zeta. split; [lia |]. split; [reflexivity |].
  split; [right; reflexivity |].
  apply (handle_1524_switches_gate
           (set_regs (mkBregs 0x2401 0 0 0 0 0 0 0 0) (gate_example 0x0c)) 1);
    [lia | reflexivity | right; reflexivity].
Defined.

Lemma handle_1524_reports_gate_witness :
  0 <= 1 < 8
  /\ A20_ENABLE_BIT = 2 ^ 1
  /\ al (regs (handle_152402 (handle_152401 (gate_example 0x0c)))) = 1.
Proof.
  split; [lia |]. split; [reflexivity |].
  destruct (handle_1524_reports_gate (gate_example 0x0c) 1) as (_ & H & _);
    [lia | reflexivity |].
  exact H.
Defined.

Lemma example_pci_irqs_small i : 0 <= i < 4 -> u8 (example_pci_irqs i) < 16.
Proof.
  intros Hi.
  assert (Hcases : i = 0 \/ i = 1 \/ i = 2 \/ i = 3) by lia.
  destruct Hcases as [-> | [-> | [-> | ->]]]; reflexivity.
Defined.

Lemma piix_isa_bridge_init_routes_witness :
  (forall i, 0 <= i < 4 -> u8 (example_pci_irqs i) < 16)
  /\ exists s',
       piix_isa_bridge_init example_pci_irqs 0x08 example_machine []
       = Some (s', [mkPciWrite 0x08 0x60 1 10; mkPciWrite 0x08 0x61 1 10;
                    mkPciWrite 0x08 0x62 1 11; mkPciWrite 0x08 0x63 1 11]).
Proof.
  split; [exact example_pci_irqs_small |].
  destruct (piix_isa_bridge_init_routes example_pci_irqs 0x08 example_machine
              [] example_pci_irqs_small) as (s' & Hrun & _).
  exists s'. exact Hrun.
Defined.

(** The run of the example: irqs 10 and 11 are the bits 2 and 3 of the
    second port. *)
Example piix_isa_bridge_init_example :
  match piix_isa_bridge_init example_pci_irqs 0x08 example_machine [] with
  | Some (s', _) => io s' 0x4d0 = 0x00 /\ io s' 0x4d1 = 0x0c
  | None => False
  end.
Proof. vm_compute. split; reflexivity. Qed.

Lemma piix_isa_bridge_init_overrun_witness :
  0 <= 2 < 4
  /\ 16 <= u8 ((fun i => if i =? 2 then 20 else 5) 2)
  /\ piix_isa_bridge_init (fun i => if i =? 2 then 20 else 5) 0x08
       example_machine [] = None.
Proof.
  split; [lia |]. split; [vm_compute; discriminate |].
  apply (piix_isa_bridge_init_overrun (fun i => if i =? 2 then 20 else 5)
           0x08 example_machine [] 2); [lia | vm_compute; discriminate].
Defined.

End MoreExamples.

(** ** Concrete block moves *)

Section BlockMoveExamples.

#[local] Existing Instance seabios_platform.

(** The table-self descriptor, read as [lgdtw] reads it: a limit of 47
    and the 24-bit base. *)
Lemma gdt_descriptor_fields loc :
  0 <= loc < 2 ^ 24 ->
  let d := Z.lor (Z.lor GDT_DATA (GDT_LIMIT (6 * 8 - 1))) (GDT_BASE loc) in
  d mod 2 ^ 16 = 47 /\ Z.shiftr d 16 mod 2 ^ 24 = loc.
Proof.
  intros Hloc. cbv zeta.
  change (GDT_LIMIT (6 * 8 - 1)) with 47.
  change GDT_DATA with (Z.shiftl 0x93 40).
  change (GDT_BASE loc)
    with (Z.lor (Z.shiftl (Z.land loc 0xff000000) 32)
                (Z.shiftl (Z.land loc 0x00ffffff) 16)).
  assert (Hlow : Z.land loc 0x00ffffff = loc).
  { change 0x00ffffff with (Z.ones 24). rewrite Z.land_ones by lia.
    apply Z.mod_small. exact Hloc. }
  assert (Hhigh : Z.land loc 0xff000000 = 0).
  { apply Z.bits_inj'. intros n Hn. rewrite Z.land_spec, Z.bits_0.
    destruct (Z_lt_ge_dec n 24) as [Hlt | Hge].
    - change 0xff000000 with (Z.shiftl 0xff 24).
      rewrite Z.shiftl_spec, (Z.testbit_neg_r _ (n - 24)) by lia.
      apply andb_false_r.
    - rewrite (testbit_small loc 24 n) by lia. reflexivity. }
  rewrite Hlow, Hhigh, Z.shiftl_0_l, Z.lor_0_l.
  split.
  - apply Z.bits_inj'. intros n Hn.
    rewrite testbit_mod_pow2 by lia.
    destruct (Z.ltb_spec n 16) as [Hlt | Hge]; cbn [andb].
    + rewrite !Z.lor_spec, !Z.shiftl_spec by lia.
      rewrite (Z.testbit_neg_r _ (n - 40)), (Z.testbit_neg_r _ (n - 16)) by lia.
      rewrite orb_false_r. reflexivity.
    + symmetry. apply (testbit_small 47 16); lia.
  - apply Z.bits_inj'. intros n Hn.
    rewrite testbit_mod_pow2 by lia.
    destruct (Z.ltb_spec n 24) as [Hlt | Hge]; cbn [andb].
    + rewrite Z.shiftr_spec by lia.
      rewrite !Z.lor_spec, !Z.shiftl_spec by lia.
      rewrite (Z.testbit_neg_r _ (n + 16 - 40)) by lia.
      rewrite (testbit_small 47 16 (n + 16)) by lia.
      cbn [orb]. f_equal. lia.
    + symmetry. apply (testbit_small loc 24); lia.
Qed.

(** The macros of SeaBIOS build the descriptors the block move needs. *)
Lemma seabios_macros_ok : descriptor_macros_ok.
Proof.
  split; [split; reflexivity |].
  split; [exact gdt_descriptor_fields |].
  split; reflexivity.
Defined.

Lemma block_move_example_ok count :
  0 <= count < 2 ^ 16 ->
  protected (cpu (block_move_example count)) = false
  /\ si (regs (block_move_example count)) + 6 * 8 <= 2 ^ 16
  /\ df (cpu (block_move_example count)) = false.
Proof.
  intros _. split; [reflexivity |]. split; [| reflexivity].
  vm_compute. discriminate.
Defined.

Lemma handle_1587_copies_words_witness :
  let s := block_move_example 3 in
  descriptor_macros_ok
  /\ protected (cpu s) = false
  /\ si (regs s) + 6 * 8 <= 2 ^ 16
  /\ df (cpu s) = false
  /\ cx (regs s) <= 0x8000
  /\ exists s',
       handle_1587 s = Returned s'
       /\ length (last_writes (Z.to_nat (cx (regs s))) s')
          = Z.to_nat (cx (regs s))
       /\ carry (regs s') = false.
Proof.
  cbv zeta.
  assert (H1 : protected (cpu (block_move_example 3)) = false)
    by reflexivity.
  assert (H2 : si (regs (block_move_example 3)) + 6 * 8 <= 2 ^ 16)
    by (vm_compute; discriminate).
  assert (H3 : df (cpu (block_move_example 3)) = false) by reflexivity.
  assert (H4 : cx (regs (block_move_example 3)) <= 0x8000)
    by (vm_compute; discriminate).
  split; [exact seabios_macros_ok |].
  split; [exact H1 |]. split; [exact H2 |]. split; [exact H3 |].
  split; [exact H4 |].
  destruct (handle_1587_ok (block_move_example 3) seabios_macros_ok H1 H2 H3)
    as [s' Hs']; [vm_compute; reflexivity |].
  exists s'. split; [exact Hs' |].
  destruct (handle_1587_copies_words (block_move_example 3) s'
              seabios_macros_ok H1 H2 H3 H4 Hs')
    as (_ & Hlen & _ & _ & Hcf & _).
  split; [exact Hlen | exact Hcf].
Defined.

(** The run of the example: three words arrive at 0x110000, after the
    three descriptors have been stored into the table at 0x500; the gate
    is enabled before the first store and disabled again, as it was,
    after the last. *)
Example handle_1587_example :
  match handle_1587 (block_move_example 3) with
  | Returned s =>
      map (mem s) [0x110000; 0x110001; 0x110002; 0x110003; 0x110004;
                   0x110005; 0x110006]
      = [0xa0; 0xa1; 0xa2; 0xa3; 0xa4; 0xa5; 0]
      /\ map wr_addr (writes s)
         = [0x508; 0x520; 0x528; 0x110000; 0x110002; 0x110004]
      /\ outs s = [mkOut 0x92 0x02 0; mkOut 0x92 0x00 6]
  | Faulted _ => False
  end.
Proof. vm_compute. repeat split. Qed.

(** The same request with a source descriptor that is not present: the
    load of %ds faults, in protected mode, with the gate left enabled,
    after the three descriptors have been stored. *)
Example handle_1587_fault_example :
  match handle_1587 (absent_source_example 3) with
  | Returned _ => False
  | Faulted f =>
      protected (cpu f) = true
      /\ map wr_addr (writes f) = [0x508; 0x520; 0x528]
      /\ outs f = [mkOut 0x92 0x02 0]
      /\ inb 0x92 f = 0x02
  end.
Proof. vm_compute. repeat split. Qed.

(** With a count of 0x8001 words, on descriptors of 64 KiB, the call
    returns, and the last word is stored where the first was: the offsets
    of the stores wrap at 64 KiB instead of ascending. *)
Lemma handle_1587_copies_words_counterexample :
  let s := block_move_example 0x8001 in
  let dbase := descriptor_base (destination_of s) in
  df (cpu s) = false
  /\ cx (regs s) = 0x8001
  /\ exists s',
       handle_1587 s = Returned s'
       /\ let a := map wr_addr (last_writes (Z.to_nat 0x8001) s') in
          nth (Z.to_nat 0x8000) a 0 = nth (Z.to_nat 0) a 0
          /\ nth (Z.to_nat 0x8000) a 0 = dbase
          /\ nth (Z.to_nat 0x8000) a 0 <> lin dbase (2 * 0x8000).
Proof.
  cbv zeta.
  assert (Hcx : cx (regs (block_move_example 0x8001)) = 0x8001)
    by reflexivity.
  destruct (block_move_example_ok 0x8001) as (H1 & H2 & H3);
    [split; [discriminate | reflexivity] |].
  split; [exact H3 |]. split; [exact Hcx |].
  destruct (handle_1587_ok (block_move_example 0x8001)
              seabios_macros_ok H1 H2 H3) as [s' Hs'];
    [vm_compute; reflexivity |].
  exists s'. split; [exact Hs' |].
  destruct (handle_1587_returned (block_move_example 0x8001) s'
              seabios_macros_ok H1 H2 H3 Hs')
    as (_ & s2 & _ & _ & _ & Hw & _).
  rewrite Hcx in Hw.
  destruct (copy_words_last_writes _ _ _ s2 s' Hw) as (_ & _ & Hnth & _).
  rewrite (Hnth 0x8000), (Hnth 0) by lia.
  assert (Hd : descriptor_base (destination_of (block_move_example 0x8001))
               = 0x110000) by (vm_compute; reflexivity).
  rewrite Hd.
  split; [reflexivity |]. split; [reflexivity |].
  vm_compute. discriminate.
Qed.

Lemma handle_1587_gate_witness :
  let s := block_move_example 3 in
  0 <= 1 < 8
  /\ A20_ENABLE_BIT = 2 ^ 1
  /\ (forall p, p <> PORT_A20 -> io (state_of (handle_1587 s)) p = io s p)
  /\ exists l, writes (state_of (handle_1587 s)) = writes s ++ l.
Proof.
  cbv zeta. split; [lia |]. split; [reflexivity |].
  destruct (handle_1587_gate (block_move_example 3) 1)
    as (_ & _ & Hio & Hw & _); [lia | reflexivity |].
  split; [exact Hio | exact Hw].
Defined.

Lemma handle_1587_moves_block_witness :
  let s := block_move_example 3 in
  let loc := table_address s in
  let sbase := descriptor_base (source_of s) in
  let dbase := descriptor_base (destination_of s) in
  let len := 2 * cx (regs s) in
  descriptor_macros_ok
  /\ cx (regs s) <= 0x8000
  /\ sbase + len <= 2 ^ 32
  /\ dbase + len <= 2 ^ 32
  /\ (sbase + len <= dbase \/ dbase + len <= sbase)
  /\ (sbase + len <= loc + 8 \/ loc + 48 <= sbase)
  /\ exists s',
       handle_1587 s = Returned s'
       /\ forall i, 0 <= i < len -> mem s' (dbase + i) = u8 (mem s (sbase + i)).
Proof.
  cbv zeta.
  destruct (block_move_example_ok 3) as (H1 & H2 & H3);
    [split; [discriminate | reflexivity] |].
  assert (H4 : cx (regs (block_move_example 3)) <= 0x8000)
    by (vm_compute; discriminate).
  split; [exact seabios_macros_ok |]. split; [exact H4 |].
  split; [vm_compute; discriminate |].
  split; [vm_compute; discriminate |].
  split; [left; vm_compute; discriminate |].
  split; [right; vm_compute; discriminate |].
  destruct (handle_1587_ok (block_move_example 3) seabios_macros_ok H1 H2 H3)
    as [s' Hs']; [vm_compute; reflexivity |].
  exists s'. split; [exact Hs' |].
  apply (handle_1587_moves_block (block_move_example 3) s'
           seabios_macros_ok H1 H2 H3 H4 Hs');
    [vm_compute; discriminate | vm_compute; discriminate
    | left; vm_compute; discriminate | right; vm_compute; discriminate].
Defined.

Lemma handle_1587_wraps_at_64K_witness :
  let s := block_move_example 0x8001 in
  descriptor_macros_ok
  /\ 0x8000 <= 0x8000 < cx (regs s)
  /\ exists s',
       handle_1587 s = Returned s'
       /\ let a := map wr_addr (last_writes (Z.to_nat (cx (regs s))) s') in
          nth (Z.to_nat 0x8000) a 0 = nth (Z.to_nat (0x8000 - 0x8000)) a 0.
Proof.
  cbv zeta.
  destruct (block_move_example_ok 0x8001) as (H1 & H2 & H3);
    [split; [discriminate | reflexivity] |].
  assert (Hj : 0x8000 <= 0x8000 < cx (regs (block_move_example 0x8001)))
    by (split; [discriminate | reflexivity]).
  split; [exact seabios_macros_ok |]. split; [exact Hj |].
  destruct (handle_1587_ok (block_move_example 0x8001)
              seabios_macros_ok H1 H2 H3) as [s' Hs'];
    [vm_compute; reflexivity |].
  exists s'. split; [exact Hs' |].
  apply (handle_1587_wraps_at_64K (block_move_example 0x8001) s' 0x8000
           seabios_macros_ok H1 H2 H3 Hs' Hj).
Defined.

Lemma handle_1587_setup_descriptors_witness :
  let s := block_move_example 3 in
  protected (cpu s) = false
  /\ real_mode_data (seg_es (cpu s)) = true
  /\ si (regs s) + 6 * 8 <= 2 ^ 16
  /\ exists t,
       handle_1587_setup s = Returned t
       /\ map (fun w => (wr_addr w, wr_width w)) (new_writes s t)
          = [(0x508, 8%nat); (0x520, 8%nat); (0x528, 8%nat)].
Proof.
  cbv zeta.
  assert (H2 : si (regs (block_move_example 3)) + 6 * 8 <= 2 ^ 16)
    by (vm_compute; discriminate).
  assert (H1 : protected (cpu (block_move_example 3)) = false)
    by reflexivity.
  assert (H0 : real_mode_data (seg_es (cpu (block_move_example 3))) = true)
    by reflexivity.
  split; [exact H1 |]. split; [exact H0 |]. split; [exact H2 |].
  destruct (handle_1587_setup_descriptors (block_move_example 3) H1 H0)
    as (Hfit & _).
  destruct (Hfit H2) as (t & Ht & Hw & _).
  exists t. split; [exact Ht |].
  unfold new_writes. rewrite Hw, skipn_length_app. reflexivity.
Defined.

Lemma handle_1587_restores_cpu_witness :
  let s := block_move_example 3 in
  descriptor_macros_ok
  /\ exists s',
       handle_1587 s = Returned s'
       /\ protected (cpu s') = false
       /\ selector (seg_es (cpu s')) = 0x18.
Proof.
  cbv zeta.
  destruct (block_move_example_ok 3) as (H1 & H2 & H3);
    [split; [discriminate | reflexivity] |].
  split; [exact seabios_macros_ok |].
  destruct (handle_1587_ok (block_move_example 3) seabios_macros_ok H1 H2 H3)
    as [s' Hs']; [vm_compute; reflexivity |].
  exists s'. split; [exact Hs' |].
  destruct (handle_1587_restores_cpu (block_move_example 3) s'
              seabios_macros_ok H1 H2 H3 Hs')
    as (Hp & _ & _ & _ & _ & _ & _ & _ & Hes & _).
  split; [exact Hp | exact Hes].
Defined.



End BlockMoveExamples.
